(** * nextcord/gateway.py: the gateway and voice-gateway protocol engine

    A shallow embedding of the classes of [nextcord/gateway.py]
    ([GatewayRatelimiter], [Shard], [DiscordWebSocket] and
    [DiscordVoiceWebSocket]) and the properties of its specification.

    Conventions of the embedding.
    - Python objects are records; a method is a computation in the monad
      [M O A], which threads the object [O] and the [World] (clocks, the heap
      of asyncio futures, the log of sleeps and of calls to the client's
      dispatcher) and ends in [Return a] or [Raise e].  A mutation made
      before an exception is raised is kept, as in Python.
    - Timestamps and durations are Python floats in the source; here they are
      exact rationals ([Q]), so rounding is not modelled.  The conversion of
      an [int] to a float is partial, as in the source ([float_of_int]).
    - [bytes] and [bytearray] are [list byte], [str] is [string], [int] is [Z].
    - Calls to [_log] are not modelled. *)

From Stdlib Require Import ZArith QArith Lqa String List DecimalString.
From Stdlib.Strings Require Import Byte.
From stdpp Require Import base gmap list strings.

Set Warnings "-register-all".

#[global] Instance byte_eq_dec : EqDecision byte := Byte.byte_eq_dec.

(** ** Values, exceptions, futures *)

(** Decoded JSON, as [utils.from_json] returns it (numbers are integers in
    every field the gateway reads). *)
Inductive json : Type :=
| JNull
| JBool (b : bool)
| JInt (z : Z)
| JStr (s : string)
| JList (l : list json)
| JDict (kv : list (string * json)).

(** The exceptions that occur in the module. *)
Inductive exn : Type :=
| ValueError
| RuntimeError
| KeyError
| TypeError
| IndexError
| OverflowError
| AttributeError
| StructError
| ZlibError
| UnicodeDecodeError
| JSONDecodeError
| InvalidStateError
| TimeoutError
| WebSocketClosure
| ReconnectWebSocket (shard_id : option Z) (resume : bool)
| ConnectionClosed (shard_id : option Z) (code : option Z)
| UserError (tag : nat).

Inductive outcome (A : Type) : Type :=
| Return (a : A)
| Raise (e : exn).
Arguments Return {A} a.
Arguments Raise {A} e.

(** An [asyncio.Future]. *)
Inductive Future : Type :=
| Pending
| Cancelled
| Resolved (v : json)
| Rejected (e : exn).

(** What a method can see and change outside its own object. *)
Record World : Type := mkWorld {
  now : Q;                          (* time.time() *)
  perf : Q;                         (* time.perf_counter() *)
  futures : gmap nat Future;        (* the futures created by loop.create_future() *)
  sleeps : list Q;                  (* the arguments of asyncio.sleep, latest first *)
  dispatched : list (string * json) (* the calls self._dispatch(name, arg), latest first *)
}.

(** ** The monad of methods *)

Definition M (O A : Type) : Type := O -> World -> outcome A * O * World.

Definition ret {O A} (a : A) : M O A := fun o w => (Return a, o, w).
Definition raise {O A} (e : exn) : M O A := fun o w => (Raise e, o, w).
Definition bind {O A B} (m : M O A) (k : A -> M O B) : M O B :=
  fun o w =>
    match m o w with
    | (Return a, o', w') => k a o' w'
    | (Raise e, o', w') => (Raise e, o', w')
    end.
Definition get {O} : M O O := fun o w => (Return o, o, w).
Definition modify {O} (f : O -> O) : M O unit := fun o w => (Return tt, f o, w).
Definition get_world {O} : M O World := fun o w => (Return w, o, w).
Definition modify_world {O} (f : World -> World) : M O unit :=
  fun o w => (Return tt, o, f w).
Definition lift {O A} (r : outcome A) : M O A := fun o w => (r, o, w).

(** [try: m except e if handles e: h e] *)
Definition catch {O A} (m : M O A) (handles : exn -> bool) (h : exn -> M O A) : M O A :=
  fun o w =>
    match m o w with
    | (Raise e, o', w') => if handles e then h e o' w' else (Raise e, o', w')
    | r => r
    end.

(** Run a method of a sub-object [P] held in a field of [O]. *)
Definition zoom {O P A} (proj : O -> P) (inj : P -> O -> O) (m : M P A) : M O A :=
  fun o w =>
    match m (proj o) w with
    | (r, p', w') => (r, inj p' o, w')
    end.

Declare Scope M_scope.
Delimit Scope M_scope with M.
Notation "x <- m ;; k" := (bind m (fun x => k))
  (at level 100, m at next level, right associativity) : M_scope.
Notation "m ;; k" := (bind m (fun _ => k))
  (at level 100, right associativity) : M_scope.
Notation "'when' b 'then' m" := (if b then m else ret tt)
  (at level 99, b at next level) : M_scope.
Open Scope M_scope.

Definition result_of {O A} (r : outcome A * O * World) : outcome A := r.1.1.
Definition object_of {O A} (r : outcome A * O * World) : O := r.1.2.
Definition world_of {O A} (r : outcome A * O * World) : World := r.2.

(** The clocks and [asyncio.sleep]. *)
Definition time_time {O} : M O Q := fun o w => (Return (now w), o, w).
Definition perf_counter {O} : M O Q := fun o w => (Return (perf w), o, w).
Definition asyncio_sleep {O} (d : Q) : M O unit :=
  modify_world (fun w =>
    mkWorld (now w + d) (perf w + d) (futures w) (d :: sleeps w) (dispatched w)).

(** ** GatewayRatelimiter *)

Module GatewayRatelimiter.

Record obj : Type := mk {
  max : Z;
  remaining : Z;
  window : Q;
  per : Q
}.

(** [__init__(count=110, per=60.0)] *)
Definition init (count : Z) (per : Q) : obj := mk count count 0 per.
Definition default : obj := init 110 60.

Definition set_remaining (n : Z) (r : obj) : obj := mk (max r) n (window r) (per r).
Definition set_window (q : Q) (r : obj) : obj := mk (max r) (remaining r) q (per r).

(** [current > self.window + self.per].  The sum is exact here; the source
    rounds it to a double, so that within one rounding of the end of a
    window its test can go the other way. *)
Definition window_over (current : Q) (r : obj) : bool :=
  negb (Qle_bool current (window r + per r)).


(** [get_delay]; the two differences of the wait are exact here as well. *)
Definition get_delay : M obj Q :=
  current <- time_time ;;
  r <- get ;;
  (when window_over current r then modify (set_remaining (max r))) ;;
  r <- get ;;
  (when (remaining r =? max r)%Z then modify (set_window current)) ;;
  r <- get ;;
  if (remaining r =? 0)%Z then ret (per r - (current - window r))%Q
  else
    modify (set_remaining (remaining r - 1)) ;;
    r <- get ;;
    (when (remaining r =? 0)%Z then modify (set_window current)) ;;
    ret 0%Q.

(** [block]: the lock serialises callers; one caller at a time is what the
    sequential model runs.  [if delta:] is the truth value of a float. *)
Definition block : M obj unit :=
  delta <- get_delay ;;
  when negb (Qeq_bool delta 0) then asyncio_sleep delta.

End GatewayRatelimiter.

(** ** JSON helpers *)

(** The inbound envelope [{op, d, s, t}] as [utils.from_json] yields it. *)
Module Payload.
Record obj : Type := mk {
  op : Z;
  d : json;
  s : option Z;
  t : option string
}.
End Payload.

Fixpoint assoc_get (k : string) (kv : list (string * json)) : option json :=
  match kv with
  | [] => None
  | (k', v) :: rest => if decide (k = k') then Some v else assoc_get k rest
  end.

Fixpoint assoc_set (k : string) (v : json) (kv : list (string * json))
  : list (string * json) :=
  match kv with
  | [] => [(k, v)]
  | (k', v') :: rest =>
      if decide (k = k') then (k, v) :: rest else (k', v') :: assoc_set k v rest
  end.

(** [data[key]] with a string key. *)
Definition subscript (data : json) (key : string) : outcome json :=
  match data with
  | JDict kv =>
      match assoc_get key kv with
      | Some v => Return v
      | None => Raise KeyError
      end
  | _ => Raise TypeError
  end.

(** [data.get(key, default)] *)
Definition dict_get (data : json) (key : string) (dflt : json) : outcome json :=
  match data with
  | JDict kv => Return (default dflt (assoc_get key kv))
  | _ => Raise AttributeError
  end.

(** [data[key] = v] *)
Definition dict_set (data : json) (key : string) (v : json) : outcome json :=
  match data with
  | JDict kv => Return (JDict (assoc_set key v kv))
  | _ => Raise TypeError
  end.

(** [bool(x)] *)
Definition truthy (x : json) : bool :=
  match x with
  | JNull => false
  | JBool b => b
  | JInt z => negb (z =? 0)%Z
  | JStr s => negb (String.eqb s "")
  | JList l => match l with [] => false | _ => true end
  | JDict kv => match kv with [] => false | _ => true end
  end.

(** [x is None] *)
Definition is_null (x : json) : bool :=
  match x with JNull => true | _ => false end.

Definition json_of_int (z : option Z) : json :=
  match z with Some n => JInt n | None => JNull end.

(** [", ".join(trace)]: any iterable of [str] is accepted; the joined text is
    only logged, so what is kept is whether the call raises. *)
Definition join_check (trace : json) : outcome unit :=
  match trace with
  | JList l =>
      if forallb (fun x => match x with JStr _ => true | _ => false end) l
      then Return tt else Raise TypeError
  | JStr _ => Return tt
  | JDict _ => Return tt
  | _ => Raise TypeError
  end.

(** [float(n)] of an [int] [n], which [n / 1000.0] applies to [n] as well:
    an [int] that rounds to a double is converted, one beyond the largest
    double ([2**1024 - 2**971], so from [2**1024 - 2**970] on, where
    rounding to nearest leaves the range) raises [OverflowError]. *)
Definition fits_double (n : Z) : bool := (Z.abs n <? 2 ^ 1024 - 2 ^ 970)%Z.
Arguments fits_double : simpl never.

Definition float_of_int (n : Z) : outcome Q :=
  if fits_double n then Return (inject_Z n) else Raise OverflowError.

(** ** The environment of the module

    [zlib], the UTF-8 codec, [utils.from_json]/[utils.to_json], [float] on
    strings and [sys.platform] are not part of the module: the embedding is
    parametric in them. *)
Class Env : Type := {
  zstream : Type;
  decompressobj : zstream;
  decompress : zstream -> list byte -> outcome (list byte) * zstream;
  decode_utf8 : list byte -> outcome string;
  from_json : string -> outcome Payload.obj;
  to_json : json -> string;
  float_of_str : string -> outcome Q;
  sys_platform : string
}.

(** ** aiohttp's ClientWebSocketResponse, as far as the module uses it

    [fault] is the environment's part of a write: the exception the next
    [send_str] raises, if any (a closed transport raises [RuntimeError]).
    [close_code] is the code reported by the peer. *)
Module Socket.

Record obj : Type := mk {
  closed : bool;
  close_code : option Z;
  sent : list string;        (* frames written, latest first *)
  closed_with : list (option Z); (* the code= of each close(), latest first *)
  fault : option exn
}.

Definition send_str (data : string) : M obj unit :=
  sk <- get ;;
  match fault sk with
  | Some e => raise e
  | None =>
      modify (fun sk => mk (closed sk) (close_code sk) (data :: sent sk)
                           (closed_with sk) (fault sk))
  end.

Definition close (code : option Z) : M obj unit :=
  modify (fun sk => mk true (close_code sk) (sent sk) (code :: closed_with sk) (fault sk)).

End Socket.

(** ** asyncio futures *)

Definition set_futures (fs : gmap nat Future) (w : World) : World :=
  mkWorld (now w) (perf w) fs (sleeps w) (dispatched w).

(** [loop.create_future()] *)
Definition create_future {O} : M O nat :=
  w <- get_world ;;
  let f := fresh (dom (futures w)) in
  modify_world (set_futures (<[f := Pending]> (futures w))) ;;
  ret f.

(** [future.cancelled()] *)
Definition cancelled {O} (f : nat) : M O bool :=
  w <- get_world ;;
  ret (match futures w !! f with Some Cancelled => true | _ => false end).

(** [future.set_result(v)]: [InvalidStateError] unless the future is pending. *)
Definition set_result {O} (f : nat) (v : json) : M O unit :=
  w <- get_world ;;
  match futures w !! f with
  | Some Pending => modify_world (set_futures (<[f := Resolved v]> (futures w)))
  | _ => raise InvalidStateError
  end.

(** [future.set_exception(e)] *)
Definition set_exception {O} (f : nat) (e : exn) : M O unit :=
  w <- get_world ;;
  match futures w !! f with
  | Some Pending => modify_world (set_futures (<[f := Rejected e]> (futures w)))
  | _ => raise InvalidStateError
  end.

(** [future.cancel()]: a future that is done stays as it is. *)
Definition cancel {O} (f : nat) : M O unit :=
  w <- get_world ;;
  match futures w !! f with
  | Some Pending => modify_world (set_futures (<[f := Cancelled]> (futures w)))
  | _ => ret tt
  end.

(** [self._dispatch(name, arg)] *)
Definition dispatch_call {O} (name : string) (arg : json) : M O unit :=
  modify_world (fun w =>
    mkWorld (now w) (perf w) (futures w) (sleeps w) ((name, arg) :: dispatched w)).

(** ** Event listeners

    [EventListener = namedtuple("EventListener", "predicate event result future")].
    A predicate may raise; [result] is the optional transform. *)
Record EventListener : Type := mkListener {
  predicate : json -> outcome bool;
  event : string;
  result : option (json -> outcome json);
  future : nat
}.

(** The loop "remove the dispatched listeners", which [Shard.dispatch_events]
    and [DiscordWebSocket.received_message] both contain: the body of
    [for index, entry in enumerate(listeners)], accumulating [removed]. *)
Fixpoint scan_listeners {O} (ev : option string) (data : json)
    (entries : list (nat * EventListener)) (removed : list nat) : M O (list nat) :=
  match entries with
  | [] => ret removed
  | (index, entry) :: rest =>
      if negb (bool_decide (Some (event entry) = ev)) then
        scan_listeners ev data rest removed
      else
        c <- cancelled (future entry) ;;
        if c then scan_listeners ev data rest (removed ++ [index])
        else
          match predicate entry data with
          | Raise exc =>
              set_exception (future entry) exc ;;
              scan_listeners ev data rest (removed ++ [index])
          | Return valid =>
              if valid then
                v <- match result entry with
                     | None => ret data
                     | Some f => lift (f data)
                     end ;;
                set_result (future entry) v ;;
                scan_listeners ev data rest (removed ++ [index])
              else scan_listeners ev data rest removed
          end
  end.

(** [enumerate(l)] *)
Definition enumerate {A} (l : list A) : list (nat * A) := imap (fun i x => (i, x)) l.

(** [for index in reversed(removed): del listeners[index]] *)
Definition del_reversed {A} (removed : list nat) (l : list A) : list A :=
  foldl (fun acc index => delete index acc) l (reverse removed).

(** ** Tasks, frames and socket messages *)

(** An [asyncio.Task]; the only tasks the module creates run a heartbeat loop
    or a connection loop. *)
Inductive Task : Type := heartbeat_loop_task | connection_loop_task.

(** [msg: Union[str, bytes]] *)
Inductive frame : Type :=
| Text (data : string)
| Binary (data : list byte).

(** [aiohttp.WSMsgType] *)
Inductive WSMsgType : Type :=
| TEXT | BINARY | ERROR | CLOSED | CLOSING | CLOSE | PING | PONG | CONTINUATION.

(** [msg.type] of a closure: ERROR, CLOSED, CLOSING or CLOSE. *)
Definition closure (type : WSMsgType) : bool :=
  match type with
  | ERROR | CLOSED | CLOSING | CLOSE => true
  | _ => false
  end.

(** What [socket.receive(timeout=...)] gives: a message, or the timeout. *)
Inductive received : Type :=
| ReceiveTimeout
| Received (type : WSMsgType) (data : frame).

(** [b"\x00\x00\xff\xff"] *)
Definition ZLIB_SUFFIX : list byte := [x00; x00; xff; xff].

(** [msg[-4:]] *)
Definition last4 (msg : list byte) : list byte := drop (length msg - 4) msg.

(** [len(msg) < 4 or msg[-4:] != b"\x00\x00\xff\xff"] *)
Definition incomplete (msg : list byte) : bool :=
  (length msg <? 4)%nat || negb (bool_decide (last4 msg = ZLIB_SUFFIX)).

(** [a or b] on optional close codes: [None] and [0] are false. *)
Definition or_code (a b : option Z) : option Z :=
  match a with
  | Some c => if (c =? 0)%Z then b else Some c
  | None => b
  end.

(** [code not in (1000, 4004, 4010, 4011, 4012, 4013, 4014)] *)
Definition not_in_fatal (code : option Z) : bool :=
  match code with
  | Some c => negb (bool_decide (c ∈ [1000; 4004; 4010; 4011; 4012; 4013; 4014]%Z))
  | None => true
  end.

(** ** DiscordWebSocket *)

Module DiscordWebSocket.
Section WithEnv.
Context `{Env}.

Definition DISPATCH : Z := 0.
Definition HEARTBEAT : Z := 1.
Definition IDENTIFY : Z := 2.
Definition PRESENCE : Z := 3.
Definition VOICE_STATE : Z := 4.
Definition VOICE_PING : Z := 5.
Definition RESUME : Z := 6.
Definition RECONNECT : Z := 7.
Definition REQUEST_MEMBERS : Z := 8.
Definition INVALIDATE_SESSION : Z := 9.
Definition HELLO : Z := 10.
Definition HEARTBEAT_ACK : Z := 11.
Definition GUILD_SYNC : Z := 12.

(** The attributes of [__init__] and those [from_client] adds
    ([shard_id], [_discord_parsers], the debug switch that rebinds [send]
    and [log_receive]); [_trace] is set on READY. *)
Record obj : Type := mk {
  socket : Socket.obj;
  _dispatch_listeners : list EventListener;
  _heartbeat_task : option Task;
  _heartbeat_ack_received : option nat;
  heartbeat_interval : Q;
  _heartbeat_sent_time : Q;
  latency : Q;
  session_id : json;
  resume_url : json;
  sequence : option Z;
  _zlib : zstream;
  _buffer : list byte;
  _close_code : option Z;
  _rate_limiter : GatewayRatelimiter.obj;
  shard_id : option Z;
  _discord_parsers : gmap string (json -> outcome json);
  _trace : json;
  debug_events : bool
}.

Definition set_socket (x : Socket.obj) (o : obj) : obj :=
  mk x (_dispatch_listeners o) (_heartbeat_task o) (_heartbeat_ack_received o)
     (heartbeat_interval o) (_heartbeat_sent_time o) (latency o) (session_id o)
     (resume_url o) (sequence o) (_zlib o) (_buffer o) (_close_code o) (_rate_limiter o)
     (shard_id o) (_discord_parsers o) (_trace o) (debug_events o).
Definition set_dispatch_listeners (x : list EventListener) (o : obj) : obj :=
  mk (socket o) x (_heartbeat_task o) (_heartbeat_ack_received o) (heartbeat_interval o)
     (_heartbeat_sent_time o) (latency o) (session_id o) (resume_url o) (sequence o)
     (_zlib o) (_buffer o) (_close_code o) (_rate_limiter o) (shard_id o)
     (_discord_parsers o) (_trace o) (debug_events o).
Definition set_heartbeat_task (x : option Task) (o : obj) : obj :=
  mk (socket o) (_dispatch_listeners o) x (_heartbeat_ack_received o)
     (heartbeat_interval o) (_heartbeat_sent_time o) (latency o) (session_id o)
     (resume_url o) (sequence o) (_zlib o) (_buffer o) (_close_code o) (_rate_limiter o)
     (shard_id o) (_discord_parsers o) (_trace o) (debug_events o).
Definition set_heartbeat_ack_received (x : option nat) (o : obj) : obj :=
  mk (socket o) (_dispatch_listeners o) (_heartbeat_task o) x (heartbeat_interval o)
     (_heartbeat_sent_time o) (latency o) (session_id o) (resume_url o) (sequence o)
     (_zlib o) (_buffer o) (_close_code o) (_rate_limiter o) (shard_id o)
     (_discord_parsers o) (_trace o) (debug_events o).
Definition set_heartbeat_interval (x : Q) (o : obj) : obj :=
  mk (socket o) (_dispatch_listeners o) (_heartbeat_task o) (_heartbeat_ack_received o)
     x (_heartbeat_sent_time o) (latency o) (session_id o) (resume_url o) (sequence o)
     (_zlib o) (_buffer o) (_close_code o) (_rate_limiter o) (shard_id o)
     (_discord_parsers o) (_trace o) (debug_events o).
Definition set_heartbeat_sent_time (x : Q) (o : obj) : obj :=
  mk (socket o) (_dispatch_listeners o) (_heartbeat_task o) (_heartbeat_ack_received o)
     (heartbeat_interval o) x (latency o) (session_id o) (resume_url o) (sequence o)
     (_zlib o) (_buffer o) (_close_code o) (_rate_limiter o) (shard_id o)
     (_discord_parsers o) (_trace o) (debug_events o).
Definition set_latency (x : Q) (o : obj) : obj :=
  mk (socket o) (_dispatch_listeners o) (_heartbeat_task o) (_heartbeat_ack_received o)
     (heartbeat_interval o) (_heartbeat_sent_time o) x (session_id o) (resume_url o)
     (sequence o) (_zlib o) (_buffer o) (_close_code o) (_rate_limiter o) (shard_id o)
     (_discord_parsers o) (_trace o) (debug_events o).
Definition set_session_id (x : json) (o : obj) : obj :=
  mk (socket o) (_dispatch_listeners o) (_heartbeat_task o) (_heartbeat_ack_received o)
     (heartbeat_interval o) (_heartbeat_sent_time o) (latency o) x (resume_url o)
     (sequence o) (_zlib o) (_buffer o) (_close_code o) (_rate_limiter o) (shard_id o)
     (_discord_parsers o) (_trace o) (debug_events o).
Definition set_resume_url (x : json) (o : obj) : obj :=
  mk (socket o) (_dispatch_listeners o) (_heartbeat_task o) (_heartbeat_ack_received o)
     (heartbeat_interval o) (_heartbeat_sent_time o) (latency o) (session_id o) x
     (sequence o) (_zlib o) (_buffer o) (_close_code o) (_rate_limiter o) (shard_id o)
     (_discord_parsers o) (_trace o) (debug_events o).
Definition set_sequence (x : option Z) (o : obj) : obj :=
  mk (socket o) (_dispatch_listeners o) (_heartbeat_task o) (_heartbeat_ack_received o)
     (heartbeat_interval o) (_heartbeat_sent_time o) (latency o) (session_id o)
     (resume_url o) x (_zlib o) (_buffer o) (_close_code o) (_rate_limiter o) (shard_id
     o) (_discord_parsers o) (_trace o) (debug_events o).
Definition set_zlib (x : zstream) (o : obj) : obj :=
  mk (socket o) (_dispatch_listeners o) (_heartbeat_task o) (_heartbeat_ack_received o)
     (heartbeat_interval o) (_heartbeat_sent_time o) (latency o) (session_id o)
     (resume_url o) (sequence o) x (_buffer o) (_close_code o) (_rate_limiter o)
     (shard_id o) (_discord_parsers o) (_trace o) (debug_events o).
Definition set_buffer (x : list byte) (o : obj) : obj :=
  mk (socket o) (_dispatch_listeners o) (_heartbeat_task o) (_heartbeat_ack_received o)
     (heartbeat_interval o) (_heartbeat_sent_time o) (latency o) (session_id o)
     (resume_url o) (sequence o) (_zlib o) x (_close_code o) (_rate_limiter o) (shard_id
     o) (_discord_parsers o) (_trace o) (debug_events o).
Definition set_close_code (x : option Z) (o : obj) : obj :=
  mk (socket o) (_dispatch_listeners o) (_heartbeat_task o) (_heartbeat_ack_received o)
     (heartbeat_interval o) (_heartbeat_sent_time o) (latency o) (session_id o)
     (resume_url o) (sequence o) (_zlib o) (_buffer o) x (_rate_limiter o) (shard_id o)
     (_discord_parsers o) (_trace o) (debug_events o).
Definition set_rate_limiter (x : GatewayRatelimiter.obj) (o : obj) : obj :=
  mk (socket o) (_dispatch_listeners o) (_heartbeat_task o) (_heartbeat_ack_received o)
     (heartbeat_interval o) (_heartbeat_sent_time o) (latency o) (session_id o)
     (resume_url o) (sequence o) (_zlib o) (_buffer o) (_close_code o) x (shard_id o)
     (_discord_parsers o) (_trace o) (debug_events o).
Definition set_shard_id (x : option Z) (o : obj) : obj :=
  mk (socket o) (_dispatch_listeners o) (_heartbeat_task o) (_heartbeat_ack_received o)
     (heartbeat_interval o) (_heartbeat_sent_time o) (latency o) (session_id o)
     (resume_url o) (sequence o) (_zlib o) (_buffer o) (_close_code o) (_rate_limiter o)
     x (_discord_parsers o) (_trace o) (debug_events o).
Definition set_discord_parsers (x : gmap string (json -> outcome json)) (o : obj) : obj :=
  mk (socket o) (_dispatch_listeners o) (_heartbeat_task o) (_heartbeat_ack_received o)
     (heartbeat_interval o) (_heartbeat_sent_time o) (latency o) (session_id o)
     (resume_url o) (sequence o) (_zlib o) (_buffer o) (_close_code o) (_rate_limiter o)
     (shard_id o) x (_trace o) (debug_events o).
Definition set_trace (x : json) (o : obj) : obj :=
  mk (socket o) (_dispatch_listeners o) (_heartbeat_task o) (_heartbeat_ack_received o)
     (heartbeat_interval o) (_heartbeat_sent_time o) (latency o) (session_id o)
     (resume_url o) (sequence o) (_zlib o) (_buffer o) (_close_code o) (_rate_limiter o)
     (shard_id o) (_discord_parsers o) x (debug_events o).
Definition set_debug_events (x : bool) (o : obj) : obj :=
  mk (socket o) (_dispatch_listeners o) (_heartbeat_task o) (_heartbeat_ack_received o)
     (heartbeat_interval o) (_heartbeat_sent_time o) (latency o) (session_id o)
     (resume_url o) (sequence o) (_zlib o) (_buffer o) (_close_code o) (_rate_limiter o)
     (shard_id o) (_discord_parsers o) (_trace o) x.

Definition init (socket : Socket.obj) : obj :=
  mk socket [] None None 0 0 0 JNull JNull None decompressobj [] None
     GatewayRatelimiter.default None ∅ JNull false.

Definition wait_for (ev : string) (pred : json -> outcome bool)
    (res : option (json -> outcome json)) : M obj nat :=
  f <- create_future ;;
  modify (fun o => set_dispatch_listeners (_dispatch_listeners o ++ [mkListener pred ev res f]) o) ;;
  ret f.

Definition _can_handle_close : M obj bool :=
  o <- get ;;
  let code := or_code (_close_code o) (Socket.close_code (socket o)) in
  ret (not_in_fatal code).

Definition is_RuntimeError (e : exn) : bool :=
  match e with RuntimeError => true | _ => false end.

(** [except RuntimeError as exc: if not self._can_handle_close(): raise ConnectionClosed(...)] *)
Definition on_write_error (exc : exn) : M obj unit :=
  b <- _can_handle_close ;;
  if negb b then
    o <- get ;;
    raise (ConnectionClosed (shard_id o) None)
  else ret tt.

Definition debug_send (data : string) : M obj unit :=
  zoom _rate_limiter set_rate_limiter GatewayRatelimiter.block ;;
  dispatch_call "socket_raw_send" (JStr data) ;;
  zoom socket set_socket (Socket.send_str data).

Definition send (data : string) : M obj unit :=
  zoom _rate_limiter set_rate_limiter GatewayRatelimiter.block ;;
  zoom socket set_socket (Socket.send_str data).

(** [self.send], which [from_client] rebinds to [debug_send] for debug events. *)
Definition self_send (data : string) : M obj unit :=
  o <- get ;;
  if debug_events o then debug_send data else send data.

Definition send_as_json (data : json) : M obj unit :=
  catch (self_send (to_json data)) is_RuntimeError on_write_error.

(** "This bypasses the rate limit handling code since it has a higher priority" *)
Definition send_heartbeat (data : json) : M obj unit :=
  catch (zoom socket set_socket (Socket.send_str (to_json data)))
        is_RuntimeError on_write_error.

Definition heartbeat : M obj unit :=
  o <- get ;;
  send_heartbeat (JDict [("op", JInt HEARTBEAT); ("d", json_of_int (sequence o))]) ;;
  tm <- perf_counter ;;
  modify (set_heartbeat_sent_time tm).

(** [if self._heartbeat_task: self._heartbeat_task.cancel(); self._heartbeat_task = None] *)
Definition cancel_heartbeat_task : M obj unit :=
  modify (set_heartbeat_task None).

Definition close (code : Z) : M obj unit :=
  cancel_heartbeat_task ;;
  modify (set_close_code (Some code)) ;;
  zoom socket set_socket (Socket.close (Some code)).

(** One turn of the [while] loop of [_heartbeat_loop], up to the point where
    the task suspends on the new future. *)
Definition _heartbeat_loop_turn : M obj unit :=
  heartbeat ;;
  f <- create_future ;;
  modify (set_heartbeat_ack_received (Some f)).

(** The start of [received_message], [if isinstance(msg, bytes): ...]:
    [None] is the early [return], [Some msg] the text the rest of the method
    goes on with. *)
Definition received_message_bytes (msg : list byte) : M obj (option string) :=
  modify (fun o => set_buffer (_buffer o ++ msg) o) ;;
  if incomplete msg then ret None
  else
    o <- get ;;
    let '(raw, z) := decompress (_zlib o) (_buffer o) in
    modify (set_zlib z) ;;
    raw <- lift raw ;;
    text <- lift (decode_utf8 raw) ;;
    modify (set_buffer []) ;;
    ret (Some text).

(** [self.log_receive(msg)] *)
Definition log_receive (msg : string) : M obj unit :=
  o <- get ;;
  when debug_events o then dispatch_call "socket_raw_receive" (JStr msg).

(** The READY and RESUMED branches; they give back [data] as they leave it. *)
Definition on_ready (message : Payload.obj) (data : json) : M obj json :=
  trace <- lift (dict_get data "_trace" (JList [])) ;;
  modify (set_trace trace) ;;
  modify (set_sequence (Payload.s message)) ;;
  sid <- lift (subscript data "session_id") ;;
  modify (set_session_id sid) ;;
  url <- lift (subscript data "resume_gateway_url") ;;
  modify (set_resume_url url) ;;
  o <- get ;;
  data <- lift (dict_set data "__shard_id__" (json_of_int (shard_id o))) ;;
  lift (join_check trace) ;;
  ret data.

Definition on_resumed (data : json) : M obj json :=
  trace <- lift (dict_get data "_trace" (JList [])) ;;
  modify (set_trace trace) ;;
  o <- get ;;
  data <- lift (dict_set data "__shard_id__" (json_of_int (shard_id o))) ;;
  lift (join_check trace) ;;
  ret data.

(** [try: func = self._discord_parsers[event] ... else: func(data)]; the
    parser is handed the same dict the listeners get afterwards, so it gives
    back the dict as it leaves it. *)
Definition run_parser (ev : option string) (data : json) : M obj json :=
  o <- get ;;
  match ev with
  | Some name =>
      match _discord_parsers o !! name with
      | Some func => lift (func data)
      | None => ret data
      end
  | None => ret data
  end.

(** "remove the dispatched listeners" *)
Definition dispatch_listeners (ev : option string) (data : json) : M obj unit :=
  o <- get ;;
  removed <- scan_listeners ev data (enumerate (_dispatch_listeners o)) [] ;;
  modify (fun o => set_dispatch_listeners (del_reversed removed (_dispatch_listeners o)) o).

(** [received_message] from [self.log_receive(msg)] on. *)
Definition received_message_text (msg : string) : M obj unit :=
  log_receive msg ;;
  message <- lift (from_json msg) ;;
  let ev := Payload.t message in
  (when truthy (match ev with Some e => JStr e | None => JNull end)
   then dispatch_call "socket_event_type" (match ev with Some e => JStr e | None => JNull end)) ;;
  let op := Payload.op message in
  let data := Payload.d message in
  let seq := Payload.s message in
  (when bool_decide (is_Some seq) then modify (set_sequence seq)) ;;
  if negb (op =? DISPATCH)%Z then
    if (op =? RECONNECT)%Z then
      close 4000 ;;
      o <- get ;;
      raise (ReconnectWebSocket (shard_id o) true)
    else
      o <- get ;;
      match (op =? HEARTBEAT_ACK)%Z, _heartbeat_ack_received o with
      | true, Some ack =>
          set_result ack JNull ;;
          ack_time <- perf_counter ;;
          modify (fun o => set_latency (ack_time - _heartbeat_sent_time o)%Q o)
      | _, _ =>
          if (op =? HEARTBEAT)%Z then heartbeat
          else if (op =? HELLO)%Z then
            interval <- lift (subscript data "heartbeat_interval") ;;
            interval <- lift (match interval with
                              | JInt z => float_of_int z
                              | JBool b => Return (inject_Z (Z.b2z b))
                              | _ => Raise TypeError
                              end) ;;
            modify (set_heartbeat_interval (interval / 1000)%Q) ;;
            heartbeat ;;
            modify (set_heartbeat_task (Some heartbeat_loop_task))
          else if (op =? INVALIDATE_SESSION)%Z then
            match data with
            | JBool true =>
                close 4000 ;;
                o <- get ;;
                raise (ReconnectWebSocket (shard_id o) true)
            | _ =>
                modify (set_sequence None) ;;
                modify (set_session_id JNull) ;;
                close 1000 ;;
                o <- get ;;
                raise (ReconnectWebSocket (shard_id o) false)
            end
          else ret tt
      end
  else
    data <- (if bool_decide (ev = Some "READY") then on_ready message data
             else if bool_decide (ev = Some "RESUMED") then on_resumed data
             else ret data) ;;
    data <- run_parser ev data ;;
    dispatch_listeners ev data.

Definition received_message (msg : frame) : M obj unit :=
  match msg with
  | Binary b =>
      r <- received_message_bytes b ;;
      match r with
      | None => ret tt
      | Some text => received_message_text text
      end
  | Text text => received_message_text text
  end.

Definition closes_poll (e : exn) : bool :=
  match e with TimeoutError | WebSocketClosure => true | _ => false end.

(** [poll_event]; [msg] is what [self.socket.receive] gave. *)
Definition poll_event (msg : received) : M obj unit :=
  catch
    (match msg with
     | ReceiveTimeout => raise TimeoutError
     | Received type data =>
         match type with
         | TEXT | BINARY => received_message data
         | ERROR => raise WebSocketClosure
         | CLOSED | CLOSING | CLOSE => raise WebSocketClosure
         | _ => ret tt
         end
     end)
    closes_poll
    (fun e =>
       cancel_heartbeat_task ;;
       o <- get ;;
       match e with
       | TimeoutError => raise (ReconnectWebSocket (shard_id o) true)
       | _ =>
           let code := or_code (_close_code o) (Socket.close_code (socket o)) in
           b <- _can_handle_close ;;
           if b then raise (ReconnectWebSocket (shard_id o) true)
           else raise (ConnectionClosed (shard_id o) code)
       end).

End WithEnv.
End DiscordWebSocket.

(** ** Shard *)

Module Shard.
Section WithEnv.
Context `{Env}.

Definition DISPATCH : Z := 0.
Definition HEARTBEAT : Z := 1.
Definition PRESENCE : Z := 2.
Definition IDENTIFY : Z := 2.
Definition RECONNECT : Z := 7.
Definition REQUEST_MEMBERS : Z := 8.
Definition INVALID_SESSION : Z := 9.
Definition HELLO : Z := 10.
Definition HEARTBEAT_ACK : Z := 11.

(** The slots of the class but [_http] (the REST client) and [_dispatch]
    (the calls to it are logged in the world). *)
Record obj : Type := mk {
  _socket : option Socket.obj;
  _token : string;
  dispatch_listeners : list EventListener;
  discord_parsers : gmap string (json -> outcome json);
  _connection_task : option Task;
  _heartbeat_task : option Task;
  _heartbeat_ack_received : option nat;
  heartbeat_interval : Q;
  _heartbeat_sent_time : Q;
  latency : Q;
  intents : Z;
  session_id : json;
  resume_url : json;
  sequence : option Z;
  shard_id : Z;
  shard_count : Z;
  debug : bool;
  activity : json;
  status : json;
  _zlib : zstream;
  _buffer : list byte;
  _rate_limiter : GatewayRatelimiter.obj
}.

Definition set_socket (x : option Socket.obj) (o : obj) : obj :=
  mk x (_token o) (dispatch_listeners o) (discord_parsers o) (_connection_task o)
     (_heartbeat_task o) (_heartbeat_ack_received o) (heartbeat_interval o)
     (_heartbeat_sent_time o) (latency o) (intents o) (session_id o) (resume_url o)
     (sequence o) (shard_id o) (shard_count o) (debug o) (activity o) (status o) (_zlib
     o) (_buffer o) (_rate_limiter o).
Definition set_token (x : string) (o : obj) : obj :=
  mk (_socket o) x (dispatch_listeners o) (discord_parsers o) (_connection_task o)
     (_heartbeat_task o) (_heartbeat_ack_received o) (heartbeat_interval o)
     (_heartbeat_sent_time o) (latency o) (intents o) (session_id o) (resume_url o)
     (sequence o) (shard_id o) (shard_count o) (debug o) (activity o) (status o) (_zlib
     o) (_buffer o) (_rate_limiter o).
Definition set_dispatch_listeners (x : list EventListener) (o : obj) : obj :=
  mk (_socket o) (_token o) x (discord_parsers o) (_connection_task o) (_heartbeat_task
     o) (_heartbeat_ack_received o) (heartbeat_interval o) (_heartbeat_sent_time o)
     (latency o) (intents o) (session_id o) (resume_url o) (sequence o) (shard_id o)
     (shard_count o) (debug o) (activity o) (status o) (_zlib o) (_buffer o)
     (_rate_limiter o).
Definition set_discord_parsers (x : gmap string (json -> outcome json)) (o : obj) : obj :=
  mk (_socket o) (_token o) (dispatch_listeners o) x (_connection_task o)
     (_heartbeat_task o) (_heartbeat_ack_received o) (heartbeat_interval o)
     (_heartbeat_sent_time o) (latency o) (intents o) (session_id o) (resume_url o)
     (sequence o) (shard_id o) (shard_count o) (debug o) (activity o) (status o) (_zlib
     o) (_buffer o) (_rate_limiter o).
Definition set_connection_task (x : option Task) (o : obj) : obj :=
  mk (_socket o) (_token o) (dispatch_listeners o) (discord_parsers o) x
     (_heartbeat_task o) (_heartbeat_ack_received o) (heartbeat_interval o)
     (_heartbeat_sent_time o) (latency o) (intents o) (session_id o) (resume_url o)
     (sequence o) (shard_id o) (shard_count o) (debug o) (activity o) (status o) (_zlib
     o) (_buffer o) (_rate_limiter o).
Definition set_heartbeat_task (x : option Task) (o : obj) : obj :=
  mk (_socket o) (_token o) (dispatch_listeners o) (discord_parsers o) (_connection_task
     o) x (_heartbeat_ack_received o) (heartbeat_interval o) (_heartbeat_sent_time o)
     (latency o) (intents o) (session_id o) (resume_url o) (sequence o) (shard_id o)
     (shard_count o) (debug o) (activity o) (status o) (_zlib o) (_buffer o)
     (_rate_limiter o).
Definition set_heartbeat_ack_received (x : option nat) (o : obj) : obj :=
  mk (_socket o) (_token o) (dispatch_listeners o) (discord_parsers o) (_connection_task
     o) (_heartbeat_task o) x (heartbeat_interval o) (_heartbeat_sent_time o) (latency
     o) (intents o) (session_id o) (resume_url o) (sequence o) (shard_id o) (shard_count
     o) (debug o) (activity o) (status o) (_zlib o) (_buffer o) (_rate_limiter o).
Definition set_heartbeat_interval (x : Q) (o : obj) : obj :=
  mk (_socket o) (_token o) (dispatch_listeners o) (discord_parsers o) (_connection_task
     o) (_heartbeat_task o) (_heartbeat_ack_received o) x (_heartbeat_sent_time o)
     (latency o) (intents o) (session_id o) (resume_url o) (sequence o) (shard_id o)
     (shard_count o) (debug o) (activity o) (status o) (_zlib o) (_buffer o)
     (_rate_limiter o).
Definition set_heartbeat_sent_time (x : Q) (o : obj) : obj :=
  mk (_socket o) (_token o) (dispatch_listeners o) (discord_parsers o) (_connection_task
     o) (_heartbeat_task o) (_heartbeat_ack_received o) (heartbeat_interval o) x
     (latency o) (intents o) (session_id o) (resume_url o) (sequence o) (shard_id o)
     (shard_count o) (debug o) (activity o) (status o) (_zlib o) (_buffer o)
     (_rate_limiter o).
Definition set_latency (x : Q) (o : obj) : obj :=
  mk (_socket o) (_token o) (dispatch_listeners o) (discord_parsers o) (_connection_task
     o) (_heartbeat_task o) (_heartbeat_ack_received o) (heartbeat_interval o)
     (_heartbeat_sent_time o) x (intents o) (session_id o) (resume_url o) (sequence o)
     (shard_id o) (shard_count o) (debug o) (activity o) (status o) (_zlib o) (_buffer
     o) (_rate_limiter o).
Definition set_intents (x : Z) (o : obj) : obj :=
  mk (_socket o) (_token o) (dispatch_listeners o) (discord_parsers o) (_connection_task
     o) (_heartbeat_task o) (_heartbeat_ack_received o) (heartbeat_interval o)
     (_heartbeat_sent_time o) (latency o) x (session_id o) (resume_url o) (sequence o)
     (shard_id o) (shard_count o) (debug o) (activity o) (status o) (_zlib o) (_buffer
     o) (_rate_limiter o).
Definition set_session_id (x : json) (o : obj) : obj :=
  mk (_socket o) (_token o) (dispatch_listeners o) (discord_parsers o) (_connection_task
     o) (_heartbeat_task o) (_heartbeat_ack_received o) (heartbeat_interval o)
     (_heartbeat_sent_time o) (latency o) (intents o) x (resume_url o) (sequence o)
     (shard_id o) (shard_count o) (debug o) (activity o) (status o) (_zlib o) (_buffer
     o) (_rate_limiter o).
Definition set_resume_url (x : json) (o : obj) : obj :=
  mk (_socket o) (_token o) (dispatch_listeners o) (discord_parsers o) (_connection_task
     o) (_heartbeat_task o) (_heartbeat_ack_received o) (heartbeat_interval o)
     (_heartbeat_sent_time o) (latency o) (intents o) (session_id o) x (sequence o)
     (shard_id o) (shard_count o) (debug o) (activity o) (status o) (_zlib o) (_buffer
     o) (_rate_limiter o).
Definition set_sequence (x : option Z) (o : obj) : obj :=
  mk (_socket o) (_token o) (dispatch_listeners o) (discord_parsers o) (_connection_task
     o) (_heartbeat_task o) (_heartbeat_ack_received o) (heartbeat_interval o)
     (_heartbeat_sent_time o) (latency o) (intents o) (session_id o) (resume_url o) x
     (shard_id o) (shard_count o) (debug o) (activity o) (status o) (_zlib o) (_buffer
     o) (_rate_limiter o).
Definition set_shard_id (x : Z) (o : obj) : obj :=
  mk (_socket o) (_token o) (dispatch_listeners o) (discord_parsers o) (_connection_task
     o) (_heartbeat_task o) (_heartbeat_ack_received o) (heartbeat_interval o)
     (_heartbeat_sent_time o) (latency o) (intents o) (session_id o) (resume_url o)
     (sequence o) x (shard_count o) (debug o) (activity o) (status o) (_zlib o) (_buffer
     o) (_rate_limiter o).
Definition set_shard_count (x : Z) (o : obj) : obj :=
  mk (_socket o) (_token o) (dispatch_listeners o) (discord_parsers o) (_connection_task
     o) (_heartbeat_task o) (_heartbeat_ack_received o) (heartbeat_interval o)
     (_heartbeat_sent_time o) (latency o) (intents o) (session_id o) (resume_url o)
     (sequence o) (shard_id o) x (debug o) (activity o) (status o) (_zlib o) (_buffer o)
     (_rate_limiter o).
Definition set_debug (x : bool) (o : obj) : obj :=
  mk (_socket o) (_token o) (dispatch_listeners o) (discord_parsers o) (_connection_task
     o) (_heartbeat_task o) (_heartbeat_ack_received o) (heartbeat_interval o)
     (_heartbeat_sent_time o) (latency o) (intents o) (session_id o) (resume_url o)
     (sequence o) (shard_id o) (shard_count o) x (activity o) (status o) (_zlib o)
     (_buffer o) (_rate_limiter o).
Definition set_activity (x : json) (o : obj) : obj :=
  mk (_socket o) (_token o) (dispatch_listeners o) (discord_parsers o) (_connection_task
     o) (_heartbeat_task o) (_heartbeat_ack_received o) (heartbeat_interval o)
     (_heartbeat_sent_time o) (latency o) (intents o) (session_id o) (resume_url o)
     (sequence o) (shard_id o) (shard_count o) (debug o) x (status o) (_zlib o) (_buffer
     o) (_rate_limiter o).
Definition set_status (x : json) (o : obj) : obj :=
  mk (_socket o) (_token o) (dispatch_listeners o) (discord_parsers o) (_connection_task
     o) (_heartbeat_task o) (_heartbeat_ack_received o) (heartbeat_interval o)
     (_heartbeat_sent_time o) (latency o) (intents o) (session_id o) (resume_url o)
     (sequence o) (shard_id o) (shard_count o) (debug o) (activity o) x (_zlib o)
     (_buffer o) (_rate_limiter o).
Definition set_zlib (x : zstream) (o : obj) : obj :=
  mk (_socket o) (_token o) (dispatch_listeners o) (discord_parsers o) (_connection_task
     o) (_heartbeat_task o) (_heartbeat_ack_received o) (heartbeat_interval o)
     (_heartbeat_sent_time o) (latency o) (intents o) (session_id o) (resume_url o)
     (sequence o) (shard_id o) (shard_count o) (debug o) (activity o) (status o) x
     (_buffer o) (_rate_limiter o).
Definition set_buffer (x : list byte) (o : obj) : obj :=
  mk (_socket o) (_token o) (dispatch_listeners o) (discord_parsers o) (_connection_task
     o) (_heartbeat_task o) (_heartbeat_ack_received o) (heartbeat_interval o)
     (_heartbeat_sent_time o) (latency o) (intents o) (session_id o) (resume_url o)
     (sequence o) (shard_id o) (shard_count o) (debug o) (activity o) (status o) (_zlib
     o) x (_rate_limiter o).
Definition set_rate_limiter (x : GatewayRatelimiter.obj) (o : obj) : obj :=
  mk (_socket o) (_token o) (dispatch_listeners o) (discord_parsers o) (_connection_task
     o) (_heartbeat_task o) (_heartbeat_ack_received o) (heartbeat_interval o)
     (_heartbeat_sent_time o) (latency o) (intents o) (session_id o) (resume_url o)
     (sequence o) (shard_id o) (shard_count o) (debug o) (activity o) (status o) (_zlib
     o) (_buffer o) x.

Definition init (token : string) (intents shard_id shard_count : Z) (debug : bool) : obj :=
  mk None token [] ∅ None None None 0 0 0 intents JNull JNull None shard_id shard_count
     debug JNull JNull decompressobj [] GatewayRatelimiter.default.

(** A method of the socket, on [self._socket]; the callers have checked that
    it is not [None]. *)
Definition on_socket {A} (m : M Socket.obj A) : M obj A :=
  o <- get ;;
  match _socket o with
  | None => raise AttributeError
  | Some sk => zoom (fun _ => sk) (fun sk' => set_socket (Some sk')) m
  end.

Definition send (data : string) : M obj unit :=
  o <- get ;;
  if bool_decide (_socket o = None) then raise AttributeError
  else
    zoom _rate_limiter set_rate_limiter GatewayRatelimiter.block ;;
    (when debug o then dispatch_call "socket_raw_send" (JStr data)) ;;
    on_socket (Socket.send_str data).

(** [msg.type] is BINARY for [Binary] data and TEXT for [Text] data. *)
Definition _process_raw_data (msg : frame) : M obj string :=
  match msg with
  | Binary data =>
      modify (fun o => set_buffer (_buffer o ++ data) o) ;;
      if incomplete data then raise ValueError
      else
        o <- get ;;
        let '(raw, z) := decompress (_zlib o) (_buffer o) in
        modify (set_zlib z) ;;
        raw <- lift raw ;;
        text <- lift (decode_utf8 raw) ;;
        modify (set_buffer []) ;;
        ret text
  | Text data => ret data
  end.

Definition disconnect (keep_session : bool) : M obj unit :=
  o <- get ;;
  if bool_decide (_socket o = None) then ret tt
  else
    modify (set_connection_task None) ;;
    modify (set_heartbeat_task None) ;;
    match _heartbeat_ack_received o with
    | Some ack => cancel ack ;; modify (set_heartbeat_ack_received None)
    | None => ret tt
    end ;;
    (if keep_session then on_socket (Socket.close (Some 999%Z))
     else
       on_socket (Socket.close None) ;;
       modify (set_resume_url JNull) ;;
       modify (set_session_id JNull) ;;
       modify (set_sequence None)) ;;
    modify (set_socket None).

Definition heartbeat : M obj unit :=
  o <- get ;;
  send (to_json (JDict [("op", JInt 1); ("d", json_of_int (sequence o))])) ;;
  tm <- perf_counter ;;
  modify (set_heartbeat_sent_time tm).

Definition identify : M obj unit :=
  o <- get ;;
  let base :=
    [("token", JStr (_token o));
     ("properties", JDict [("os", JStr sys_platform);
                           ("browser", JStr "nextcord");
                           ("device", JStr "nextcord")]);
     ("compress", JBool true);
     ("large_threshold", JInt 250);
     ("intents", JInt (intents o));
     ("shard", JList [JInt (shard_id o); JInt (shard_count o)])] in
  let presence :=
    if negb (is_null (activity o)) || negb (is_null (status o))
    then [("presence", JDict [("status", status o); ("game", activity o);
                              ("since", JInt 0); ("afk", JBool false)])]
    else [] in
  send (to_json (JDict [("op", JInt 2); ("d", JDict (base ++ presence))])).

Definition resume : M obj unit :=
  o <- get ;;
  send (to_json (JDict [("op", JInt 6);
                        ("d", JDict [("seq", json_of_int (sequence o));
                                     ("session_id", session_id o);
                                     ("token", JStr (_token o))])])).

(** "remove the dispatched listeners" *)
Definition remove_dispatched (ev : option string) (data : json) : M obj unit :=
  o <- get ;;
  removed <- scan_listeners ev data (enumerate (dispatch_listeners o)) [] ;;
  modify (fun o => set_dispatch_listeners (del_reversed removed (dispatch_listeners o)) o).

Definition dispatch_events (data : json) (ev : option string) : M obj unit :=
  data <- (if bool_decide (ev = Some "READY") then
             sid <- lift (subscript data "session_id") ;;
             modify (set_session_id sid) ;;
             url <- lift (subscript data "resume_gateway_url") ;;
             modify (set_resume_url url) ;;
             o <- get ;;
             lift (dict_set data "__shard_id__" (JInt (shard_id o)))
           else if bool_decide (ev = Some "RESUMED") then
             o <- get ;;
             lift (dict_set data "__shard_id__" (JInt (shard_id o)))
           else ret data) ;;
  o <- get ;;
  data <- match ev with
          | Some name =>
              match discord_parsers o !! name with
              | Some func => lift (func data)
              | None => ret data
              end
          | None => ret data
          end ;;
  remove_dispatched ev data.

(** One turn of the [while] loop of [_heartbeat_loop], up to the point where
    the task suspends on the new future. *)
Definition _heartbeat_loop_turn : M obj unit :=
  heartbeat ;;
  f <- create_future ;;
  modify (set_heartbeat_ack_received (Some f)).

(** [float(x)] *)
Definition to_float (x : json) : outcome Q :=
  match x with
  | JInt z => float_of_int z
  | JBool b => Return (inject_Z (Z.b2z b))
  | JStr text => float_of_str text
  | _ => Raise TypeError
  end.

Definition _process_payload (payload : Payload.obj) : M obj unit :=
  let seq := Payload.s payload in
  let op := Payload.op payload in
  (when bool_decide (is_Some seq) then modify (set_sequence seq)) ;;
  (when (op =? DISPATCH)%Z then
     dispatch_events (Payload.d payload) (Payload.t payload)) ;;
  (when (op =? RECONNECT)%Z then disconnect false) ;;
  o <- get ;;
  match (op =? HEARTBEAT_ACK)%Z, _heartbeat_ack_received o with
  | true, Some ack =>
      set_result ack JNull ;;
      ack_time <- perf_counter ;;
      modify (fun o => set_latency (ack_time - _heartbeat_sent_time o)%Q o)
  | _, _ => ret tt
  end ;;
  (when (op =? HEARTBEAT)%Z then heartbeat) ;;
  (when (op =? HELLO)%Z then
     (interval <- lift (subscript (Payload.d payload) "heartbeat_interval") ;;
      interval <- lift (to_float interval) ;;
      modify (set_heartbeat_interval (interval / 1000)%Q) ;;
      heartbeat ;;
      modify (set_heartbeat_task (Some heartbeat_loop_task)) ;;
      o <- get ;;
      if negb (is_null (session_id o)) then resume else identify)) ;;
  (when (op =? INVALID_SESSION)%Z then disconnect (truthy (Payload.d payload))).

(** The body of [async for msg in self._socket] in [_connection_loop]. *)
Definition _connection_loop_turn (type : WSMsgType) (data : frame) : M obj unit :=
  match type with
  | TEXT | BINARY =>
      text <- _process_raw_data data ;;
      payload <- lift (from_json text) ;;
      _process_payload payload
  | ERROR => disconnect false
  | CLOSED | CLOSING | CLOSE => disconnect false
  | _ => ret tt
  end.

End WithEnv.
End Shard.

(** ** struct and bytes *)

Definition byte_of_Z (z : Z) : byte :=
  default x00 (Byte.of_N (Z.to_N (z mod 256))).
Definition Z_of_byte (b : byte) : Z := Z.of_N (Byte.to_N b).

(** The [size] bytes of [v], most significant first. *)
Fixpoint be_bytes (size : nat) (v : Z) : list byte :=
  match size with
  | O => []
  | S k => byte_of_Z (v / 256 ^ Z.of_nat k) :: be_bytes k v
  end.

Definition be_value (bs : list byte) : Z :=
  fold_left (fun acc b => acc * 256 + Z_of_byte b)%Z bs 0%Z.

(** An [int] argument of [struct.pack]. *)
Definition as_int (v : json) : option Z :=
  match v with
  | JInt z => Some z
  | JBool b => Some (Z.b2z b)
  | _ => None
  end.

(** [struct.pack_into(fmt, buffer, offset, v)] for the big-endian unsigned
    formats [">H"] ([size] 2) and [">I"] ([size] 4). *)
Definition pack_into (size : nat) (buffer : list byte) (offset : nat) (v : json)
  : outcome (list byte) :=
  match as_int v with
  | None => Raise StructError
  | Some z =>
      if ((z <? 0) || (256 ^ Z.of_nat size <=? z))%Z then Raise StructError
      else if (length buffer <? offset + size)%nat then Raise StructError
      else Return (take offset buffer ++ be_bytes size z ++ drop (offset + size) buffer)
  end.

(** [struct.unpack_from(fmt, buffer, offset)[0]]; a negative offset counts
    from the end. *)
Definition unpack_from (size : nat) (buffer : list byte) (offset : Z) : outcome Z :=
  let len := Z.of_nat (length buffer) in
  let off := (if offset <? 0 then offset + len else offset)%Z in
  if ((off <? 0) || (len <? off + Z.of_nat size))%Z then Raise StructError
  else Return (be_value (take size (drop (Z.to_nat off) buffer))).

(** [buffer.index(x, start)] *)
Definition bytes_index (x : byte) (buffer : list byte) (start : nat) : outcome nat :=
  match list_find (fun b => b = x) (drop start buffer) with
  | Some (i, _) => Return (start + i)%nat
  | None => Raise ValueError
  end.

(** [buffer[start:stop]] for [0 <= start], [0 <= stop] *)
Definition slice (start stop : nat) (buffer : list byte) : list byte :=
  take (stop - start) (drop start buffer).

(** [bs.decode("ascii")] *)
Definition decode_ascii (bs : list byte) : outcome string :=
  if forallb (fun b => (Byte.to_N b <? 128)%N) bs
  then Return (string_of_list_byte bs)
  else Raise UnicodeDecodeError.

(** [iter(x)] on a decoded JSON value *)
Definition iter_json (x : json) : outcome (list json) :=
  match x with
  | JList l => Return l
  | JDict kv => Return (map (fun p => JStr p.1) kv)
  | JStr text => Return (map (fun c => JStr (String c EmptyString)) (list_ascii_of_string text))
  | _ => Raise TypeError
  end.

(** [int(q)]: truncation towards zero *)
Definition int_of_Q (q : Q) : Z := (Qnum q ÷ Z.pos (Qden q))%Z.

(** A Python float that may be [float("inf")]. *)
Inductive pyfloat : Type :=
| Finite (q : Q)
| Inf.

(** ** VoiceClient

    The attributes of the voice client ([self._connection], class
    [VoiceClient] of voice_client.py) that the voice websocket reads and
    writes; [udp_sent] logs [state.socket.sendto(packet, (ip, port))]. *)
Module VoiceClient.

Record obj : Type := mk {
  ssrc : json;
  voice_port : json;
  endpoint_ip : json;
  ip : string;
  port : Z;
  mode : json;
  secret_key : json;
  supported_modes : list string;
  udp_sent : list (list byte * (json * json))
}.

Definition set_ssrc (x : json) (o : obj) : obj :=
  mk x (voice_port o) (endpoint_ip o) (ip o) (port o) (mode o) (secret_key o)
     (supported_modes o) (udp_sent o).
Definition set_voice_port (x : json) (o : obj) : obj :=
  mk (ssrc o) x (endpoint_ip o) (ip o) (port o) (mode o) (secret_key o) (supported_modes
     o) (udp_sent o).
Definition set_endpoint_ip (x : json) (o : obj) : obj :=
  mk (ssrc o) (voice_port o) x (ip o) (port o) (mode o) (secret_key o) (supported_modes
     o) (udp_sent o).
Definition set_ip (x : string) (o : obj) : obj :=
  mk (ssrc o) (voice_port o) (endpoint_ip o) x (port o) (mode o) (secret_key o)
     (supported_modes o) (udp_sent o).
Definition set_port (x : Z) (o : obj) : obj :=
  mk (ssrc o) (voice_port o) (endpoint_ip o) (ip o) x (mode o) (secret_key o)
     (supported_modes o) (udp_sent o).
Definition set_mode (x : json) (o : obj) : obj :=
  mk (ssrc o) (voice_port o) (endpoint_ip o) (ip o) (port o) x (secret_key o)
     (supported_modes o) (udp_sent o).
Definition set_secret_key (x : json) (o : obj) : obj :=
  mk (ssrc o) (voice_port o) (endpoint_ip o) (ip o) (port o) (mode o) x (supported_modes
     o) (udp_sent o).
Definition set_supported_modes (x : list string) (o : obj) : obj :=
  mk (ssrc o) (voice_port o) (endpoint_ip o) (ip o) (port o) (mode o) (secret_key o) x
     (udp_sent o).
Definition set_udp_sent (x : list (list byte * (json * json))) (o : obj) : obj :=
  mk (ssrc o) (voice_port o) (endpoint_ip o) (ip o) (port o) (mode o) (secret_key o)
     (supported_modes o) x.

End VoiceClient.

(** ** DiscordVoiceWebSocket *)

Module DiscordVoiceWebSocket.
Section WithEnv.
Context `{Env}.

Definition IDENTIFY : Z := 0.
Definition SELECT_PROTOCOL : Z := 1.
Definition READY : Z := 2.
Definition HEARTBEAT : Z := 3.
Definition SESSION_DESCRIPTION : Z := 4.
Definition SPEAKING : Z := 5.
Definition HEARTBEAT_ACK : Z := 6.
Definition RESUME : Z := 7.
Definition HELLO : Z := 8.
Definition RESUMED : Z := 9.
Definition CLIENT_CONNECT : Z := 12.
Definition CLIENT_DISCONNECT : Z := 13.

(** [_hook] is called with the websocket and the message; what is kept of
    the call is whether it raises. *)
Record obj : Type := mk {
  ws : Socket.obj;
  _heartbeat_task : option Task;
  _heartbeat_ack_received : option nat;
  heartbeat_interval : Q;
  _heartbeat_sent_time : Q;
  _latencies : list Q;
  _close_code : option Z;
  secret_key : json;
  _hook : Payload.obj -> outcome unit;
  _connection : VoiceClient.obj
}.

Definition set_ws (x : Socket.obj) (o : obj) : obj :=
  mk x (_heartbeat_task o) (_heartbeat_ack_received o) (heartbeat_interval o)
     (_heartbeat_sent_time o) (_latencies o) (_close_code o) (secret_key o) (_hook o)
     (_connection o).
Definition set_heartbeat_task (x : option Task) (o : obj) : obj :=
  mk (ws o) x (_heartbeat_ack_received o) (heartbeat_interval o) (_heartbeat_sent_time
     o) (_latencies o) (_close_code o) (secret_key o) (_hook o) (_connection o).
Definition set_heartbeat_ack_received (x : option nat) (o : obj) : obj :=
  mk (ws o) (_heartbeat_task o) x (heartbeat_interval o) (_heartbeat_sent_time o)
     (_latencies o) (_close_code o) (secret_key o) (_hook o) (_connection o).
Definition set_heartbeat_interval (x : Q) (o : obj) : obj :=
  mk (ws o) (_heartbeat_task o) (_heartbeat_ack_received o) x (_heartbeat_sent_time o)
     (_latencies o) (_close_code o) (secret_key o) (_hook o) (_connection o).
Definition set_heartbeat_sent_time (x : Q) (o : obj) : obj :=
  mk (ws o) (_heartbeat_task o) (_heartbeat_ack_received o) (heartbeat_interval o) x
     (_latencies o) (_close_code o) (secret_key o) (_hook o) (_connection o).
Definition set_latencies (x : list Q) (o : obj) : obj :=
  mk (ws o) (_heartbeat_task o) (_heartbeat_ack_received o) (heartbeat_interval o)
     (_heartbeat_sent_time o) x (_close_code o) (secret_key o) (_hook o) (_connection o).
Definition set_close_code (x : option Z) (o : obj) : obj :=
  mk (ws o) (_heartbeat_task o) (_heartbeat_ack_received o) (heartbeat_interval o)
     (_heartbeat_sent_time o) (_latencies o) x (secret_key o) (_hook o) (_connection o).
Definition set_secret_key (x : json) (o : obj) : obj :=
  mk (ws o) (_heartbeat_task o) (_heartbeat_ack_received o) (heartbeat_interval o)
     (_heartbeat_sent_time o) (_latencies o) (_close_code o) x (_hook o) (_connection o).
Definition set_hook (x : Payload.obj -> outcome unit) (o : obj) : obj :=
  mk (ws o) (_heartbeat_task o) (_heartbeat_ack_received o) (heartbeat_interval o)
     (_heartbeat_sent_time o) (_latencies o) (_close_code o) (secret_key o) x
     (_connection o).
Definition set_connection (x : VoiceClient.obj) (o : obj) : obj :=
  mk (ws o) (_heartbeat_task o) (_heartbeat_ack_received o) (heartbeat_interval o)
     (_heartbeat_sent_time o) (_latencies o) (_close_code o) (secret_key o) (_hook o) x.

Definition init (socket : Socket.obj) (hook : Payload.obj -> outcome unit)
    (client : VoiceClient.obj) : obj :=
  mk socket None None 0 0 [] None JNull hook client.

Definition send_as_json (data : json) : M obj unit :=
  zoom ws set_ws (Socket.send_str (to_json data)).

Definition send_heartbeat : json -> M obj unit := send_as_json.

Definition heartbeat : M obj unit :=
  tm <- time_time ;;
  send_as_json (JDict [("op", JInt HEARTBEAT); ("d", JInt (int_of_Q (tm * 1000)))]) ;;
  tm <- perf_counter ;;
  modify (set_heartbeat_sent_time tm).

Definition select_protocol (ip : string) (port : Z) (mode : json) : M obj unit :=
  send_as_json
    (JDict [("op", JInt SELECT_PROTOCOL);
            ("d", JDict [("protocol", JStr "udp");
                         ("data", JDict [("address", JStr ip);
                                         ("port", JInt port);
                                         ("mode", mode)])])]).

(** [speak(state)]; [state] is [int(state)], 0 for [SpeakingState.none]. *)
Definition speak (state : Z) : M obj unit :=
  o <- get ;;
  send_as_json
    (JDict [("op", JInt SPEAKING);
            ("d", JDict [("speaking", JInt state);
                         ("delay", JInt 0);
                         ("ssrc", VoiceClient.ssrc (_connection o))])]).

(** A write to an attribute of [self._connection]. *)
Definition on_connection (f : VoiceClient.obj -> VoiceClient.obj) : M obj unit :=
  modify (fun o => set_connection (f (_connection o)) o).

(** One turn of the [while] loop of [_heartbeat_loop], up to the point where
    the task suspends on the new future. *)
Definition _heartbeat_loop_turn : M obj unit :=
  heartbeat ;;
  f <- create_future ;;
  modify (set_heartbeat_ack_received (Some f)).

(** [mode in self._connection.supported_modes] *)
Definition mode_supported (supported : list string) (mode : json) : bool :=
  match mode with
  | JStr name => bool_decide (name ∈ supported)
  | _ => false
  end.

(** The request packet of the IP discovery. *)
Definition discovery_packet (ssrc : json) : outcome (list byte) :=
  let packet := replicate 74 x00 in
  match pack_into 2 packet 0 (JInt 1) with
  | Raise e => Raise e
  | Return packet =>
      match pack_into 2 packet 2 (JInt 70) with
      | Raise e => Raise e
      | Return packet => pack_into 4 packet 4 ssrc
      end
  end.

(** [initial_connection]; [datagram] is the reply waiting on the UDP socket,
    of which [sock_recv(state.socket, 74)] reads at most 74 bytes. *)
Definition initial_connection (datagram : list byte) (data : json) : M obj unit :=
  ssrc <- lift (subscript data "ssrc") ;;
  on_connection (VoiceClient.set_ssrc ssrc) ;;
  voice_port <- lift (subscript data "port") ;;
  on_connection (VoiceClient.set_voice_port voice_port) ;;
  endpoint_ip <- lift (subscript data "ip") ;;
  on_connection (VoiceClient.set_endpoint_ip endpoint_ip) ;;
  packet <- lift (discovery_packet ssrc) ;;
  on_connection (fun c =>
    VoiceClient.set_udp_sent ((packet, (endpoint_ip, voice_port)) :: VoiceClient.udp_sent c) c) ;;
  let recv := take 74 datagram in
  let ip_start := 8%nat in
  ip_end <- lift (bytes_index x00 recv ip_start) ;;
  ip <- lift (decode_ascii (slice ip_start ip_end recv)) ;;
  on_connection (VoiceClient.set_ip ip) ;;
  port <- lift (unpack_from 2 recv (Z.of_nat (length recv) - 2)) ;;
  on_connection (VoiceClient.set_port port) ;;
  offered <- lift (subscript data "modes") ;;
  offered <- lift (iter_json offered) ;;
  o <- get ;;
  let modes := List.filter (mode_supported (VoiceClient.supported_modes (_connection o)))
                           offered in
  match modes with
  | [] => raise IndexError
  | mode :: _ =>
      select_protocol ip port mode
  end.

Definition load_secret_key (data : json) : M obj unit :=
  key <- lift (subscript data "secret_key") ;;
  on_connection (VoiceClient.set_secret_key key) ;;
  modify (set_secret_key key) ;;
  speak 0.

Definition received_message (datagram : list byte) (msg : Payload.obj) : M obj unit :=
  let op := Payload.op msg in
  let data := Payload.d msg in
  o <- get ;;
  (if (op =? READY)%Z then initial_connection datagram data
   else
     match (op =? HEARTBEAT_ACK)%Z, _heartbeat_ack_received o with
     | true, Some ack =>
         set_result ack JNull ;;
         ack_time <- perf_counter ;;
         o <- get ;;
         (when (20 <? length (_latencies o))%nat then modify (set_latencies [])) ;;
         modify (fun o =>
           set_latencies (_latencies o ++ [ack_time - _heartbeat_sent_time o]%Q) o)
     | _, _ =>
         if (op =? RESUMED)%Z then ret tt
         else if (op =? SESSION_DESCRIPTION)%Z then
           mode <- lift (subscript data "mode") ;;
           on_connection (VoiceClient.set_mode mode) ;;
           load_secret_key data
         else if (op =? HELLO)%Z then
           interval <- lift (subscript data "heartbeat_interval") ;;
           interval <- lift (match interval with
                             | JInt z => float_of_int z
                             | JBool b => Return (inject_Z (Z.b2z b))
                             | _ => Raise TypeError
                             end) ;;
           modify (set_heartbeat_interval (interval / 1000)%Q) ;;
           modify (set_heartbeat_task (Some heartbeat_loop_task))
         else ret tt
     end) ;;
  o <- get ;;
  lift (_hook o msg).

(** [latency] *)
Definition latency (o : obj) : pyfloat :=
  match last (_latencies o) with
  | Some x => Finite x
  | None => Inf
  end.

(** [average_latency]: [sum(self._latencies) / len(self._latencies)] *)
Definition average_latency (o : obj) : pyfloat :=
  match _latencies o with
  | [] => Inf
  | l => Finite (fold_left Qplus l 0 / inject_Z (Z.of_nat (length l)))%Q
  end.

Definition close (code : Z) : M obj unit :=
  modify (set_heartbeat_task None) ;;
  modify (set_close_code (Some code)) ;;
  zoom ws set_ws (Socket.close (Some code)).

(** [poll_event]; [msg] is what [asyncio.wait_for(self.ws.receive(),
    timeout=30.0)] gave, the timeout being "handled up the chain", and
    [datagram] the reply waiting on the UDP socket.  [utils.from_json]
    takes [bytes] as well, as UTF-8. *)
Definition poll_event (datagram : list byte) (msg : received) : M obj unit :=
  match msg with
  | ReceiveTimeout => raise TimeoutError
  | Received type data =>
      match type with
      | TEXT =>
          text <- match data with
                  | Text text => ret text
                  | Binary raw => lift (decode_utf8 raw)
                  end ;;
          payload <- lift (from_json text) ;;
          received_message datagram payload
      | ERROR => raise (ConnectionClosed None None)
      | CLOSED | CLOSE | CLOSING =>
          o <- get ;;
          raise (ConnectionClosed None (_close_code o))
      | _ => ret tt
      end
  end.

End WithEnv.
End DiscordVoiceWebSocket.

(** ** Runs of the voice connection

    The receive path and the heartbeat loop of a connection are two tasks
    on one object; a run interleaves their steps. *)

Inductive voice_step : Type :=
| VoiceLoopTurn                     (* the heartbeat loop sends and awaits a new future *)
| VoiceElapse (dt : Q)              (* time passes *)
| VoiceMessage (datagram : list byte) (msg : Payload.obj).
                                    (* poll_event hands [msg] to received_message *)

(** Time passing, with nobody asleep. *)
Definition elapse {O} (dt : Q) : M O unit :=
  modify_world (fun w =>
    mkWorld (now w + dt) (perf w + dt) (futures w) (sleeps w) (dispatched w)).

Section VoiceRuns.
Context `{Env}.

Definition voice_do (step : voice_step) : M DiscordVoiceWebSocket.obj unit :=
  match step with
  | VoiceLoopTurn => DiscordVoiceWebSocket._heartbeat_loop_turn
  | VoiceElapse dt => elapse dt
  | VoiceMessage datagram msg => DiscordVoiceWebSocket.received_message datagram msg
  end.

(** A run keeps the object and the world as each step leaves them, also
    when the step raised. *)
Fixpoint voice_run (steps : list voice_step) (o : DiscordVoiceWebSocket.obj) (w : World)
  : DiscordVoiceWebSocket.obj * World :=
  match steps with
  | [] => (o, w)
  | step :: rest =>
      let r := voice_do step o w in
      voice_run rest (object_of r) (world_of r)
  end.

(** The latency sample a step records: the acknowledgement of a pending
    heartbeat records the time since that heartbeat was sent. *)
Definition recorded (step : voice_step) (o : DiscordVoiceWebSocket.obj) (w : World)
  : list Q :=
  match step with
  | VoiceMessage _ msg =>
      if (Payload.op msg =? DiscordVoiceWebSocket.HEARTBEAT_ACK)%Z then
        match DiscordVoiceWebSocket._heartbeat_ack_received o with
        | Some ack =>
            match futures w !! ack with
            | Some Pending => [(perf w - DiscordVoiceWebSocket._heartbeat_sent_time o)%Q]
            | _ => []
            end
        | None => []
        end
      else []
  | _ => []
  end.

(** All the samples recorded along a run, oldest first. *)
Fixpoint history (steps : list voice_step) (o : DiscordVoiceWebSocket.obj) (w : World)
  : list Q :=
  match steps with
  | [] => []
  | step :: rest =>
      let r := voice_do step o w in
      recorded step o w ++ history rest (object_of r) (world_of r)
  end.

(** A heartbeat and its acknowledgement [dt] later. *)
Definition heartbeat_round (dt : Q) : list voice_step :=
  [VoiceLoopTurn; VoiceElapse dt; VoiceMessage [] (Payload.mk 6 JNull None None)].

Definition heartbeat_rounds (n : nat) : list voice_step :=
  concat (map (fun k => heartbeat_round (inject_Z (Z.of_nat k))) (seq 1 n)).

End VoiceRuns.

(** ** Feeding chunks

    The binary frames of the socket, handed one after the other to the
    start of [DiscordWebSocket.received_message]; the outputs in order. *)
Section Chunks.
Context `{Env}.

Fixpoint feed_chunks (chunks : list (list byte))
  : M DiscordWebSocket.obj (list (option string)) :=
  match chunks with
  | [] => ret []
  | chunk :: rest =>
      r <- DiscordWebSocket.received_message_bytes chunk ;;
      rs <- feed_chunks rest ;;
      ret (r :: rs)
  end.

End Chunks.

(** ** A small environment, to run the model on concrete inputs

    "Decompression" drops the 4-byte suffix and counts the calls, text is
    ASCII, [render] writes compact JSON without escapes, and [from_json]
    knows the few messages of the examples by name. *)
Module Example.

Definition quote : string := String (Ascii.ascii_of_nat 34) EmptyString.

Fixpoint render (x : json) : string :=
  match x with
  | JNull => "null"
  | JBool b => if b then "true" else "false"
  | JInt z => NilZero.string_of_int (Z.to_int z)
  | JStr text => quote +:+ text +:+ quote
  | JList l =>
      "[" +:+ String.concat "," (map render l) +:+ "]"
  | JDict kv =>
      "{" +:+ String.concat ","
                (map (fun p => quote +:+ p.1 +:+ quote +:+ ":" +:+ render p.2) kv) +:+ "}"
  end.

Definition empty_dict : json := JDict [].

Definition messages : list (string * Payload.obj) :=
  [("dispatch 5", Payload.mk 0 empty_dict (Some 5%Z) (Some "X"));
   ("dispatch 6", Payload.mk 0 empty_dict (Some 6%Z) (Some "X"));
   ("dispatch 7", Payload.mk 0 empty_dict (Some 7%Z) (Some "X"));
   ("dispatch 9", Payload.mk 0 empty_dict (Some 9%Z) (Some "X"));
   ("hello", Payload.mk 10 (JDict [("heartbeat_interval", JInt 40000)]) None None);
   ("heartbeat ack", Payload.mk 11 JNull None None)].

Fixpoint lookup_message (name : string) (table : list (string * Payload.obj))
  : outcome Payload.obj :=
  match table with
  | [] => Raise JSONDecodeError
  | (k, v) :: rest => if decide (name = k) then Return v else lookup_message name rest
  end.

Definition env : Env := {|
  zstream := nat;
  decompressobj := 0%nat;
  decompress := fun z buffer => (Return (take (length buffer - 4) buffer), S z);
  decode_utf8 := decode_ascii;
  from_json := fun text => lookup_message text messages;
  to_json := render;
  float_of_str := fun _ => Raise ValueError;
  sys_platform := "linux"
|}.

Definition world : World := mkWorld 100 100 ∅ [] [].
Definition open_socket : Socket.obj := Socket.mk false None [] [] None.

End Example.

(** ** Vocabulary of the properties *)

(** [m] never takes the object out of [P], whether it returns or raises. *)
Definition maintains {O A} (P : O -> Prop) (m : M O A) : Prop :=
  forall o w, P o -> P (object_of (m o w)).

(** The registered waiters are in order: each waits on a future of its own,
    which is still pending or was cancelled by its caller. *)
Definition waiting (ls : list EventListener) (w : World) : Prop :=
  NoDup (map future ls) /\
  Forall (fun l => futures w !! future l = Some Pending \/
                   futures w !! future l = Some Cancelled) ls.

(** The transforms of the waiters return on [data]. *)
Definition transforms_return (ls : list EventListener) (data : json) : Prop :=
  Forall (fun l => forall tr, result l = Some tr -> exists v, tr data = Return v) ls.

(** [data'] is [data] as the parser registered for the event leaves it
    ([data] itself when there is none). *)
Definition parser_leaves (parsers : gmap string (json -> outcome json)) (name : string)
    (data data' : json) : Prop :=
  match parsers !! name with
  | Some func => func data = Return data'
  | None => data' = data
  end.

(** ** Bursts of frames

    Successive calls of [block], the i-th in the world [ws !! i] it finds,
    on the limiter as the call before left it; the outcomes in order. *)
Fixpoint block_each (ws : list World) (r : GatewayRatelimiter.obj)
  : list (outcome unit * GatewayRatelimiter.obj * World) :=
  match ws with
  | [] => []
  | w :: rest =>
      let res := GatewayRatelimiter.block r w in
      res :: block_each rest (object_of res)
  end.

(** ** More sample messages

    The environment of [Example], with a longer table of messages. *)
Module Sample.

Definition ready_data : json :=
  JDict [("session_id", JStr "abc"); ("resume_gateway_url", JStr "wss://resume")].

Definition messages : list (string * Payload.obj) :=
  Example.messages ++
  [("reconnect", Payload.mk 7 JNull None None);
   ("invalid session", Payload.mk 9 (JBool false) (Some 3%Z) None);
   ("invalid session, resumable", Payload.mk 9 (JBool true) None None);
   ("hello without interval", Payload.mk 10 (JDict []) None None);
   ("heartbeat", Payload.mk 1 JNull None None);
   ("ready", Payload.mk 0 ready_data (Some 1%Z) (Some "READY"));
   ("dispatch Y", Payload.mk 0 Example.empty_dict (Some 8%Z) (Some "Y"));
   ("ready without session", Payload.mk 0 (JDict [("v", JInt 10)]) None (Some "READY"));
   ("opcode 12", Payload.mk 12 JNull (Some 4%Z) None);
   ("hello, interval 10**400",
    Payload.mk 10 (JDict [("heartbeat_interval", JInt (10 ^ 400))]) None None)].

Definition env : Env := {|
  zstream := nat;
  decompressobj := 0%nat;
  decompress := fun z buffer => (Return (take (length buffer - 4) buffer), S z);
  decode_utf8 := decode_ascii;
  from_json := fun text => Example.lookup_message text messages;
  to_json := Example.render;
  float_of_str := fun _ => Raise ValueError;
  sys_platform := "linux"
|}.

Definition ws : DiscordWebSocket.obj := @DiscordWebSocket.init env Example.open_socket.
Definition shard : Shard.obj :=
  @Shard.set_socket env (Some Example.open_socket) (@Shard.init env "token" 0 0 1 false).
Definition voice_client : VoiceClient.obj :=
  VoiceClient.mk JNull JNull JNull "" 0 JNull JNull ["xsalsa20_poly1305"] [].
Definition voice : DiscordVoiceWebSocket.obj :=
  DiscordVoiceWebSocket.init Example.open_socket (fun _ => Return tt) voice_client.

End Sample.

(** ** What a dispatch makes of the waiters

    [settled ev data l st] is the state of the future of the waiter [l]
    after the loop "remove the dispatched listeners" has visited it, when
    it was [st] before; [stays ev data w l] tells whether the loop leaves
    [l] in the list. *)
Definition settled (ev : option string) (data : json) (l : EventListener) (st : Future)
  : Future :=
  if bool_decide (Some (event l) = ev) then
    match st with
    | Pending =>
        match predicate l data with
        | Raise exc => Rejected exc
        | Return true =>
            match result l with
            | None => Resolved data
            | Some tr =>
                match tr data with
                | Return v => Resolved v
                | Raise _ => Pending
                end
            end
        | Return false => Pending
        end
    | _ => st
    end
  else st.

Definition stays (ev : option string) (data : json) (w : World) (l : EventListener)
  : bool :=
  negb (bool_decide (Some (event l) = ev)) ||
  match futures w !! future l with
  | Some Cancelled => false
  | _ => match predicate l data with
         | Return false => true
         | _ => false
         end
  end.

(** * nextcord/plugin.py and nextcord/ext/commands/plugin.py: plugins

    A plugin collects commands, checks and listeners and hands them to a
    client when it is loaded.  The client, its connection state and the
    command objects are classes of other modules: what a plugin does to
    them is a sequence of method calls, which the embedding records, and
    whose outcome (a call may raise) is given by the host of the plugin. *)

(** A function handed to a decorator: its [__name__], and whether
    [asyncio.iscoroutinefunction] holds of it. *)
Record Func : Type := mkFunc {
  func_name : string;
  is_coroutine : bool
}.

(** A command of [ext.commands]: the object and its [name]. *)
Record Command : Type := mkCommand {
  command_id : nat;
  command_name : string
}.

(** The calls a plugin makes; objects of other modules (application
    commands, clients) are numbers. *)
Inductive call : Type :=
| AddCheck (cmd : nat) (check : Func)                 (* cmd.add_check(check) *)
| RemoveCheck (cmd : nat) (check : Func)              (* cmd.remove_check(check) *)
| AddApplicationCommand (bot cmd : nat)               (* bot.add_application_command(cmd) *)
| RemoveApplicationCommand (bot cmd : nat)    (* bot._connection.remove_application_command(cmd) *)
| CreateTask (hook : Func)                            (* asyncio.create_task(hook(), ...) *)
| AddCommand (bot : nat) (cmd : Command)              (* bot.add_command(cmd) *)
| RemoveCommand (bot : nat) (name : string)           (* bot.remove_command(cmd.name) *)
| AddListener (bot : nat) (func : Func) (event : string)     (* bot.add_listener(func, event) *)
| RemoveListener (bot : nat) (func : Func) (event : string). (* bot.remove_listener(func, event) *)

(** A plugin with the calls it has made, latest first. *)
Record hosted (X : Type) : Type := mkHosted {
  self : X;
  calls : list call
}.
Arguments mkHosted {X} self calls.
Arguments self {X} h.
Arguments calls {X} h.

(** [for x in l: body(x)] *)
Fixpoint for_each {O A} (l : list A) (body : A -> M O unit) : M O unit :=
  match l with
  | [] => ret tt
  | x :: rest => body x ;; for_each rest body
  end.

(** A method of the plugin that makes no call. *)
Definition on_self {X A} (m : M X A) : M (hosted X) A :=
  zoom self (fun x h => mkHosted x (calls h)) m.

Section Host.
(** The outcome of a call, given the calls made before it. *)
Context (respond : list call -> call -> outcome unit).

Definition external {X} (c : call) : M (hosted X) unit :=
  h <- get ;;
  modify (fun h => mkHosted (self h) (c :: calls h)) ;;
  lift (respond (calls h) c).

End Host.

(** ** nextcord.Plugin *)

Module Plugin.

(** The slots of the class. *)
Record obj : Type := mk {
  _app_commands : list nat;
  _app_command_checks : list Func;
  _bot : option nat;
  _load_hooks : list Func;
  _unload_hooks : list Func;
  name : option string;
  description : option string;
  extras : list (string * json)
}.

Definition set_app_commands (x : list nat) (o : obj) : obj :=
  mk x (_app_command_checks o) (_bot o) (_load_hooks o) (_unload_hooks o) (name o)
     (description o) (extras o).
Definition set_app_command_checks (x : list Func) (o : obj) : obj :=
  mk (_app_commands o) x (_bot o) (_load_hooks o) (_unload_hooks o) (name o)
     (description o) (extras o).
Definition set_bot (x : option nat) (o : obj) : obj :=
  mk (_app_commands o) (_app_command_checks o) x (_load_hooks o) (_unload_hooks o) (name o)
     (description o) (extras o).

Definition init (name description : option string) : obj :=
  mk [] [] None [] [] name description [].

(** [client] *)
Definition client : M obj nat :=
  o <- get ;;
  match _bot o with
  | None => raise AttributeError
  | Some bot => ret bot
  end.

(** [application_commands] *)
Definition application_commands (o : obj) : list nat := _app_commands o.

(** The decorator of [slash_command(...)]; [made] is what
    [slash_command(name=..., ...)(func)] of application_command.py gives. *)
Definition slash_command (made : outcome nat) : M obj nat :=
  result <- lift made ;;
  modify (fun o => set_app_commands (_app_commands o ++ [result]) o) ;;
  ret result.

Definition user_command (made : outcome nat) : M obj nat :=
  result <- lift made ;;
  modify (fun o => set_app_commands (_app_commands o ++ [result]) o) ;;
  ret result.

Definition message_command (made : outcome nat) : M obj nat :=
  result <- lift made ;;
  modify (fun o => set_app_commands (_app_commands o ++ [result]) o) ;;
  ret result.

Definition application_command_check (func : Func) : M obj Func :=
  if negb (is_coroutine func) then raise TypeError
  else
    modify (fun o => set_app_command_checks (_app_command_checks o ++ [func]) o) ;;
    ret func.

Section WithHost.
Context (respond : list call -> call -> outcome unit).

Definition _run_hooks {X} (hooks : list Func) : M (hosted X) unit :=
  for_each hooks (fun hook => external respond (CreateTask hook)).

Definition load (bot : nat) : M (hosted obj) unit :=
  h <- get ;;
  if bool_decide (is_Some (_bot (self h))) then raise AttributeError
  else
    on_self (modify (set_bot (Some bot))) ;;
    h <- get ;;
    for_each (_app_commands (self h)) (fun cmd =>
      for_each (_app_command_checks (self h)) (fun check =>
        external respond (AddCheck cmd check)) ;;
      external respond (AddApplicationCommand bot cmd)) ;;
    _run_hooks (_load_hooks (self h)).

Definition unload : M (hosted obj) unit :=
  h <- get ;;
  match _bot (self h) with
  | None => raise AttributeError
  | Some bot =>
      for_each (_app_commands (self h)) (fun cmd =>
        for_each (_app_command_checks (self h)) (fun check =>
          external respond (RemoveCheck cmd check)) ;;
        external respond (RemoveApplicationCommand bot cmd)) ;;
      _run_hooks (_unload_hooks (self h)) ;;
      on_self (modify (set_bot None))
  end.

End WithHost.
End Plugin.

(** ** nextcord.ext.commands.Plugin *)

(** [self._listeners[to_assign].append(func)] when the key is there,
    [self._listeners[to_assign] = [func]] when it is not: a [dict] keeps
    its keys in the order of their insertion. *)
Fixpoint listeners_add (ev : string) (func : Func) (d : list (string * list Func))
  : list (string * list Func) :=
  match d with
  | [] => [(ev, [func])]
  | (k, funcs) :: rest =>
      if decide (ev = k) then (k, funcs ++ [func]) :: rest
      else (k, funcs) :: listeners_add ev func rest
  end.

Module CommandsPlugin.

(** The slots of the subclass, and those of [nextcord.Plugin] in [base]. *)
Record obj : Type := mk {
  base : Plugin.obj;
  _commands : list Command;
  _command_checks : list Func;
  _listeners : list (string * list Func)
}.

Definition set_base (x : Plugin.obj) (o : obj) : obj :=
  mk x (_commands o) (_command_checks o) (_listeners o).
Definition set_commands (x : list Command) (o : obj) : obj :=
  mk (base o) x (_command_checks o) (_listeners o).
Definition set_command_checks (x : list Func) (o : obj) : obj :=
  mk (base o) (_commands o) x (_listeners o).
Definition set_listeners (x : list (string * list Func)) (o : obj) : obj :=
  mk (base o) (_commands o) (_command_checks o) x.

Definition init (name description : option string) : obj :=
  mk (Plugin.init name description) [] [] [].

(** [bot] *)
Definition bot : M obj nat := zoom base set_base Plugin.client.

(** [commands] and [listeners] *)
Definition commands (o : obj) : list Command := _commands o.
Definition listeners (o : obj) : list (string * list Func) := _listeners o.

(** The decorators of [command(...)] and [group(...)]; [made] is what
    [command(name, cls, **attrs)(func)] of core.py gives. *)
Definition command (made : outcome Command) : M obj Command :=
  result <- lift made ;;
  modify (fun o => set_commands (_commands o ++ [result]) o) ;;
  ret result.

Definition group (made : outcome Command) : M obj Command :=
  result <- lift made ;;
  modify (fun o => set_commands (_commands o ++ [result]) o) ;;
  ret result.

Definition command_check (func : Func) : M obj Func :=
  if negb (is_coroutine func) then raise TypeError
  else
    modify (fun o => set_command_checks (_command_checks o ++ [func]) o) ;;
    ret func.

(** The decorator of [listener(name)]; [name] is [None] for [MISSING],
    which is false like the empty string. *)
Definition listener (name : option string) (func : Func) : M obj Func :=
  if negb (is_coroutine func) then raise TypeError
  else
    let to_assign := match name with
                     | Some text => if decide (text = "") then func_name func else text
                     | None => func_name func
                     end in
    modify (fun o => set_listeners (listeners_add to_assign func (_listeners o)) o) ;;
    ret func.

Section WithHost.
Context (respond : list call -> call -> outcome unit).

(** A method of [nextcord.Plugin], called through [super()]. *)
Definition super {A} (m : M (hosted Plugin.obj) A) : M (hosted obj) A :=
  zoom (fun h => mkHosted (base (self h)) (calls h))
       (fun b h => mkHosted (set_base (self b) (self h)) (calls b))
       m.

Definition load (bot : nat) : M (hosted obj) unit :=
  super (Plugin.load respond bot) ;;
  h <- get ;;
  for_each (_commands (self h)) (fun cmd =>
    for_each (_command_checks (self h)) (fun check =>
      external respond (AddCheck (command_id cmd) check)) ;;
    external respond (AddCommand bot cmd)) ;;
  for_each (_listeners (self h)) (fun entry =>
    for_each entry.2 (fun func => external respond (AddListener bot func entry.1))).

Definition unload : M (hosted obj) unit :=
  h <- get ;;
  match Plugin._bot (base (self h)) with
  | None => raise AttributeError
  | Some bot =>
      super (Plugin.unload respond) ;;
      for_each (_commands (self h)) (fun cmd =>
        for_each (_command_checks (self h)) (fun check =>
          external respond (RemoveCheck (command_id cmd) check)) ;;
        external respond (RemoveCommand bot (command_name cmd))) ;;
      for_each (_listeners (self h)) (fun entry =>
        for_each entry.2 (fun func => external respond (RemoveListener bot func entry.1)))
  end.

End WithHost.
End CommandsPlugin.

(** ** Vocabulary of the properties of plugins *)

(** The call that takes back what [c] registered. *)
Definition undo (c : call) : call :=
  match c with
  | AddCheck cmd check => RemoveCheck cmd check
  | AddApplicationCommand bot cmd => RemoveApplicationCommand bot cmd
  | AddCommand bot cmd => RemoveCommand bot (command_name cmd)
  | AddListener bot func ev => RemoveListener bot func ev
  | other => other
  end.

(** The calls that register the application commands [cmds] with their
    checks, and those for the commands and the listeners of
    [ext.commands], in the order in which [load] makes them. *)
Definition app_command_calls (bot : nat) (checks : list Func) (cmds : list nat)
  : list call :=
  flat_map (fun cmd => map (AddCheck cmd) checks ++ [AddApplicationCommand bot cmd]) cmds.

Definition command_calls (bot : nat) (checks : list Func) (cmds : list Command)
  : list call :=
  flat_map (fun cmd => map (AddCheck (command_id cmd)) checks ++ [AddCommand bot cmd]) cmds.

Definition listener_calls (bot : nat) (d : list (string * list Func)) : list call :=
  flat_map (fun entry => map (fun func => AddListener bot func entry.1) entry.2) d.

(** A host on which every call returns. *)
Definition obliging (respond : list call -> call -> outcome unit) : Prop :=
  forall history c, respond history c = Return tt.

(** The registrations [listener(name)(func)], one after the other. *)
Fixpoint register_listeners (regs : list (option string * Func))
  : M CommandsPlugin.obj unit :=
  match regs with
  | [] => ret tt
  | (name, func) :: rest =>
      CommandsPlugin.listener name func ;; register_listeners rest
  end.

(** The event a registration is for. *)
Definition event_of (reg : option string * Func) : string :=
  match reg.1 with
  | Some text => if decide (text = "") then func_name reg.2 else text
  | None => func_name reg.2
  end.

(** [self._listeners.get(ev, [])] *)
Fixpoint listeners_for (ev : string) (d : list (string * list Func)) : list Func :=
  match d with
  | [] => []
  | (k, funcs) :: rest => if decide (ev = k) then funcs else listeners_for ev rest
  end.

(** When [m] raises, the exception is that of the call it made last. *)
Definition blames (respond : list call -> call -> outcome unit) {X A}
    (m : M (hosted X) A) : Prop :=
  forall h w e,
    result_of (m h w) = Raise e ->
    exists c history,
      calls (object_of (m h w)) = c :: history /\ respond history c = Raise e.

(** A host that refuses to register the application command [refused]. *)
Definition refusing (refused : nat) (history : list call) (c : call) : outcome unit :=
  match c with
  | AddApplicationCommand _ cmd => if decide (cmd = refused) then Raise ValueError else Return tt
  | _ => Return tt
  end.

(** * Properties *)

(** ** Reasoning about the monad *)

Lemma Qle_bool_false (x y : Q) : (y < x)%Q -> Qle_bool x y = false.
Proof.
  intros Hlt. destruct (Qle_bool x y) eqn:E; [|reflexivity].
  apply Qle_bool_iff in E. lra.
Qed.

Lemma Qle_bool_true (x y : Q) : (x <= y)%Q -> Qle_bool x y = true.
Proof. intros Hle. now apply Qle_bool_iff. Qed.

Lemma Qeq_bool_false (x y : Q) : ~ (x == y)%Q -> Qeq_bool x y = false.
Proof.
  intros Hne. destruct (Qeq_bool x y) eqn:E; [|reflexivity].
  apply Qeq_bool_iff in E. contradiction.
Qed.


(** ** Properties of the object that a method maintains *)

Section Maintains.
Context {O : Type}.

Lemma maintains_ret {A} (P : O -> Prop) (a : A) : maintains P (ret a).
Proof. intros o w Ho. exact Ho. Qed.

Lemma maintains_raise {A} (P : O -> Prop) (e : exn) : maintains P (@raise O A e).
Proof. intros o w Ho. exact Ho. Qed.

Lemma maintains_lift {A} (P : O -> Prop) (r : outcome A) : maintains P (lift r).
Proof. intros o w Ho. exact Ho. Qed.

Lemma maintains_get (P : O -> Prop) : maintains P get.
Proof. intros o w Ho. exact Ho. Qed.

Lemma maintains_get_world (P : O -> Prop) : maintains P get_world.
Proof. intros o w Ho. exact Ho. Qed.

Lemma maintains_modify_world (P : O -> Prop) (f : World -> World) :
  maintains P (modify_world f).
Proof. intros o w Ho. exact Ho. Qed.

Lemma maintains_modify (P : O -> Prop) (f : O -> O) :
  (forall o, P o -> P (f o)) -> maintains P (modify f).
Proof. intros Hf o w Ho. now apply Hf. Qed.

Lemma maintains_bind {A B} (P : O -> Prop) (m : M O A) (k : A -> M O B) :
  maintains P m -> (forall a, maintains P (k a)) -> maintains P (bind m k).
Proof.
  intros Hm Hk o w Ho. unfold bind. specialize (Hm o w Ho).
  destruct (m o w) as [[[a|e] o'] w']; cbn in *.
  - now apply Hk.
  - exact Hm.
Qed.

Lemma maintains_catch {A} (P : O -> Prop) (m : M O A) (handles : exn -> bool)
    (h : exn -> M O A) :
  maintains P m -> (forall e, maintains P (h e)) -> maintains P (catch m handles h).
Proof.
  intros Hm Hh o w Ho. unfold catch. specialize (Hm o w Ho).
  destruct (m o w) as [[[a|e] o'] w']; cbn in *.
  - exact Hm.
  - destruct (handles e); [now apply Hh | exact Hm].
Qed.

Lemma maintains_zoom {P' A} (P : O -> Prop) (proj : O -> P') (inj : P' -> O -> O)
    (m : M P' A) :
  (forall p o, P o -> P (inj p o)) -> maintains P (zoom proj inj m).
Proof.
  intros Hinj o w Ho. unfold zoom.
  destruct (m (proj o) w) as [[r p'] w']. cbn. now apply Hinj.
Qed.

Lemma maintains_time_time (P : O -> Prop) : maintains P time_time.
Proof. intros o w Ho. exact Ho. Qed.

Lemma maintains_perf_counter (P : O -> Prop) : maintains P perf_counter.
Proof. intros o w Ho. exact Ho. Qed.

Lemma maintains_dispatch_call (P : O -> Prop) (name : string) (arg : json) :
  maintains P (dispatch_call name arg).
Proof. intros o w Ho. exact Ho. Qed.

Lemma maintains_create_future (P : O -> Prop) : maintains P create_future.
Proof. intros o w Ho. exact Ho. Qed.

Lemma maintains_cancelled (P : O -> Prop) (f : nat) : maintains P (cancelled f).
Proof. intros o w Ho. exact Ho. Qed.

Lemma maintains_set_result (P : O -> Prop) (f : nat) (v : json) :
  maintains P (set_result f v).
Proof.
  intros o w Ho. unfold set_result, bind, get_world.
  destruct (futures w !! f) as [[]|]; exact Ho.
Qed.

Lemma maintains_set_exception (P : O -> Prop) (f : nat) (e : exn) :
  maintains P (set_exception f e).
Proof.
  intros o w Ho. unfold set_exception, bind, get_world.
  destruct (futures w !! f) as [[]|]; exact Ho.
Qed.

Lemma maintains_cancel (P : O -> Prop) (f : nat) : maintains P (cancel f).
Proof.
  intros o w Ho. unfold cancel, bind, get_world.
  destruct (futures w !! f) as [[]|]; exact Ho.
Qed.

(** The scan of the listeners touches futures only. *)
Lemma maintains_scan_listeners (P : O -> Prop) (ev : option string) (data : json)
    (entries : list (nat * EventListener)) (removed : list nat) :
  maintains P (scan_listeners ev data entries removed).
Proof.
  revert removed. induction entries as [|[index entry] rest IH]; intros removed.
  - apply maintains_ret.
  - cbn [scan_listeners]. destruct (negb _); [apply IH|].
    apply maintains_bind; [apply maintains_cancelled|]. intros c.
    destruct c; [apply IH|].
    destruct (predicate entry data) as [valid|exc].
    + destruct valid; [|apply IH].
      apply maintains_bind.
      * destruct (result entry); [apply maintains_lift | apply maintains_ret].
      * intros v. apply maintains_bind; [apply maintains_set_result | intros; apply IH].
    + apply maintains_bind; [apply maintains_set_exception | intros; apply IH].
Qed.

End Maintains.

(** Breaks a method into its steps, leaving what the steps do to the fields
    that a property reads. *)
Ltac maintain_step :=
  lazymatch goal with
  | |- maintains _ (bind _ _) => apply maintains_bind; [|intros]
  | |- maintains _ (catch _ _ _) => apply maintains_catch; [|intros]
  | |- maintains _ (ret _) => apply maintains_ret
  | |- maintains _ (raise _) => apply maintains_raise
  | |- maintains _ (lift _) => apply maintains_lift
  | |- maintains _ get => apply maintains_get
  | |- maintains _ get_world => apply maintains_get_world
  | |- maintains _ time_time => apply maintains_time_time
  | |- maintains _ perf_counter => apply maintains_perf_counter
  | |- maintains _ create_future => apply maintains_create_future
  | |- maintains _ (modify_world _) => apply maintains_modify_world
  | |- maintains _ (dispatch_call _ _) => apply maintains_dispatch_call
  | |- maintains _ (set_result _ _) => apply maintains_set_result
  | |- maintains _ (set_exception _ _) => apply maintains_set_exception
  | |- maintains _ (cancel _) => apply maintains_cancel
  | |- maintains _ (cancelled _) => apply maintains_cancelled
  | |- maintains _ (scan_listeners _ _ _ _) => apply maintains_scan_listeners
  | |- maintains _ (modify _) => apply maintains_modify; intros
  | |- maintains _ (zoom _ _ _) => apply maintains_zoom; intros
  | |- maintains _ (if ?b then _ else _) => destruct b eqn:?
  | |- maintains _ (match ?x with _ => _ end) => destruct x eqn:?
  end.

Ltac maintain := repeat maintain_step.

(** ** Running a method step by step *)

Lemma bind_run {O A B} (m : M O A) (k : A -> M O B) (o o' : O) (w w' : World) (a : A) :
  m o w = (Return a, o', w') -> bind m k o w = k a o' w'.
Proof. intros Hm. unfold bind. now rewrite Hm. Qed.

Lemma bind_raise {O A B} (m : M O A) (k : A -> M O B) (o o' : O) (w w' : World) (e : exn) :
  m o w = (Raise e, o', w') -> bind m k o w = (Raise e, o', w').
Proof. intros Hm. unfold bind. now rewrite Hm. Qed.

Lemma lift_run {O A} (r : outcome A) (o : O) (w : World) : lift r o w = (r, o, w).
Proof. reflexivity. Qed.

Lemma bool_decide_is_Some {A} (x : A) : bool_decide (is_Some (Some x)) = true.
Proof. apply bool_decide_eq_true. eauto. Qed.

Lemma bool_decide_is_Some_None {A} : bool_decide (is_Some (@None A)) = false.
Proof. apply bool_decide_eq_false. intros [x Hx]. discriminate. Qed.

Lemma bind_assoc {O A B C} (m : M O A) (k : A -> M O B) (k' : B -> M O C)
    (o : O) (w : World) :
  bind (bind m k) k' o w = bind m (fun a => bind (k a) k') o w.
Proof.
  unfold bind. destruct (m o w) as [[[a|e] o'] w']; reflexivity.
Qed.

Lemma bind_ext {O A B} (m : M O A) (k k' : A -> M O B) (o : O) (w : World) :
  (forall a o' w', k a o' w' = k' a o' w') -> bind m k o w = bind m k' o w.
Proof.
  intros Hk. unfold bind. destruct (m o w) as [[[a|e] o'] w']; [apply Hk | reflexivity].
Qed.
(** ** GatewayRatelimiter *)

Section Ratelimiter.
Import GatewayRatelimiter.

(** A call of [get_delay] that finds a slot: the state it leaves. *)
Lemma get_delay_first (count : Z) (p : Q) (w : World) :
  (1 < count)%Z ->
  get_delay (init count p) w = (Return 0%Q, mk count (count - 1) (now w) p, w).
Proof.
  intros Hc. unfold get_delay, init, bind, time_time, get, modify, ret, window_over; cbn -[Z.eqb Z.sub].
  destruct (Qle_bool (now w) (0 + p)); cbn -[Z.eqb Z.sub];
    rewrite Z.eqb_refl; cbn -[Z.eqb Z.sub];
    replace (count =? 0)%Z with false by (symmetry; apply Z.eqb_neq; lia); cbn -[Z.eqb Z.sub];
    replace (count - 1 =? 0)%Z with false by (symmetry; apply Z.eqb_neq; lia);
    reflexivity.
Qed.

(** The call that takes the last slot latches the window at the current time. *)
Lemma get_delay_last (count : Z) (win p : Q) (w : World) :
  (1 < count)%Z -> (now w <= win + p)%Q ->
  get_delay (mk count 1 win p) w = (Return 0%Q, mk count 0 (now w) p, w).
Proof.
  intros Hc Hle.
  unfold get_delay, bind, time_time, get, modify, ret, window_over; cbn -[Z.eqb Z.sub].
  rewrite (Qle_bool_true _ _ Hle); cbn -[Z.eqb Z.sub].
  replace (1 =? count)%Z with false by (symmetry; apply Z.eqb_neq; lia).
  reflexivity.
Qed.

(** With no slot left inside the window, the delay is what is left of the
    window and the counter stays at zero. *)
Lemma get_delay_empty (count : Z) (win p : Q) (w : World) :
  (0 < count)%Z -> (now w <= win + p)%Q ->
  get_delay (mk count 0 win p) w
  = (Return (p - (now w - win))%Q, mk count 0 win p, w).
Proof.
  intros Hc Hle.
  unfold get_delay, bind, time_time, get, modify, ret, window_over; cbn -[Z.eqb Z.sub].
  rewrite (Qle_bool_true _ _ Hle); cbn -[Z.eqb Z.sub].
  replace (0 =? count)%Z with false by (symmetry; apply Z.eqb_neq; lia).
  reflexivity.
Qed.

(** Once the window is over, the next call resets the counter and takes a slot. *)
Lemma get_delay_reset (count : Z) (win p : Q) (w : World) :
  (1 < count)%Z -> (win + p < now w)%Q ->
  get_delay (mk count 0 win p) w = (Return 0%Q, mk count (count - 1) (now w) p, w).
Proof.
  intros Hc Hlt.
  unfold get_delay, bind, time_time, get, modify, ret, window_over; cbn -[Z.eqb Z.sub].
  rewrite (Qle_bool_false _ _ Hlt); cbn -[Z.eqb Z.sub].
  rewrite Z.eqb_refl; cbn -[Z.eqb Z.sub].
  replace (count =? 0)%Z with false by (symmetry; apply Z.eqb_neq; lia); cbn -[Z.eqb Z.sub].
  replace (count - 1 =? 0)%Z with false by (symmetry; apply Z.eqb_neq; lia).
  reflexivity.
Qed.

Lemma block_of_get_delay (r r' : obj) (w : World) (delta : Q) :
  get_delay r w = (Return delta, r', w) ->
  block r w =
    if Qeq_bool delta 0 then (Return tt, r', w)
    else (Return tt, r',
          mkWorld (now w + delta) (perf w + delta) (futures w) (delta :: sleeps w)
                  (dispatched w)).
Proof.
  intros Hd. unfold block, bind. rewrite Hd.
  destruct (Qeq_bool delta 0); reflexivity.
Qed.

(** C6, amended.  A limiter of capacity 2 and window 1 second, three calls
    of [block] in a row (the second within the window the first opened, the
    third before the window latched by the second is over): the first two
    return at once; the third sleeps for exactly what is left of the window,
    [per - (current - window)], and so returns when the window ends; the wait
    itself leaves [remaining] at 0.  The counter is reset by the next call
    made after the end of the window, which also takes a slot. *)
Theorem ratelimiter_third_block_waits (w1 w2 w3 : World) :
  (now w2 <= now w1 + 1)%Q ->
  (now w3 < now w2 + 1)%Q ->
  let r1 := object_of (block (init 2 1) w1) in
  let r2 := object_of (block r1 w2) in
  let delta := (per r2 - (now w3 - window r2))%Q in
  block (init 2 1) w1 = (Return tt, r1, w1) /\
  block r1 w2 = (Return tt, r2, w2) /\
  window r2 = now w2 /\
  (0 < delta)%Q /\
  result_of (block r2 w3) = Return tt /\
  sleeps (world_of (block r2 w3)) = delta :: sleeps w3 /\
  (now (world_of (block r2 w3)) == window r2 + per r2)%Q /\
  remaining (object_of (block r2 w3)) = 0%Z /\
  forall w4 : World,
    (window r2 + per r2 < now w4)%Q ->
    block (object_of (block r2 w3)) w4 = (Return tt, mk 2 (2 - 1) (now w4) 1, w4).
Proof.
  intros H12 H23.
  assert (E1 : block (init 2 1) w1 = (Return tt, mk 2 1 (now w1) 1, w1)).
  { rewrite (block_of_get_delay _ _ _ _ (get_delay_first 2 1 w1 ltac:(lia))).
    reflexivity. }
  assert (E2 : block (mk 2 1 (now w1) 1) w2 = (Return tt, mk 2 0 (now w2) 1, w2)).
  { rewrite (block_of_get_delay _ _ _ _ (get_delay_last 2 (now w1) 1 w2 ltac:(lia) H12)).
    reflexivity. }
  assert (Hpos : (0 < 1 - (now w3 - now w2))%Q) by lra.
  assert (E3 : block (mk 2 0 (now w2) 1) w3
               = (Return tt, mk 2 0 (now w2) 1,
                  mkWorld (now w3 + (1 - (now w3 - now w2)))
                          (perf w3 + (1 - (now w3 - now w2))) (futures w3)
                          ((1 - (now w3 - now w2))%Q :: sleeps w3) (dispatched w3))).
  { rewrite (block_of_get_delay _ _ _ _
               (get_delay_empty 2 (now w2) 1 w3 ltac:(lia) ltac:(lra))).
    rewrite Qeq_bool_false by lra. reflexivity. }
  cbv zeta. rewrite E1. cbn [object_of fst snd]. rewrite E2. cbn [object_of fst snd].
  rewrite E3. cbn [object_of world_of result_of fst snd window per remaining sleeps now].
  repeat split; try reflexivity; try assumption.
  - lra.
  - intros w4 H4.
    rewrite (block_of_get_delay _ _ _ _ (get_delay_reset 2 (now w2) 1 w4 ltac:(lia) H4)).
    reflexivity.
Qed.

Lemma ratelimiter_third_block_waits_witness :
  let w := mkWorld 100 100 ∅ [] [] in
  (now w <= now w + 1)%Q /\ (now w < now w + 1)%Q /\
  sleeps (world_of (block (object_of (block (object_of (block (init 2 1) w)) w)) w))
    = [(1 - (100 - 100))%Q] /\
  remaining (object_of (block (object_of (block (object_of (block (init 2 1) w)) w)) w))
    = 0%Z.
Proof.
  intros w.
  assert (H1 : (now w <= now w + 1)%Q) by (unfold Qle; simpl; lia).
  assert (H2 : (now w < now w + 1)%Q) by (unfold Qlt; simpl; lia).
  split; [exact H1|]. split; [exact H2|].
  destruct (ratelimiter_third_block_waits w w w H1 H2)
    as (_ & _ & _ & _ & _ & Hs & _ & Hr & _).
  split; [exact Hs | exact Hr].
Defined.

(** C6 as stated fails: with capacity 2 and a window of 1 second, the third
    of three calls made at the same instant sleeps for the whole remaining
    window (1 second), but when that wait is over [remaining] is 0, not the
    capacity 2. *)
Lemma ratelimiter_not_reset_by_wait :
  let w := mkWorld 100 100 ∅ [] [] in
  let res := (block ;; block ;; block) (init 2 1) w in
  result_of res = Return tt /\
  sleeps (world_of res) = [1%Q] /\
  remaining (object_of res) = 0%Z /\
  remaining (object_of res) <> max (object_of res).
Proof. vm_compute. repeat split; discriminate. Qed.

End Ratelimiter.

(** ** DiscordWebSocket: close codes *)

Section CloseCodes.
Context `{Env}.
Import DiscordWebSocket.

Lemma not_in_fatal_false (c : Z) :
  not_in_fatal (Some c) = false <->
  c ∈ [1000; 4004; 4010; 4011; 4012; 4013; 4014]%Z.
Proof.
  unfold not_in_fatal. rewrite negb_false_iff. apply bool_decide_eq_true.
Qed.

Lemma poll_event_closure (type : WSMsgType) (data : frame) (o : obj) (w : World) :
  closure type = true ->
  let code := or_code (_close_code o) (Socket.close_code (socket o)) in
  poll_event (Received type data) o w
  = (Raise (if not_in_fatal code then ReconnectWebSocket (shard_id o) true
            else ConnectionClosed (shard_id o) code),
     set_heartbeat_task None o, w).
Proof.
  intros Hc code. subst code.
  destruct type; try discriminate Hc;
    unfold poll_event, catch, raise, bind, cancel_heartbeat_task, modify, get,
           _can_handle_close, ret; cbn;
    destruct (not_in_fatal _); reflexivity.
Qed.

(** C2.  With [c] the close code in force ([self._close_code or
    self.socket.close_code]): [_can_handle_close] returns [False] exactly
    when [c] is one of 1000, 4004, 4010, 4011, 4012, 4013, 4014; on a
    closure [poll_event] raises [ConnectionClosed] with that code for
    those, and [ReconnectWebSocket] (resume) for every other code; a
    receive timeout raises [ReconnectWebSocket] whatever the code. *)
Theorem close_code_classification (o : obj) (w : World) (c : Z) :
  or_code (_close_code o) (Socket.close_code (socket o)) = Some c ->
  let fatal := c ∈ [1000; 4004; 4010; 4011; 4012; 4013; 4014]%Z in
  (_can_handle_close o w = (Return false, o, w) <-> fatal) /\
  (_can_handle_close o w = (Return true, o, w) <-> ~ fatal) /\
  (forall type data, closure type = true ->
     (fatal ->
      result_of (poll_event (Received type data) o w)
      = Raise (ConnectionClosed (shard_id o) (Some c))) /\
     (~ fatal ->
      result_of (poll_event (Received type data) o w)
      = Raise (ReconnectWebSocket (shard_id o) true))) /\
  result_of (poll_event ReceiveTimeout o w) = Raise (ReconnectWebSocket (shard_id o) true).
Proof.
  intros Hcode fatal.
  assert (Hcan : _can_handle_close o w = (Return (not_in_fatal (Some c)), o, w)).
  { unfold _can_handle_close, bind, get, ret. now rewrite Hcode. }
  pose proof (not_in_fatal_false c) as Hf. fold fatal in Hf.
  split; [|split; [|split]].
  - rewrite Hcan. split.
    + intros E. apply Hf. congruence.
    + intros Hin. apply Hf in Hin. now rewrite Hin.
  - rewrite Hcan. split.
    + intros E Hin. apply Hf in Hin. congruence.
    + intros Hn. destruct (not_in_fatal (Some c)) eqn:E; [reflexivity|].
      exfalso. apply Hn, Hf. reflexivity.
  - intros type data Hc. rewrite (poll_event_closure type data o w Hc). cbv zeta.
    rewrite Hcode. cbn [result_of fst]. split.
    + intros Hin. apply Hf in Hin. now rewrite Hin.
    + intros Hn. destruct (not_in_fatal (Some c)) eqn:E; [reflexivity|].
      exfalso. apply Hn, Hf. reflexivity.
  - reflexivity.
Qed.

(** No close code at all ([None]) is not in the tuple either: resumable. *)
Lemma no_close_code_is_resumable (type : WSMsgType) (data : frame) (o : obj) (w : World) :
  closure type = true ->
  or_code (_close_code o) (Socket.close_code (socket o)) = None ->
  result_of (poll_event (Received type data) o w)
  = Raise (ReconnectWebSocket (shard_id o) true).
Proof.
  intros Hc Hcode. rewrite (poll_event_closure type data o w Hc). cbv zeta.
  now rewrite Hcode.
Qed.

End CloseCodes.

(** 4004 is fatal and 1006 is resumable. *)
Lemma close_code_classification_witness :
  let ws (c : Z) :=
    @DiscordWebSocket.init Example.env (Socket.mk true (Some c) [] [] None) in
  or_code (DiscordWebSocket._close_code (ws 4004%Z))
          (Socket.close_code (DiscordWebSocket.socket (ws 4004%Z))) = Some 4004%Z /\
  or_code (DiscordWebSocket._close_code (ws 1006%Z))
          (Socket.close_code (DiscordWebSocket.socket (ws 1006%Z))) = Some 1006%Z /\
  result_of (DiscordWebSocket.poll_event (Received CLOSE (Text "")) (ws 4004%Z) Example.world)
  = Raise (ConnectionClosed None (Some 4004%Z)) /\
  result_of (DiscordWebSocket.poll_event (Received CLOSE (Text "")) (ws 1006%Z) Example.world)
  = Raise (ReconnectWebSocket None true).
Proof.
  intros ws.
  assert (H4 : or_code (DiscordWebSocket._close_code (ws 4004%Z))
                 (Socket.close_code (DiscordWebSocket.socket (ws 4004%Z))) = Some 4004%Z)
    by reflexivity.
  assert (H6 : or_code (DiscordWebSocket._close_code (ws 1006%Z))
                 (Socket.close_code (DiscordWebSocket.socket (ws 1006%Z))) = Some 1006%Z)
    by reflexivity.
  split; [exact H4|]. split; [exact H6|].
  destruct (close_code_classification (ws 4004%Z) Example.world 4004%Z H4)
    as (_ & _ & Hp4 & _).
  destruct (close_code_classification (ws 1006%Z) Example.world 1006%Z H6)
    as (_ & _ & Hp6 & _).
  split.
  - apply (Hp4 CLOSE (Text "")); [reflexivity|].
    apply (proj1 (bool_decide_eq_true _)). reflexivity.
  - apply (Hp6 CLOSE (Text "")); [reflexivity|].
    apply (proj1 (bool_decide_eq_false _)). reflexivity.
Defined.

(** ** DiscordWebSocket: a write on a closed socket *)

Section WriteErrors.
Context `{Env}.
Import DiscordWebSocket.

(** [block] never raises. *)
Lemma block_returns (r : GatewayRatelimiter.obj) (w : World) :
  exists r' w', GatewayRatelimiter.block r w = (Return tt, r', w').
Proof.
  unfold GatewayRatelimiter.block, GatewayRatelimiter.get_delay, bind, time_time, get,
    modify, ret, asyncio_sleep, modify_world.
  repeat match goal with
         | |- context [if ?b then _ else _] => destruct b
         end; eauto.
Qed.

Lemma send_str_fault (data : string) (sk : Socket.obj) (w : World) (e : exn) :
  Socket.fault sk = Some e ->
  Socket.send_str data sk w = (Raise e, sk, w).
Proof. intros Hf. unfold Socket.send_str, bind, get. now rewrite Hf. Qed.

Lemma self_send_fault (data : string) (o : obj) (w : World) (e : exn) :
  Socket.fault (socket o) = Some e ->
  exists r' w',
    self_send data o w = (Raise e, set_socket (socket o) (set_rate_limiter r' o), w').
Proof.
  intros Hf.
  destruct (block_returns (_rate_limiter o) w) as (r' & w' & Hb).
  unfold self_send, bind, get. destruct (debug_events o).
  - exists r', (mkWorld (now w') (perf w') (futures w') (sleeps w')
                       (("socket_raw_send", JStr data) :: dispatched w')).
    unfold debug_send, bind, zoom, dispatch_call, modify_world. rewrite Hb.
    cbn -[Socket.send_str]. now rewrite (send_str_fault data (socket o) _ e Hf).
  - exists r', w'.
    unfold send, bind, zoom. rewrite Hb.
    cbn -[Socket.send_str]. now rewrite (send_str_fault data (socket o) _ e Hf).
Qed.

(** C5, amended.  When the write raises [RuntimeError], [send_as_json] and
    [send_heartbeat] swallow the error exactly when [_can_handle_close()] is
    [True] (the closure is resumable), and raise [ConnectionClosed] exactly
    when it is [False] (the close code is one of the fatal ones). *)
Theorem write_error_reporting (o : obj) (w : World) (data : json) :
  Socket.fault (socket o) = Some RuntimeError ->
  let can := not_in_fatal (or_code (_close_code o) (Socket.close_code (socket o))) in
  _can_handle_close o w = (Return can, o, w) /\
  result_of (send_as_json data o w)
  = (if can then Return tt else Raise (ConnectionClosed (shard_id o) None)) /\
  result_of (send_heartbeat data o w)
  = (if can then Return tt else Raise (ConnectionClosed (shard_id o) None)).
Proof.
  intros Hf can. split; [reflexivity|]. split.
  - destruct (self_send_fault (to_json data) o w RuntimeError Hf) as (r' & w' & Hs).
    unfold send_as_json, catch. rewrite Hs. cbn.
    unfold on_write_error, bind, _can_handle_close, get, ret, raise. cbn.
    fold can. destruct can; reflexivity.
  - unfold send_heartbeat, catch, zoom.
    rewrite (send_str_fault (to_json data) (socket o) w RuntimeError Hf). cbn.
    unfold on_write_error, bind, _can_handle_close, get, ret, raise. cbn.
    fold can. destruct can; reflexivity.
Qed.

End WriteErrors.

Lemma write_error_reporting_witness :
  let ws := @DiscordWebSocket.init Example.env
              (Socket.mk true (Some 1006%Z) [] [] (Some RuntimeError)) in
  Socket.fault (DiscordWebSocket.socket ws) = Some RuntimeError /\
  result_of (DiscordWebSocket.send_as_json (JDict []) ws Example.world) = Return tt.
Proof.
  intros ws.
  assert (Hf : Socket.fault (DiscordWebSocket.socket ws) = Some RuntimeError)
    by reflexivity.
  split; [exact Hf|].
  destruct (write_error_reporting ws Example.world (JDict []) Hf) as (_ & Hs & _).
  exact Hs.
Defined.

(** C5 as stated fails.  With close code 1000, [_can_handle_close()] is
    [False] and the failed write is not swallowed: [send_as_json] raises
    [ConnectionClosed].  With close code 1006 it is [True] and the failed
    write is swallowed. *)
Lemma write_error_not_swallowed_when_fatal :
  let ws (c : Z) := @DiscordWebSocket.init Example.env
                      (Socket.mk true (Some c) [] [] (Some RuntimeError)) in
  result_of (DiscordWebSocket._can_handle_close (ws 1000%Z) Example.world) = Return false /\
  result_of (DiscordWebSocket.send_as_json (JDict []) (ws 1000%Z) Example.world)
  = Raise (ConnectionClosed None None) /\
  result_of (DiscordWebSocket._can_handle_close (ws 1006%Z) Example.world) = Return true /\
  result_of (DiscordWebSocket.send_as_json (JDict []) (ws 1006%Z) Example.world)
  = Return tt.
Proof. vm_compute. repeat split. Qed.

(** ** Binary frames *)

Section BinaryFrames.
Context `{Env}.

Lemma incomplete_false (msg : list byte) :
  incomplete msg = false -> (4 <= length msg)%nat /\ last4 msg = ZLIB_SUFFIX.
Proof.
  unfold incomplete. intros Hi. apply orb_false_iff in Hi as [Hlen Hl].
  apply Nat.ltb_ge in Hlen. apply negb_false_iff, bool_decide_eq_true in Hl. auto.
Qed.

(** A chunk that ends with the marker leaves a buffer that ends with it. *)
Lemma last4_app (buffer msg : list byte) :
  incomplete msg = false -> last4 (buffer ++ msg) = ZLIB_SUFFIX.
Proof.
  intros Hi. apply incomplete_false in Hi as [Hlen Hl].
  unfold last4 in *. rewrite length_app, drop_app_ge by lia.
  rewrite <- Hl. f_equal. lia.
Qed.

Lemma received_message_bytes_incomplete (msg : list byte)
    (o : DiscordWebSocket.obj) (w : World) :
  incomplete msg = true ->
  DiscordWebSocket.received_message_bytes msg o w
  = (Return None, DiscordWebSocket.set_buffer (DiscordWebSocket._buffer o ++ msg) o, w).
Proof.
  intros Hi. unfold DiscordWebSocket.received_message_bytes, bind, modify.
  now rewrite Hi.
Qed.

Lemma received_message_bytes_complete (msg raw : list byte) (z : zstream) (text : string)
    (o : DiscordWebSocket.obj) (w : World) :
  incomplete msg = false ->
  decompress (DiscordWebSocket._zlib o) (DiscordWebSocket._buffer o ++ msg) = (Return raw, z) ->
  decode_utf8 raw = Return text ->
  DiscordWebSocket.received_message_bytes msg o w
  = (Return (Some text),
     DiscordWebSocket.set_buffer []
       (DiscordWebSocket.set_zlib z
          (DiscordWebSocket.set_buffer (DiscordWebSocket._buffer o ++ msg) o)), w).
Proof.
  intros Hi Hz Hd. unfold DiscordWebSocket.received_message_bytes, bind, modify, get.
  rewrite Hi. cbn. rewrite Hz. cbn. unfold lift. now rewrite Hd.
Qed.

(** C1, amended.  [DiscordWebSocket.received_message]: a chunk after which
    the buffer does not end with [00 00 FF FF] does not itself end with it;
    such a chunk is appended to the buffer and the method returns with
    nothing else done; a chunk that ends with the marker has the whole
    buffer decompressed and, when that and the UTF-8 decoding succeed, the
    one decoded string is what the method goes on with, the buffer being
    empty.  [Shard._process_raw_data] decodes the same way, but for a chunk
    that does not end with the marker it appends the bytes and raises
    [ValueError] instead of returning. *)
Theorem binary_frames (msg : list byte) (o : DiscordWebSocket.obj) (sh : Shard.obj)
    (w : World) :
  (last4 (DiscordWebSocket._buffer o ++ msg) <> ZLIB_SUFFIX -> incomplete msg = true) /\
  (incomplete msg = true ->
   DiscordWebSocket.received_message (Binary msg) o w
   = (Return tt, DiscordWebSocket.set_buffer (DiscordWebSocket._buffer o ++ msg) o, w) /\
   Shard._process_raw_data (Binary msg) sh w
   = (Raise ValueError, Shard.set_buffer (Shard._buffer sh ++ msg) sh, w)) /\
  (incomplete msg = false ->
   last4 (DiscordWebSocket._buffer o ++ msg) = ZLIB_SUFFIX /\
   (forall raw z text,
      decompress (DiscordWebSocket._zlib o) (DiscordWebSocket._buffer o ++ msg)
      = (Return raw, z) ->
      decode_utf8 raw = Return text ->
      let o' := DiscordWebSocket.set_buffer []
                  (DiscordWebSocket.set_zlib z
                     (DiscordWebSocket.set_buffer (DiscordWebSocket._buffer o ++ msg) o)) in
      DiscordWebSocket.received_message_bytes msg o w = (Return (Some text), o', w) /\
      DiscordWebSocket._buffer o' = [] /\
      DiscordWebSocket.received_message (Binary msg) o w
      = DiscordWebSocket.received_message_text text o' w) /\
   (forall raw z text,
      decompress (Shard._zlib sh) (Shard._buffer sh ++ msg) = (Return raw, z) ->
      decode_utf8 raw = Return text ->
      let sh' := Shard.set_buffer []
                   (Shard.set_zlib z (Shard.set_buffer (Shard._buffer sh ++ msg) sh)) in
      Shard._process_raw_data (Binary msg) sh w = (Return text, sh', w) /\
      Shard._buffer sh' = [])).
Proof.
  split; [|split].
  - intros Hne. destruct (incomplete msg) eqn:Hi; [reflexivity|].
    exfalso. apply Hne. now apply last4_app.
  - intros Hi. split.
    + unfold DiscordWebSocket.received_message, bind.
      now rewrite (received_message_bytes_incomplete msg o w Hi).
    + unfold Shard._process_raw_data, bind, modify, raise. now rewrite Hi.
  - intros Hi. split; [now apply last4_app|]. split.
    + intros raw z text Hz Hd o'.
      pose proof (received_message_bytes_complete msg raw z text o w Hi Hz Hd) as Hb.
      split; [exact Hb|]. split; [reflexivity|].
      unfold DiscordWebSocket.received_message, bind. now rewrite Hb.
    + intros raw z text Hz Hd sh'.
      split; [|reflexivity].
      unfold Shard._process_raw_data, bind, modify, get. rewrite Hi. cbn.
      rewrite Hz. cbn. unfold lift. now rewrite Hd.
Qed.

(** A message split over several chunks: the chunks before the last give
    nothing, the last one gives the decoding of the whole concatenation,
    and the buffer is empty again. *)
Lemma feed_chunks_reassembles (chunks : list (list byte)) (final raw : list byte)
    (z : zstream) (text : string) (o : DiscordWebSocket.obj) (w : World) :
  Forall (fun chunk => incomplete chunk = true) chunks ->
  incomplete final = false ->
  decompress (DiscordWebSocket._zlib o)
             (DiscordWebSocket._buffer o ++ concat chunks ++ final) = (Return raw, z) ->
  decode_utf8 raw = Return text ->
  result_of (feed_chunks (chunks ++ [final]) o w)
  = Return (replicate (length chunks) None ++ [Some text]) /\
  DiscordWebSocket._buffer (object_of (feed_chunks (chunks ++ [final]) o w)) = [].
Proof.
  intros Hall Hfin. revert o. induction Hall as [|chunk chunks Hc Hall IH]; intros o Hz Hd.
  - cbn [app concat feed_chunks length replicate] in *. unfold bind.
    rewrite (received_message_bytes_complete final raw z text o w Hfin Hz Hd).
    split; reflexivity.
  - assert (Hz' : decompress (DiscordWebSocket._zlib o)
                    ((DiscordWebSocket._buffer o ++ chunk) ++ concat chunks ++ final)
                  = (Return raw, z)).
    { rewrite <- Hz. f_equal. cbn [concat]. now rewrite <- !app_assoc. }
    destruct (IH (DiscordWebSocket.set_buffer (DiscordWebSocket._buffer o ++ chunk) o)
                 Hz' Hd) as [IHr IHb].
    change (feed_chunks ((chunk :: chunks) ++ [final]))
      with (r <- DiscordWebSocket.received_message_bytes chunk ;;
            rs <- feed_chunks (chunks ++ [final]) ;;
            ret (r :: rs)).
    unfold bind. rewrite (received_message_bytes_incomplete chunk o w Hc).
    destruct (feed_chunks (chunks ++ [final]) _ w) as [[r o'] w'].
    cbn [result_of object_of fst snd] in *. subst r. split; [reflexivity | exact IHb].
Qed.

End BinaryFrames.

Lemma binary_frames_witness :
  let o := @DiscordWebSocket.init Example.env Example.open_socket in
  let sh := @Shard.init Example.env "token" 0 0 1 false in
  incomplete [x01; x02; x03] = true /\
  DiscordWebSocket._buffer
    (object_of (DiscordWebSocket.received_message (Binary [x01; x02; x03]) o Example.world))
  = [x01; x02; x03] /\
  result_of (Shard._process_raw_data (Binary [x01; x02; x03]) sh Example.world)
  = Raise ValueError.
Proof.
  intros o sh.
  assert (Hi : incomplete [x01; x02; x03] = true) by reflexivity.
  split; [exact Hi|].
  destruct (@binary_frames Example.env [x01; x02; x03] o sh Example.world)
    as (_ & Hinc & _).
  destruct (Hinc Hi) as [Hd Hs]. rewrite Hd, Hs. split; reflexivity.
Defined.

(** C1 as stated fails for [Shard]: a first chunk without the marker, which
    [DiscordWebSocket.received_message] buffers and returns on, makes
    [Shard._process_raw_data] raise [ValueError], and the turn of the
    connection loop that called it ends with that exception. *)
Lemma shard_raises_on_partial_chunk :
  let o := @DiscordWebSocket.init Example.env Example.open_socket in
  let sh := @Shard.set_socket Example.env (Some Example.open_socket)
              (@Shard.init Example.env "token" 0 0 1 false) in
  let chunk := [x01; x02; x03] in
  last4 (DiscordWebSocket._buffer o ++ chunk) <> ZLIB_SUFFIX /\
  result_of (DiscordWebSocket.received_message (Binary chunk) o Example.world) = Return tt /\
  result_of (Shard._process_raw_data (Binary chunk) sh Example.world) = Raise ValueError /\
  result_of (Shard._connection_loop_turn BINARY (Binary chunk) sh Example.world)
  = Raise ValueError.
Proof. vm_compute. repeat split. discriminate. Qed.

(** ** The stored sequence *)

Section Sequence.
Context `{Env}.

Lemma log_receive_run (msg : string) (o : DiscordWebSocket.obj) (w : World) :
  exists w', DiscordWebSocket.log_receive msg o w = (Return tt, o, w')
             /\ futures w' = futures w.
Proof.
  unfold DiscordWebSocket.log_receive, bind, get, dispatch_call, modify_world, ret.
  destruct (DiscordWebSocket.debug_events o); eauto.
Qed.

(** [DiscordWebSocket.received_message]: a payload that carries the
    sequence number [n] leaves the stored sequence at [n], whatever it
    was, unless the payload invalidates the session. *)
Lemma dws_sequence_is_latest (msg : string) (payload : Payload.obj) (n : Z)
    (o : DiscordWebSocket.obj) (w : World) :
  Payload.s payload = Some n ->
  from_json msg = Return payload ->
  (Payload.op payload = 9%Z -> Payload.d payload = JBool true) ->
  DiscordWebSocket.sequence (object_of (DiscordWebSocket.received_message_text msg o w))
  = Some n.
Proof.
  intros Hs Hj Hinv.
  unfold DiscordWebSocket.received_message_text.
  destruct (log_receive_run msg o w) as (w1 & Hlog & _).
  rewrite (bind_run _ _ _ _ _ _ _ Hlog).
  erewrite bind_run by (rewrite lift_run, Hj; reflexivity).
  rewrite Hs, bool_decide_is_Some.
  assert (Hev : exists w2,
            (when truthy (match Payload.t payload with Some e => JStr e | None => JNull end)
             then dispatch_call "socket_event_type"
                    (match Payload.t payload with Some e => JStr e | None => JNull end))
              o w1 = (Return tt, o, w2)).
  { destruct (truthy _); eauto. }
  destruct Hev as (w2 & Hev). rewrite (bind_run _ _ _ _ _ _ _ Hev).
  erewrite bind_run by reflexivity.
  match goal with
  | |- DiscordWebSocket.sequence (object_of (?m _ _)) = _ =>
      enough (Hm : maintains (fun x => DiscordWebSocket.sequence x = Some n) m)
        by (apply Hm; reflexivity)
  end.
  unfold DiscordWebSocket.close, DiscordWebSocket.heartbeat,
    DiscordWebSocket.send_heartbeat, DiscordWebSocket.on_write_error,
    DiscordWebSocket._can_handle_close, DiscordWebSocket.cancel_heartbeat_task,
    DiscordWebSocket.on_ready, DiscordWebSocket.on_resumed, DiscordWebSocket.run_parser,
    DiscordWebSocket.dispatch_listeners.
  maintain; cbn; try assumption; try congruence.
  all: match goal with
       | Hop : (_ =? DiscordWebSocket.INVALIDATE_SESSION)%Z = true,
         Hi : _ = 9%Z -> _ |- _ =>
           apply Z.eqb_eq in Hop; specialize (Hi Hop); discriminate
       end.
Qed.

(** The same for [Shard._process_payload]; RECONNECT and a session that is
    not kept go through [disconnect], which clears the sequence. *)
Lemma shard_sequence_is_latest (payload : Payload.obj) (n : Z) (sh : Shard.obj) (w : World) :
  Payload.s payload = Some n ->
  Payload.op payload <> 7%Z ->
  (Payload.op payload = 9%Z -> truthy (Payload.d payload) = true) ->
  Shard.sequence (object_of (Shard._process_payload payload sh w)) = Some n.
Proof.
  intros Hs Hrec Hinv.
  unfold Shard._process_payload.
  rewrite Hs, bool_decide_is_Some.
  erewrite bind_run by reflexivity.
  match goal with
  | |- Shard.sequence (object_of (?m _ _)) = _ =>
      enough (Hm : maintains (fun x => Shard.sequence x = Some n) m)
        by (apply Hm; reflexivity)
  end.
  unfold Shard.dispatch_events, Shard.remove_dispatched, Shard.disconnect, Shard.heartbeat,
    Shard.identify, Shard.resume, Shard.send, Shard.on_socket.
  maintain; cbn; try assumption; try congruence; try discriminate.
  all: try match goal with
           | Hop : (_ =? Shard.RECONNECT)%Z = true |- _ =>
               apply Z.eqb_eq in Hop; contradiction
           end.
  all: match goal with
       | Hop : (_ =? Shard.INVALID_SESSION)%Z = true, Hi : _ = 9%Z -> _ |- _ =>
           apply Z.eqb_eq in Hop; specialize (Hi Hop); congruence
       end.
Qed.

(** C3, amended.  Processing a payload that carries a sequence number [n]
    stores [n], whatever the stored sequence was (it is assigned, not
    compared): so the stored sequence follows the numbers the gateway
    sends, and advances exactly when they do.  The exceptions are the
    payloads that end the session: INVALIDATE_SESSION with data other than
    [True] for [DiscordWebSocket.received_message]; RECONNECT, and
    INVALID_SESSION with false data, for [Shard._process_payload]. *)
Theorem sequence_is_latest (payload : Payload.obj) (n : Z) :
  Payload.s payload = Some n ->
  (forall msg o w,
     from_json msg = Return payload ->
     (Payload.op payload = 9%Z -> Payload.d payload = JBool true) ->
     DiscordWebSocket.sequence
       (object_of (DiscordWebSocket.received_message (Text msg) o w)) = Some n) /\
  (forall sh w,
     Payload.op payload <> 7%Z ->
     (Payload.op payload = 9%Z -> truthy (Payload.d payload) = true) ->
     Shard.sequence (object_of (Shard._process_payload payload sh w)) = Some n).
Proof.
  intros Hs. split.
  - intros msg o w Hj Hinv. now apply (dws_sequence_is_latest msg payload n o w).
  - intros sh w Hrec Hinv. now apply shard_sequence_is_latest.
Qed.

End Sequence.

Lemma sequence_is_latest_witness :
  let payload := Payload.mk 0 Example.empty_dict (Some 6%Z) (Some "X") in
  let o := @DiscordWebSocket.set_sequence Example.env (Some 7%Z)
             (@DiscordWebSocket.init Example.env Example.open_socket) in
  Payload.s payload = Some 6%Z /\
  DiscordWebSocket.sequence
    (object_of (DiscordWebSocket.received_message (Text "dispatch 6") o Example.world))
  = Some 6%Z.
Proof.
  intros payload o.
  assert (Hs : Payload.s payload = Some 6%Z) by reflexivity.
  split; [exact Hs|].
  destruct (@sequence_is_latest Example.env payload 6%Z Hs) as [Hd _].
  apply Hd; [reflexivity | intros Hop; discriminate Hop].
Defined.

(** C3 as stated fails: with 7 stored, a payload carrying 6 moves the stored
    sequence back to 6, in both classes; after 5, 7, 6, 9 it is 9. *)
Lemma sequence_moves_backward :
  let o := @DiscordWebSocket.set_sequence Example.env (Some 7%Z)
             (@DiscordWebSocket.init Example.env Example.open_socket) in
  let sh := @Shard.set_sequence Example.env (Some 7%Z)
              (@Shard.init Example.env "token" 0 0 1 false) in
  let payload (n : Z) := Payload.mk 0 Example.empty_dict (Some n) (Some "X") in
  DiscordWebSocket.received_message (Text "dispatch 6") o Example.world
  = (Return tt, DiscordWebSocket.set_sequence (Some 6%Z) o,
     mkWorld 100 100 ∅ [] [("socket_event_type", JStr "X")]) /\
  Shard._process_payload (payload 6%Z) sh Example.world
  = (Return tt, Shard.set_sequence (Some 6%Z) sh, Example.world) /\
  (6 < 7)%Z /\
  Shard.sequence
    (object_of
       ((Shard._process_payload (payload 5%Z) ;; Shard._process_payload (payload 7%Z) ;;
         Shard._process_payload (payload 6%Z) ;; Shard._process_payload (payload 9%Z))
          sh Example.world))
  = Some 9%Z.
Proof. vm_compute. repeat split. Qed.

(** ** An acknowledgement nobody waits for *)

Section UnexpectedAck.
Context `{Env}.

Lemma dws_unexpected_ack (msg : string) (payload : Payload.obj)
    (o : DiscordWebSocket.obj) (w : World) :
  Payload.op payload = 11%Z ->
  from_json msg = Return payload ->
  DiscordWebSocket._heartbeat_ack_received o = None ->
  let r := DiscordWebSocket.received_message (Text msg) o w in
  result_of r = Return tt /\
  object_of r = match Payload.s payload with
                | Some n => DiscordWebSocket.set_sequence (Some n) o
                | None => o
                end /\
  futures (world_of r) = futures w.
Proof.
  intros Hop Hj Hack r. subst r.
  unfold DiscordWebSocket.received_message, DiscordWebSocket.received_message_text.
  destruct (log_receive_run msg o w) as (w1 & Hlog & Hf1).
  rewrite (bind_run _ _ _ _ _ _ _ Hlog).
  erewrite bind_run by (rewrite lift_run, Hj; reflexivity).
  rewrite Hop.
  destruct (truthy _); destruct (Payload.s payload) as [n|];
    rewrite ?bool_decide_is_Some, ?bool_decide_is_Some_None;
    cbn; rewrite Hack; cbn; auto.
Qed.

Lemma shard_unexpected_ack (payload : Payload.obj) (sh : Shard.obj) (w : World) :
  Payload.op payload = 11%Z ->
  Shard._heartbeat_ack_received sh = None ->
  Shard._process_payload payload sh w
  = (Return tt,
     match Payload.s payload with
     | Some n => Shard.set_sequence (Some n) sh
     | None => sh
     end, w).
Proof.
  intros Hop Hack. unfold Shard._process_payload. rewrite Hop.
  destruct (Payload.s payload) as [n|];
    rewrite ?bool_decide_is_Some, ?bool_decide_is_Some_None;
    cbn; rewrite Hack; reflexivity.
Qed.

(** Nothing in the receive path creates the future: only the heartbeat
    loop does.  So no message, HELLO included, ends the state "no pending
    acknowledgement". *)
Lemma dws_receive_creates_no_ack (msg : frame) :
  maintains (fun o => DiscordWebSocket._heartbeat_ack_received o = None)
            (DiscordWebSocket.received_message msg).
Proof.
  unfold DiscordWebSocket.received_message, DiscordWebSocket.received_message_bytes,
    DiscordWebSocket.received_message_text, DiscordWebSocket.log_receive,
    DiscordWebSocket.close, DiscordWebSocket.heartbeat,
    DiscordWebSocket.send_heartbeat, DiscordWebSocket.on_write_error,
    DiscordWebSocket._can_handle_close, DiscordWebSocket.cancel_heartbeat_task,
    DiscordWebSocket.on_ready, DiscordWebSocket.on_resumed, DiscordWebSocket.run_parser,
    DiscordWebSocket.dispatch_listeners.
  maintain; cbn; try assumption; try congruence.
Qed.

Lemma shard_receive_creates_no_ack (payload : Payload.obj) :
  maintains (fun sh => Shard._heartbeat_ack_received sh = None)
            (Shard._process_payload payload).
Proof.
  unfold Shard._process_payload, Shard.dispatch_events, Shard.remove_dispatched,
    Shard.disconnect, Shard.heartbeat, Shard.identify, Shard.resume, Shard.send,
    Shard.on_socket.
  maintain; cbn; try assumption; try congruence; try discriminate.
Qed.

(** C10.  A HEARTBEAT_ACK processed while [_heartbeat_ack_received] is
    [None] changes nothing but the sequence number it may carry: no future
    is touched, the latency stays, the method returns.  That is the state
    in which the acknowledgement of the heartbeat sent on HELLO arrives,
    since processing HELLO leaves [_heartbeat_ack_received] at [None]. *)
Theorem unexpected_ack_is_ignored (payload : Payload.obj) :
  Payload.op payload = 11%Z ->
  (forall msg o w,
     from_json msg = Return payload ->
     DiscordWebSocket._heartbeat_ack_received o = None ->
     let r := DiscordWebSocket.received_message (Text msg) o w in
     result_of r = Return tt /\
     futures (world_of r) = futures w /\
     DiscordWebSocket.latency (object_of r) = DiscordWebSocket.latency o /\
     DiscordWebSocket._heartbeat_ack_received (object_of r) = None /\
     DiscordWebSocket.socket (object_of r) = DiscordWebSocket.socket o) /\
  (forall sh w,
     Shard._heartbeat_ack_received sh = None ->
     let r := Shard._process_payload payload sh w in
     result_of r = Return tt /\
     world_of r = w /\
     Shard.latency (object_of r) = Shard.latency sh /\
     Shard._heartbeat_ack_received (object_of r) = None /\
     Shard._socket (object_of r) = Shard._socket sh) /\
  (forall hello o w,
     DiscordWebSocket._heartbeat_ack_received o = None ->
     DiscordWebSocket._heartbeat_ack_received
       (object_of (DiscordWebSocket.received_message hello o w)) = None) /\
  (forall hello sh w,
     Shard._heartbeat_ack_received sh = None ->
     Shard._heartbeat_ack_received (object_of (Shard._process_payload hello sh w)) = None).
Proof.
  intros Hop. split; [|split; [|split]].
  - intros msg o w Hj Hack r.
    destruct (dws_unexpected_ack msg payload o w Hop Hj Hack) as (Hr & Ho & Hf).
    fold r in Hr, Ho, Hf. rewrite Ho.
    repeat split; try assumption; destruct (Payload.s payload); assumption || reflexivity.
  - intros sh w Hack r. subst r. rewrite (shard_unexpected_ack payload sh w Hop Hack).
    cbn. repeat split; destruct (Payload.s payload); assumption || reflexivity.
  - intros hello o w Hack. now apply dws_receive_creates_no_ack.
  - intros hello sh w Hack. now apply shard_receive_creates_no_ack.
Qed.

End UnexpectedAck.

(** The acknowledgement of the heartbeat that HELLO triggers, on a fresh
    connection. *)
Lemma unexpected_ack_is_ignored_witness :
  let o := @DiscordWebSocket.init Example.env Example.open_socket in
  let o1 := object_of (DiscordWebSocket.received_message (Text "hello") o Example.world) in
  let r := DiscordWebSocket.received_message (Text "heartbeat ack") o1 Example.world in
  Payload.op (Payload.mk 11 JNull None None) = 11%Z /\
  DiscordWebSocket._heartbeat_ack_received o1 = None /\
  result_of r = Return tt /\
  DiscordWebSocket.latency (object_of r) = DiscordWebSocket.latency o1.
Proof.
  intros o o1 r.
  assert (Hop : Payload.op (Payload.mk 11 JNull None None) = 11%Z) by reflexivity.
  assert (Hack : DiscordWebSocket._heartbeat_ack_received o1 = None) by reflexivity.
  split; [exact Hop|]. split; [exact Hack|].
  destruct (@unexpected_ack_is_ignored Example.env _ Hop) as (Hd & _).
  destruct (Hd "heartbeat ack" o1 Example.world eq_refl Hack) as (Hr & _ & Hl & _).
  split; [exact Hr | exact Hl].
Defined.

(** ** Heartbeats and the rate limiter *)

Section HeartbeatPriority.
Context `{Env}.

(** [DiscordWebSocket.heartbeat] writes to the socket directly: the rate
    limiter is left as it was and nothing sleeps. *)
Lemma dws_heartbeat_bypasses_ratelimiter (o : DiscordWebSocket.obj) (w : World) :
  let r := DiscordWebSocket.heartbeat o w in
  DiscordWebSocket._rate_limiter (object_of r) = DiscordWebSocket._rate_limiter o /\
  sleeps (world_of r) = sleeps w /\
  now (world_of r) = now w.
Proof.
  unfold DiscordWebSocket.heartbeat, DiscordWebSocket.send_heartbeat,
    DiscordWebSocket.on_write_error, DiscordWebSocket._can_handle_close,
    Socket.send_str, catch, zoom, bind, get, modify, perf_counter, raise, ret.
  cbn. destruct (Socket.fault (DiscordWebSocket.socket o)) as [e|]; cbn; [|auto].
  destruct e; cbn; auto.
  destruct (not_in_fatal _); cbn; auto.
Qed.

(** [Shard.heartbeat] goes through [Shard.send], whose first step on an open
    socket is [self._rate_limiter.block()]. *)
Lemma shard_heartbeat_blocks (sh : Shard.obj) (w : World) :
  Shard._socket sh <> None ->
  exists r' w',
    GatewayRatelimiter.block (Shard._rate_limiter sh) w = (Return tt, r', w') /\
    Shard._rate_limiter (object_of (Shard.heartbeat sh w)) = r' /\
    sleeps (world_of (Shard.heartbeat sh w)) = sleeps w'.
Proof.
  intros Hsock.
  destruct (block_returns (Shard._rate_limiter sh) w) as (r' & w' & Hb).
  exists r', w'. split; [exact Hb|].
  destruct sh as [sock tok ls ps ct ht ack hi st lat ints sid url sq shid shc dbg act sta z
                  buf rl].
  cbn [Shard._socket Shard._rate_limiter] in *.
  destruct sock as [sk|]; [|contradiction].
  unfold Shard.heartbeat, Shard.send, Shard.on_socket, Socket.send_str,
    zoom, bind, get, modify, perf_counter, raise, ret, dispatch_call, modify_world.
  cbn -[GatewayRatelimiter.block]. rewrite Hb.
  destruct dbg; cbn; destruct (Socket.fault sk); cbn; auto.
Qed.

End HeartbeatPriority.

(** C4 fails for [Shard]: a heartbeat of a shard takes a slot of the rate
    limiter (110 slots become 109), and with no slot left it sleeps for the
    rest of the window (60 seconds here) before it writes; the heartbeat of
    [DiscordWebSocket] in the same situation leaves the limiter alone and
    does not sleep. *)
Lemma shard_heartbeat_takes_ratelimiter_slot :
  let sh := @Shard.set_socket Example.env (Some Example.open_socket)
              (@Shard.init Example.env "token" 0 0 1 false) in
  let spent := GatewayRatelimiter.mk 110 0 100 60 in
  let sh0 := Shard.set_rate_limiter spent sh in
  let o0 := @DiscordWebSocket.set_rate_limiter Example.env spent
              (@DiscordWebSocket.init Example.env Example.open_socket) in
  GatewayRatelimiter.remaining (Shard._rate_limiter sh) = 110%Z /\
  GatewayRatelimiter.remaining
    (Shard._rate_limiter (object_of (Shard.heartbeat sh Example.world))) = 109%Z /\
  sleeps (world_of (Shard.heartbeat sh0 Example.world)) = [60%Q] /\
  sleeps (world_of (DiscordWebSocket.heartbeat o0 Example.world)) = [] /\
  DiscordWebSocket._rate_limiter (object_of (DiscordWebSocket.heartbeat o0 Example.world))
  = spent.
Proof. vm_compute. repeat split. Qed.

(** ** Voice: IP discovery *)

Section Bytes.


Lemma Z_of_byte_range (b : byte) : (0 <= Z_of_byte b < 256)%Z.
Proof.
  unfold Z_of_byte. pose proof (Byte.to_N_bounded b). lia.
Qed.



Lemma length_be_bytes (size : nat) (v : Z) : length (be_bytes size v) = size.
Proof. induction size as [|k IH]; cbn; [reflexivity | now rewrite IH]. Qed.





End Bytes.

Section IPDiscovery.
Context `{Env}.
Import DiscordVoiceWebSocket.



End IPDiscovery.


(** ** Voice: latency samples *)

Section VoiceLatency.
Context `{Env}.
Import DiscordVoiceWebSocket.

(** What a message does to the list of samples: the acknowledgement of a
    pending heartbeat empties a list of more than 20 entries and appends
    its sample; anything else leaves the list alone. *)
Lemma received_message_latencies (datagram : list byte) (msg : Payload.obj)
    (o : obj) (w : World) :
  _latencies (object_of (received_message datagram msg o w))
  = match recorded (VoiceMessage datagram msg) o w with
    | [] => _latencies o
    | sample :: _ =>
        (if (20 <? length (_latencies o))%nat then [] else _latencies o) ++ [sample]
    end.
Proof.
  unfold recorded. destruct (Z.eqb_spec (Payload.op msg) HEARTBEAT_ACK) as [Hop|Hop].
  - unfold received_message. rewrite Hop.
    unfold bind, set_result, get_world, get, perf_counter, modify, modify_world, ret,
      raise, lift.
    cbn -[Nat.ltb]. destruct (_heartbeat_ack_received o) as [ack|]; cbn -[Nat.ltb].
    + destruct (futures w !! ack) as [[]|]; cbn -[Nat.ltb]; try reflexivity.
      destruct (20 <? length (_latencies o))%nat; reflexivity.
    + destruct (_hook o msg); reflexivity.
  - match goal with
    | |- _latencies (object_of (?m ?x ?y)) = _ =>
        enough (Hm : maintains (fun x => _latencies x = _latencies o) m)
          by (apply Hm; reflexivity)
    end.
    unfold received_message, initial_connection, load_secret_key, speak, select_protocol,
      send_as_json, on_connection.
    maintain; cbn; try assumption; try congruence.
    all: match goal with
         | Heq : (_ =? HEARTBEAT_ACK)%Z = true |- _ =>
             apply Z.eqb_eq in Heq; contradiction
         end.
Qed.

Lemma heartbeat_loop_turn_latencies (o : obj) (w : World) :
  _latencies (object_of (_heartbeat_loop_turn o w)) = _latencies o.
Proof.
  enough (Hm : maintains (fun x => _latencies x = _latencies o) _heartbeat_loop_turn)
    by (apply Hm; reflexivity).
  unfold _heartbeat_loop_turn, heartbeat, send_as_json.
  maintain; cbn; assumption.
Qed.

(** A step leaves the list a suffix of what it was plus what the step
    records. *)
Lemma voice_do_suffix (step : voice_step) (o : obj) (w : World) :
  _latencies (object_of (voice_do step o w))
  `suffix_of` (_latencies o ++ recorded step o w).
Proof.
  destruct step as [|dt|datagram msg].
  - cbn [voice_do recorded]. rewrite heartbeat_loop_turn_latencies, app_nil_r. reflexivity.
  - cbn. rewrite app_nil_r. reflexivity.
  - cbn [voice_do]. rewrite received_message_latencies.
    destruct (recorded (VoiceMessage datagram msg) o w) as [|sample others] eqn:Hrec.
    + rewrite app_nil_r. reflexivity.
    + assert (others = []) as ->.
      { unfold recorded in Hrec.
        repeat match type of Hrec with
               | context [match ?x with _ => _ end] => destruct x
               | context [if ?x then _ else _] => destruct x
               end; congruence. }
      destruct (20 <? length (_latencies o))%nat.
      * apply suffix_app_r. reflexivity.
      * reflexivity.
Qed.

Lemma voice_run_suffix (steps : list voice_step) (o : obj) (w : World) :
  _latencies (voice_run steps o w).1 `suffix_of` (_latencies o ++ history steps o w).
Proof.
  revert o w. induction steps as [|step rest IH]; intros o w.
  - cbn. rewrite app_nil_r. reflexivity.
  - cbn [voice_run history]. etransitivity; [apply IH|].
    rewrite app_assoc. apply suffix_app, voice_do_suffix.
Qed.

Lemma average_latency_is_mean (o : obj) :
  (_latencies o = [] -> average_latency o = Inf) /\
  (_latencies o <> [] ->
   exists q, average_latency o = Finite q /\
             (q * inject_Z (Z.of_nat (length (_latencies o)))
              == fold_left Qplus (_latencies o) 0)%Q).
Proof.
  unfold average_latency. destruct (_latencies o) as [|x l] eqn:E.
  - split; [reflexivity | congruence].
  - split; [discriminate|]. intros _. eexists. split; [reflexivity|].
    rewrite Qmult_comm. apply Qmult_div_r. intros Hz.
    assert (Hn : (0 < Z.of_nat (length (x :: l)))%Z) by (cbn [length]; lia).
    revert Hz Hn. generalize (Z.of_nat (length (x :: l))). intros n Hz Hn.
    unfold Qeq, inject_Z in Hz. cbn [Qnum Qden] in Hz. lia.
Qed.

(** What the code does with the samples.  After any run of the heartbeat
    loop and of received messages the list is a suffix of all the samples
    recorded; each acknowledged heartbeat appends its sample, after
    emptying a list of more than 20 entries; and [average_latency] is the
    mean of the stored samples, [inf] when there are none. *)
Theorem voice_latency_samples (steps : list voice_step) (o : obj) (w : World) :
  let final := (voice_run steps o w).1 in
  _latencies final `suffix_of` (_latencies o ++ history steps o w) /\
  (forall datagram msg ack w',
     Payload.op msg = HEARTBEAT_ACK ->
     _heartbeat_ack_received final = Some ack ->
     futures w' !! ack = Some Pending ->
     _latencies (object_of (received_message datagram msg final w'))
     = (if (20 <? length (_latencies final))%nat then [] else _latencies final)
         ++ [(perf w' - _heartbeat_sent_time final)%Q]) /\
  (_latencies final = [] -> average_latency final = Inf) /\
  (_latencies final <> [] ->
   exists q, average_latency final = Finite q /\
             (q * inject_Z (Z.of_nat (length (_latencies final)))
              == fold_left Qplus (_latencies final) 0)%Q).
Proof.
  intros final. split; [apply voice_run_suffix|]. split.
  - intros datagram msg ack w' Hop Hack Hpend.
    rewrite received_message_latencies. unfold recorded.
    rewrite Hop, Z.eqb_refl, Hack, Hpend. reflexivity.
  - apply average_latency_is_mean.
Qed.

End VoiceLatency.

Lemma voice_latency_samples_witness :
  let client := VoiceClient.mk JNull JNull JNull "" 0 JNull JNull [] [] in
  let o := DiscordVoiceWebSocket.init Example.open_socket (fun _ => Return tt) client in
  let final := (@voice_run Example.env (heartbeat_rounds 3) o Example.world).1 in
  DiscordVoiceWebSocket._latencies final <> [] /\
  DiscordVoiceWebSocket._latencies final
  `suffix_of` (DiscordVoiceWebSocket._latencies o
               ++ @history Example.env (heartbeat_rounds 3) o Example.world) /\
  exists q, DiscordVoiceWebSocket.average_latency final = Finite q /\
            (q * inject_Z (Z.of_nat (length (DiscordVoiceWebSocket._latencies final)))
             == fold_left Qplus (DiscordVoiceWebSocket._latencies final) 0)%Q.
Proof.
  intros client o final.
  assert (Hne : DiscordVoiceWebSocket._latencies final <> [])
    by (vm_compute; discriminate).
  destruct (@voice_latency_samples Example.env (heartbeat_rounds 3) o Example.world)
    as (Hsuf & _ & _ & Havg).
  split; [exact Hne|]. split; [exact Hsuf|]. exact (Havg Hne).
Defined.

(** C8.  The code does not keep the rolling window of the last 20 samples
    that the claim, and the docstring of [average_latency], describe.
    With 22 heartbeats, the n-th acknowledged after n seconds: after 21
    acknowledgements the list holds 21 samples, one more than 20, and
    [average_latency] is the mean of all 21; the 22nd acknowledgement
    empties the list, which then holds the last sample alone, so that
    [average_latency] is 22 where the mean of the last 20 samples is 25/2. *)
Lemma voice_latency_window_not_rolling :
  let client := VoiceClient.mk JNull JNull JNull "" 0 JNull JNull [] [] in
  let o := DiscordVoiceWebSocket.init Example.open_socket (fun _ => Return tt) client in
  let after (n : nat) := (@voice_run Example.env (heartbeat_rounds n) o Example.world).1 in
  let samples := @history Example.env (heartbeat_rounds 22) o Example.world in
  length (DiscordVoiceWebSocket._latencies (after 21%nat)) = 21%nat /\
  DiscordVoiceWebSocket._latencies (after 22%nat) = [22%Q] /\
  length samples = 22%nat /\
  (exists q, DiscordVoiceWebSocket.average_latency (after 21%nat) = Finite q /\
             (q == 11)%Q) /\
  (exists q, DiscordVoiceWebSocket.average_latency (after 22%nat) = Finite q /\
             (q == 22)%Q) /\
  (fold_left Qplus (drop 2 samples) 0 / 20 == 25 # 2)%Q.
Proof.
  vm_compute. repeat split; try (eexists; split; [reflexivity|]; reflexivity).
Qed.

(** ** Event waiters *)

Section Listeners.
Context {O : Type}.

Lemma enumerate_app {A} (l k : list A) :
  enumerate (l ++ k) = enumerate l ++ imap (fun i x => (length l + i, x)%nat) k.
Proof. unfold enumerate. now rewrite imap_app. Qed.

Lemma enumerate_snoc {A} (l : list A) (x : A) :
  enumerate (l ++ [x]) = enumerate l ++ [(length l, x)].
Proof. rewrite enumerate_app. cbn. now rewrite Nat.add_0_r. Qed.

Lemma map_snd_enumerate {A} (l : list A) : map snd (enumerate l) = l.
Proof.
  unfold enumerate. apply list_eq. intros i.
  rewrite list_lookup_fmap, list_lookup_imap. now destruct (l !! i).
Qed.

Lemma map_fst_enumerate {A} (l : list A) : map fst (enumerate l) = seq 0 (length l).
Proof.
  unfold enumerate. apply list_eq. intros i.
  rewrite list_lookup_fmap, list_lookup_imap.
  destruct (l !! i) as [x|] eqn:E; cbn.
  - symmetry. apply lookup_seq. split; [reflexivity|]. now apply lookup_lt_Some in E.
  - symmetry. apply lookup_seq_ge. now apply lookup_ge_None in E.
Qed.

Lemma map_future_enumerate (l : list EventListener) :
  map (fun p : nat * EventListener => future p.2) (enumerate l) = map future l.
Proof. rewrite <- (map_snd_enumerate l) at 2. now rewrite map_map. Qed.

Lemma Forall_enumerate {A} (P : A -> Prop) (l : list A) :
  Forall P l -> Forall (fun p : nat * A => P p.2) (enumerate l).
Proof.
  intros Hl. apply Forall_forall. intros p Hp. rewrite Forall_forall in Hl. apply Hl.
  rewrite <- (map_snd_enumerate l). apply list_elem_of_In, in_map, list_elem_of_In, Hp.
Qed.

(** The scan of a list in two parts. *)
Lemma scan_listeners_app (ev : option string) (data : json)
    (es1 es2 : list (nat * EventListener)) (removed : list nat) (o : O) (w : World) :
  scan_listeners ev data (es1 ++ es2) removed o w
  = bind (scan_listeners ev data es1 removed)
         (fun removed' => scan_listeners ev data es2 removed') o w.
Proof.
  revert removed o w. induction es1 as [|[index entry] rest IH]; intros removed o w.
  - reflexivity.
  - cbn [app scan_listeners].
    destruct (negb _); [apply IH|].
    rewrite bind_assoc. apply bind_ext. intros c o1 w1.
    destruct c; [apply IH|].
    destruct (predicate entry data) as [[|]|exc].
    + rewrite bind_assoc. apply bind_ext. intros v o2 w2.
      rewrite bind_assoc. apply bind_ext. intros u o3 w3. apply IH.
    + apply IH.
    + rewrite bind_assoc. apply bind_ext. intros u o2 w2. apply IH.
Qed.

Lemma set_result_run (f : nat) (v : json) (o : O) (w : World) :
  set_result f v o w
  = match futures w !! f with
    | Some Pending => (Return tt, o, set_futures (<[f := Resolved v]> (futures w)) w)
    | _ => (Raise InvalidStateError, o, w)
    end.
Proof.
  unfold set_result, bind, get_world. destruct (futures w !! f) as [[]|]; reflexivity.
Qed.

Lemma set_exception_run (f : nat) (e : exn) (o : O) (w : World) :
  set_exception f e o w
  = match futures w !! f with
    | Some Pending => (Return tt, o, set_futures (<[f := Rejected e]> (futures w)) w)
    | _ => (Raise InvalidStateError, o, w)
    end.
Proof.
  unfold set_exception, bind, get_world. destruct (futures w !! f) as [[]|]; reflexivity.
Qed.

(** What a scan can do: it leaves the object alone, touches no future
    but those of the listeners it visits, and the indices it adds to
    [removed] are indices of the list, in increasing order. *)
Lemma scan_listeners_frame (ev : option string) (data : json)
    (entries : list (nat * EventListener)) (removed : list nat) (o : O) (w : World) :
  let r := scan_listeners ev data entries removed o w in
  object_of r = o /\
  (forall f, f ∉ map (fun p => future p.2) entries ->
             futures (world_of r) !! f = futures w !! f) /\
  (forall res, result_of r = Return res ->
               exists extra, res = removed ++ extra /\
                             extra `sublist_of` map fst entries).
Proof.
  revert removed w. induction entries as [|[index entry] rest IH]; intros removed w.
  - cbn. split; [reflexivity|]. split; [reflexivity|].
    intros res [= <-]. exists []. now rewrite app_nil_r.
  - cbn [scan_listeners map fst snd].
    assert (Hskip : forall removed' w',
              (forall f, f ∉ future entry :: map (fun p => future p.2) rest ->
                         futures w' !! f = futures w !! f) ->
              (exists pre, removed' = removed ++ pre /\ pre `sublist_of` [index]) ->
              let r := scan_listeners ev data rest removed' o w' in
              object_of r = o /\
              (forall f, f ∉ future entry :: map (fun p => future p.2) rest ->
                         futures (world_of r) !! f = futures w !! f) /\
              (forall res, result_of r = Return res ->
                           exists extra, res = removed ++ extra /\
                                         extra `sublist_of` index :: map fst rest)).
    { intros removed' w' Hw' (pre & -> & Hpre) r.
      destruct (IH (removed ++ pre) w') as (Ho & Hf & Hr). fold r in Ho, Hf, Hr.
      split; [exact Ho|]. split.
      - intros f Hnotin. rewrite Hf; [now apply Hw'|].
        intros Hin. apply Hnotin. now right.
      - intros res Hres. destruct (Hr res Hres) as (extra & -> & Hextra).
        exists (pre ++ extra). split; [now rewrite app_assoc|].
        change (index :: map fst rest) with ([index] ++ map fst rest).
        now apply sublist_app. }
    assert (Hraise : forall (e : exn),
              let r : outcome (list nat) * O * World := (Raise e, o, w) in
              object_of r = o /\
              (forall f, f ∉ future entry :: map (fun p => future p.2) rest ->
                         futures (world_of r) !! f = futures w !! f) /\
              (forall res, result_of r = Return res ->
                           exists extra, res = removed ++ extra /\
                                         extra `sublist_of` index :: map fst rest)).
    { intros e r. split; [reflexivity|]. split; [reflexivity|]. intros res Hres.
      discriminate Hres. }
    assert (Hupd : forall x f,
              f ∉ future entry :: map (fun p => future p.2) rest ->
              futures (set_futures (<[future entry := x]> (futures w)) w) !! f
              = futures w !! f).
    { intros x f Hnotin. cbn. apply lookup_insert_ne. intros Heq. apply Hnotin.
      rewrite <- Heq. apply list_elem_of_here. }
    destruct (negb _).
    { apply Hskip; [reflexivity|]. exists []. rewrite app_nil_r. split; [reflexivity|].
      apply sublist_nil_l. }
    erewrite (bind_run (cancelled (future entry))) by reflexivity.
    destruct (match futures w !! future entry with Some Cancelled => true | _ => false end).
    { apply Hskip; [reflexivity|]. exists [index]. split; reflexivity. }
    destruct (predicate entry data) as [[|]|exc].
    + assert (Hset : forall v,
                let r := (set_result (future entry) v ;;
                          scan_listeners ev data rest (removed ++ [index])) o w in
                object_of r = o /\
                (forall f, f ∉ future entry :: map (fun p => future p.2) rest ->
                           futures (world_of r) !! f = futures w !! f) /\
                (forall res, result_of r = Return res ->
                             exists extra, res = removed ++ extra /\
                                           extra `sublist_of` index :: map fst rest)).
      { intros v.
        destruct (futures w !! future entry) as [x|] eqn:Hf; [destruct x|].
        - erewrite bind_run by (rewrite set_result_run, Hf; reflexivity).
          apply Hskip; [apply Hupd|]. exists [index]. split; reflexivity.
        - erewrite bind_raise by (rewrite set_result_run, Hf; reflexivity). apply Hraise.
        - erewrite bind_raise by (rewrite set_result_run, Hf; reflexivity). apply Hraise.
        - erewrite bind_raise by (rewrite set_result_run, Hf; reflexivity). apply Hraise.
        - erewrite bind_raise by (rewrite set_result_run, Hf; reflexivity). apply Hraise. }
      destruct (result entry) as [tr|].
      * destruct (tr data) as [v|e] eqn:Htr.
        -- erewrite bind_run by (rewrite lift_run; reflexivity). apply Hset.
        -- erewrite bind_raise by (rewrite lift_run; reflexivity). apply Hraise.
      * erewrite bind_run by reflexivity. apply Hset.
    + apply Hskip; [reflexivity|]. exists []. rewrite app_nil_r. split; [reflexivity|].
      apply sublist_nil_l.
    + destruct (futures w !! future entry) as [x|] eqn:Hf; [destruct x|].
      * erewrite bind_run by (rewrite set_exception_run, Hf; reflexivity).
        apply Hskip; [apply Hupd|]. exists [index]. split; reflexivity.
      * erewrite bind_raise by (rewrite set_exception_run, Hf; reflexivity). apply Hraise.
      * erewrite bind_raise by (rewrite set_exception_run, Hf; reflexivity). apply Hraise.
      * erewrite bind_raise by (rewrite set_exception_run, Hf; reflexivity). apply Hraise.
      * erewrite bind_raise by (rewrite set_exception_run, Hf; reflexivity). apply Hraise.
Qed.

(** With every visited waiter pending or cancelled, on a future of its
    own, and transforms that return, the scan runs to its end. *)
Lemma scan_listeners_returns (ev : option string) (data : json)
    (entries : list (nat * EventListener)) (removed : list nat) (o : O) (w : World) :
  NoDup (map (fun p => future p.2) entries) ->
  Forall (fun p => futures w !! future p.2 = Some Pending \/
                   futures w !! future p.2 = Some Cancelled) entries ->
  Forall (fun p => forall tr, result p.2 = Some tr -> exists v, tr data = Return v)
         entries ->
  exists res, result_of (scan_listeners ev data entries removed o w) = Return res.
Proof.
  revert removed w. induction entries as [|[index entry] rest IH];
    intros removed w Hnd Hst Htr.
  - eexists. reflexivity.
  - cbn [map snd] in Hnd. apply NoDup_cons in Hnd as [Hfresh Hnd].
    apply Forall_cons in Hst as [Hhead Hst]. apply Forall_cons in Htr as [Hhtr Htr].
    cbn [snd] in Hhead, Hhtr.
    assert (Hnext : forall x removed',
              exists res,
                result_of (scan_listeners ev data rest removed' o
                             (set_futures (<[future entry := x]> (futures w)) w))
                = Return res).
    { intros x removed'. apply IH; [exact Hnd| |exact Htr].
      apply Forall_forall. intros p Hp. rewrite Forall_forall in Hst.
      specialize (Hst p Hp). cbn [futures set_futures].
      rewrite lookup_insert_ne; [exact Hst|].
      intros Heq. apply Hfresh. rewrite Heq.
      apply list_elem_of_In, in_map_iff. exists p.
      split; [reflexivity | now apply list_elem_of_In]. }
    cbn [scan_listeners].
    destruct (negb _); [now apply IH|].
    erewrite (bind_run (cancelled (future entry))) by reflexivity.
    destruct Hhead as [Hf|Hf]; rewrite Hf; [|now apply IH].
    destruct (predicate entry data) as [[|]|exc].
    + destruct (result entry) as [tr|].
      * destruct (Hhtr tr eq_refl) as (v & Hv).
        erewrite bind_run by (rewrite lift_run, Hv; reflexivity).
        erewrite bind_run by (rewrite set_result_run, Hf; reflexivity).
        apply Hnext.
      * erewrite bind_run by reflexivity.
        erewrite bind_run by (rewrite set_result_run, Hf; reflexivity).
        apply Hnext.
    + now apply IH.
    + erewrite bind_run by (rewrite set_exception_run, Hf; reflexivity).
      apply Hnext.
Qed.

End Listeners.

Section Removal.
Context {A : Type}.

Lemma del_reversed_snoc (removed : list nat) (l : list A) (x : A) :
  del_reversed (removed ++ [length l]) (l ++ [x]) = del_reversed removed l.
Proof.
  unfold del_reversed. rewrite reverse_snoc. cbn [foldl].
  now rewrite delete_middle, app_nil_r.
Qed.

(** Indices of [l], in increasing order, remove nothing of what follows [l]. *)
Lemma del_reversed_app (removed : list nat) (l k : list A) :
  removed `sublist_of` seq 0 (length l) ->
  del_reversed removed (l ++ k) = del_reversed removed l ++ k.
Proof.
  revert removed k. induction l as [|x l IH] using rev_ind; intros removed k Hsub.
  - cbn in Hsub. apply sublist_nil_r in Hsub as ->. reflexivity.
  - rewrite length_app in Hsub. cbn [length] in Hsub.
    rewrite Nat.add_1_r, seq_S in Hsub. cbn [Nat.add] in Hsub.
    apply sublist_app_r in Hsub as (r1 & r2 & -> & Hr1 & Hr2).
    apply sublist_cons_r in Hr2 as [Hr2|(r2' & -> & Hr2)].
    + apply sublist_nil_r in Hr2 as ->. rewrite app_nil_r.
      rewrite <- app_assoc, (IH r1 ([x] ++ k) Hr1), (IH r1 [x] Hr1).
      now rewrite <- app_assoc.
    + apply sublist_nil_r in Hr2 as ->.
      rewrite del_reversed_snoc.
      unfold del_reversed at 1. rewrite reverse_snoc. cbn [foldl].
      rewrite <- app_assoc. cbn [app]. rewrite delete_middle.
      apply (IH r1 k Hr1).
Qed.

Lemma del_reversed_sublist (removed : list nat) (l : list A) :
  del_reversed removed l `sublist_of` l.
Proof.
  unfold del_reversed. generalize (reverse removed). intros js. revert l.
  induction js as [|j js IH]; intros l; cbn [foldl].
  - reflexivity.
  - etransitivity; [apply IH | apply sublist_delete].
Qed.

End Removal.

Section Waiters.
Context `{Env}.
Import DiscordWebSocket.

(** A dispatch leaves alone the futures that no registered waiter holds. *)
Lemma dispatch_listeners_frame (ev : option string) (data : json) (o : obj) (w : World)
    (f : nat) :
  f ∉ map future (_dispatch_listeners o) ->
  futures (world_of (dispatch_listeners ev data o w)) !! f = futures w !! f.
Proof.
  intros Hf. unfold dispatch_listeners.
  erewrite bind_run by reflexivity.
  destruct (scan_listeners_frame ev data (enumerate (_dispatch_listeners o)) [] o w)
    as (_ & Hfr & _).
  specialize (Hfr f).
  assert (Hmap : map (fun x : nat * EventListener => future x.2)
                     (enumerate (_dispatch_listeners o))
                 = map future (_dispatch_listeners o)).
  { rewrite <- (map_snd_enumerate (_dispatch_listeners o)) at 2. now rewrite map_map. }
  rewrite Hmap in Hfr. specialize (Hfr Hf).
  unfold bind.
  destruct (scan_listeners ev data (enumerate (_dispatch_listeners o)) [] o w)
    as [[[res|e] o'] w']; exact Hfr.
Qed.

(** The scan of the waiters registered before the last one. *)
Lemma scan_earlier_waiters (X : string) (data : json) (ls : list EventListener)
    (o : obj) (w : World) (f : nat) :
  f ∉ map future ls ->
  NoDup (map future ls) ->
  Forall (fun l => futures w !! future l = Some Pending \/
                   futures w !! future l = Some Cancelled) ls ->
  Forall (fun l => forall tr, result l = Some tr -> exists v, tr data = Return v) ls ->
  exists removed w',
    scan_listeners (Some X) data (enumerate ls) [] o w = (Return removed, o, w') /\
    removed `sublist_of` seq 0 (length ls) /\
    futures w' !! f = futures w !! f.
Proof.
  intros Hf Hnd Hst Htr.
  destruct (scan_listeners_returns (Some X) data (enumerate ls) [] o w) as (removed & Hres).
  { now rewrite map_future_enumerate. }
  { now apply (Forall_enumerate
                 (fun l => futures w !! future l = Some Pending \/
                           futures w !! future l = Some Cancelled)). }
  { now apply (Forall_enumerate
                 (fun l => forall tr, result l = Some tr -> exists v, tr data = Return v)). }
  destruct (scan_listeners_frame (Some X) data (enumerate ls) [] o w) as (Ho & Hfr & Hsub).
  rewrite map_future_enumerate in Hfr. specialize (Hfr f Hf).
  destruct (Hsub removed Hres) as (extra & Hextra & Hsl).
  cbn [app] in Hextra. subst extra. rewrite map_fst_enumerate in Hsl.
  destruct (scan_listeners (Some X) data (enumerate ls) [] o w) as [[r o'] w'].
  cbn [result_of object_of world_of fst snd] in *. subst r o'.
  exists removed, w'. auto.
Qed.

(** A pending waiter at the end of the list whose predicate holds is
    resolved with the data, or with its transform of the data, and removed. *)
Lemma dispatch_listeners_resolves (X : string) (data v : json) (ls : list EventListener)
    (e : EventListener) (o : obj) (w : World) :
  _dispatch_listeners o = ls ++ [e] ->
  event e = X ->
  futures w !! future e = Some Pending ->
  future e ∉ map future ls ->
  NoDup (map future ls) ->
  Forall (fun l => futures w !! future l = Some Pending \/
                   futures w !! future l = Some Cancelled) ls ->
  Forall (fun l => forall tr, result l = Some tr -> exists v, tr data = Return v) ls ->
  predicate e data = Return true ->
  match result e with Some tr => tr data = Return v | None => v = data end ->
  let r := dispatch_listeners (Some X) data o w in
  result_of r = Return tt /\
  futures (world_of r) !! future e = Some (Resolved v) /\
  _dispatch_listeners (object_of r) `sublist_of` ls.
Proof.
  intros Hl He Hp Hfresh Hnd Hst Htr Hpred Hv r. subst r.
  destruct (scan_earlier_waiters X data ls o w (future e) Hfresh Hnd Hst Htr)
    as (removed & w' & Hscan & Hsub & Hfr).
  unfold dispatch_listeners.
  erewrite bind_run by reflexivity.
  rewrite Hl, enumerate_snoc.
  erewrite bind_run.
  2:{ rewrite scan_listeners_app. erewrite bind_run by exact Hscan.
      cbn [scan_listeners]. rewrite He, bool_decide_eq_true_2 by reflexivity.
      cbn [negb].
      erewrite (bind_run (cancelled (future e))) by reflexivity.
      rewrite Hfr, Hp, Hpred.
      destruct (result e) as [tr|].
      - erewrite bind_run by (rewrite lift_run, Hv; reflexivity).
        erewrite bind_run by (rewrite set_result_run, Hfr, Hp; reflexivity).
        reflexivity.
      - subst v. erewrite bind_run by reflexivity.
        erewrite bind_run by (rewrite set_result_run, Hfr, Hp; reflexivity).
        reflexivity. }
  cbn [modify result_of object_of world_of fst snd _dispatch_listeners
       set_dispatch_listeners futures set_futures].
  rewrite Hl, del_reversed_snoc, lookup_insert_eq.
  split; [reflexivity|]. split; [reflexivity|]. apply del_reversed_sublist.
Qed.

(** A waiter whose predicate does not hold stays, with its future pending. *)
Lemma dispatch_listeners_keeps (X : string) (data : json) (ls : list EventListener)
    (e : EventListener) (o : obj) (w : World) :
  _dispatch_listeners o = ls ++ [e] ->
  event e = X ->
  futures w !! future e = Some Pending ->
  future e ∉ map future ls ->
  NoDup (map future ls) ->
  Forall (fun l => futures w !! future l = Some Pending \/
                   futures w !! future l = Some Cancelled) ls ->
  Forall (fun l => forall tr, result l = Some tr -> exists v, tr data = Return v) ls ->
  predicate e data = Return false ->
  let r := dispatch_listeners (Some X) data o w in
  result_of r = Return tt /\
  futures (world_of r) !! future e = Some Pending /\
  exists kept, _dispatch_listeners (object_of r) = kept ++ [e] /\ kept `sublist_of` ls.
Proof.
  intros Hl He Hp Hfresh Hnd Hst Htr Hpred r. subst r.
  destruct (scan_earlier_waiters X data ls o w (future e) Hfresh Hnd Hst Htr)
    as (removed & w' & Hscan & Hsub & Hfr).
  unfold dispatch_listeners.
  erewrite bind_run by reflexivity.
  rewrite Hl, enumerate_snoc.
  erewrite bind_run.
  2:{ rewrite scan_listeners_app. erewrite bind_run by exact Hscan.
      cbn [scan_listeners]. rewrite He, bool_decide_eq_true_2 by reflexivity.
      cbn [negb].
      erewrite (bind_run (cancelled (future e))) by reflexivity.
      rewrite Hfr, Hp, Hpred. reflexivity. }
  cbn [modify result_of object_of world_of fst snd _dispatch_listeners
       set_dispatch_listeners].
  rewrite Hl, (del_reversed_app removed ls [e] Hsub), Hfr.
  split; [reflexivity|]. split; [exact Hp|].
  exists (del_reversed removed ls). split; [reflexivity | apply del_reversed_sublist].
Qed.


(** What a DISPATCH of an event other than READY and RESUMED comes to:
    the scan of the waiters, on the data as the parser of the event leaves
    it; the steps before it change neither the waiters nor the futures. *)
Lemma received_message_dispatch (msg : string) (payload : Payload.obj) (X : string)
    (data : json) (o : obj) (w : World) :
  from_json msg = Return payload ->
  Payload.op payload = 0%Z ->
  Payload.t payload = Some X ->
  X <> "READY" -> X <> "RESUMED" ->
  match _discord_parsers o !! X with
  | Some func => func (Payload.d payload) = Return data
  | None => data = Payload.d payload
  end ->
  exists o' w',
    received_message (Text msg) o w = dispatch_listeners (Some X) data o' w' /\
    _dispatch_listeners o' = _dispatch_listeners o /\
    futures w' = futures w.
Proof.
  intros Hj Hop Ht Hready Hresumed Hparse.
  unfold received_message, received_message_text.
  destruct (log_receive_run msg o w) as (w1 & Hlog & Hf1).
  rewrite (bind_run _ _ _ _ _ _ _ Hlog).
  erewrite bind_run by (rewrite lift_run, Hj; reflexivity).
  rewrite Hop, Ht.
  assert (Hev : exists w2,
            (when truthy (JStr X) then dispatch_call "socket_event_type" (JStr X)) o w1
            = (Return tt, o, w2) /\ futures w2 = futures w1).
  { destruct (truthy _); eauto. }
  destruct Hev as (w2 & Hev & Hf2). rewrite (bind_run _ _ _ _ _ _ _ Hev).
  set (o' := match Payload.s payload with
             | Some n => set_sequence (Some n) o
             | None => o
             end).
  assert (Hseq : (when bool_decide (is_Some (Payload.s payload))
                  then modify (set_sequence (Payload.s payload))) o w2
                 = (Return tt, o', w2)).
  { subst o'. destruct (Payload.s payload);
      rewrite ?bool_decide_is_Some, ?bool_decide_is_Some_None; reflexivity. }
  rewrite (bind_run _ _ _ _ _ _ _ Hseq).
  cbn [Z.eqb DISPATCH negb].
  rewrite !bool_decide_eq_false_2 by congruence.
  erewrite bind_run by reflexivity.
  assert (Hparsers : _discord_parsers o' = _discord_parsers o)
    by (subst o'; destruct (Payload.s payload); reflexivity).
  assert (Hrun : run_parser (Some X) (Payload.d payload) o' w2 = (Return data, o', w2)).
  { unfold run_parser. erewrite bind_run by reflexivity. rewrite Hparsers.
    destruct (_discord_parsers o !! X) as [func|].
    - now rewrite lift_run, Hparse.
    - now subst data. }
  rewrite (bind_run _ _ _ _ _ _ _ Hrun).
  exists o', w2. split; [reflexivity|]. split.
  - subst o'. destruct (Payload.s payload); reflexivity.
  - congruence.
Qed.

(** Receiving a message leaves the table of parsers as it is. *)
Lemma received_message_parsers (msg : frame) (o : obj) :
  maintains (fun x => _discord_parsers x = _discord_parsers o) (received_message msg).
Proof.
  unfold received_message, received_message_bytes, received_message_text, log_receive,
    close, heartbeat, send_heartbeat, on_write_error, _can_handle_close,
    cancel_heartbeat_task, on_ready, on_resumed, run_parser, dispatch_listeners.
  maintain; cbn; try assumption; try congruence.
Qed.

End Waiters.

Section WaitFor.
Context `{Env}.
Import DiscordWebSocket.

Lemma wait_for_run (X : string) (pred : json -> outcome bool)
    (tr : option (json -> outcome json)) (o : obj) (w : World) :
  let f := fresh (dom (futures w)) in
  wait_for X pred tr o w
  = (Return f,
     set_dispatch_listeners (_dispatch_listeners o ++ [mkListener pred X tr f]) o,
     set_futures (<[f := Pending]> (futures w)) w) /\
  futures w !! f = None.
Proof.
  split; [reflexivity|].
  apply not_elem_of_dom. apply is_fresh.
Qed.

Lemma waiting_fresh (ls : list EventListener) (w : World) (f : nat) :
  waiting ls w -> futures w !! f = None ->
  (f ∉ map future ls) /\
  Forall (fun l => <[f := Pending]> (futures w) !! future l = Some Pending \/
                   <[f := Pending]> (futures w) !! future l = Some Cancelled) ls.
Proof.
  intros [Hnd Hst] Hf.
  assert (Hne : forall l, l ∈ ls -> future l <> f).
  { intros l Hl Heq. rewrite Forall_forall in Hst. specialize (Hst l Hl).
    rewrite Heq, Hf in Hst. destruct Hst; discriminate. }
  split.
  - intros Hin. apply list_elem_of_In, in_map_iff in Hin as (l & Heq & Hl).
    apply (Hne l); [now apply list_elem_of_In | exact Heq].
  - apply Forall_forall. intros l Hl. rewrite Forall_forall in Hst.
    rewrite lookup_insert_ne by (intros Heq; now apply (Hne l Hl)).
    now apply Hst.
Qed.

(** C9.  A waiter registered by [wait_for] for the event [X] (an event
    other than READY and RESUMED, which tag the data first), among waiters
    that are in order: when the first X event is dispatched and the
    predicate holds of its data, the future is resolved with the data as
    the parser of X leaves it, or with the transform of it, and the waiter
    is removed from the list, so that a second dispatch of X leaves the
    future as it is; when the predicate does not hold, the waiter stays
    last in the list and its future stays pending. *)
Theorem event_waiter_resolution (X : string) (pred : json -> outcome bool)
    (tr : option (json -> outcome json)) (msg : string) (payload : Payload.obj)
    (data v : json) (o : obj) (w : World) :
  waiting (_dispatch_listeners o) w ->
  from_json msg = Return payload ->
  Payload.op payload = 0%Z ->
  Payload.t payload = Some X ->
  X <> "READY" -> X <> "RESUMED" ->
  parser_leaves (_discord_parsers o) X (Payload.d payload) data ->
  transforms_return (_dispatch_listeners o) data ->
  match tr with Some g => g data = Return v | None => v = data end ->
  let f := fresh (dom (futures w)) in
  let registered := wait_for X pred tr o w in
  let first := received_message (Text msg) (object_of registered) (world_of registered) in
  result_of registered = Return f /\
  futures (world_of registered) !! f = Some Pending /\
  (pred data = Return true ->
   result_of first = Return tt /\
   futures (world_of first) !! f = Some (Resolved v) /\
   (f ∉ map future (_dispatch_listeners (object_of first))) /\
   (forall msg2 payload2 data2,
      from_json msg2 = Return payload2 ->
      Payload.op payload2 = 0%Z ->
      Payload.t payload2 = Some X ->
      parser_leaves (_discord_parsers o) X (Payload.d payload2) data2 ->
      futures (world_of (received_message (Text msg2) (object_of first) (world_of first)))
        !! f = Some (Resolved v))) /\
  (pred data = Return false ->
   result_of first = Return tt /\
   futures (world_of first) !! f = Some Pending /\
   exists kept e, _dispatch_listeners (object_of first) = kept ++ [e] /\
                  future e = f /\ event e = X).
Proof.
  intros Hwait Hj Hop Ht Hready Hresumed Hparse Htr Hv f registered first.
  destruct (wait_for_run X pred tr o w) as [Hreg Hnone].
  fold f in Hreg, Hnone. fold registered in Hreg.
  destruct (waiting_fresh _ w f Hwait Hnone) as [Hfresh Hst].
  destruct Hwait as [Hnd _].
  subst first. rewrite Hreg. cbn [result_of object_of world_of fst snd].
  set (o1 := set_dispatch_listeners _ o).
  set (w1 := set_futures _ w).
  destruct (received_message_dispatch msg payload X data o1 w1 Hj Hop Ht Hready Hresumed
              Hparse) as (o' & w' & Hstep & Hls & Hfs).
  rewrite Hstep.
  assert (Hls' : _dispatch_listeners o' = _dispatch_listeners o ++ [mkListener pred X tr f])
    by (rewrite Hls; reflexivity).
  assert (Hpend : futures w' !! f = Some Pending).
  { rewrite Hfs. subst w1. cbn [futures set_futures]. apply lookup_insert_eq. }
  assert (Hst' : Forall (fun l => futures w' !! future l = Some Pending \/
                                  futures w' !! future l = Some Cancelled)
                        (_dispatch_listeners o)).
  { rewrite Hfs. exact Hst. }
  split; [reflexivity|]. split; [subst w1; cbn; apply lookup_insert_eq|]. split.
  - intros Hpred.
    destruct (dispatch_listeners_resolves X data v (_dispatch_listeners o)
                (mkListener pred X tr f) o' w' Hls' eq_refl Hpend Hfresh Hnd Hst' Htr
                Hpred Hv) as (Hres & Hfut & Hsub).
    assert (Hgone : f ∉ map future
                      (_dispatch_listeners (object_of (dispatch_listeners (Some X) data o' w')))).
    { intros Hin. apply Hfresh.
      apply list_elem_of_In, in_map_iff in Hin as (l & Heq & Hl).
      apply list_elem_of_In, in_map_iff. exists l. split; [exact Heq|].
      apply list_elem_of_In. eapply elem_of_sublist; [|exact Hsub].
      now apply list_elem_of_In. }
    split; [exact Hres|]. split; [exact Hfut|]. split; [exact Hgone|].
    intros msg2 payload2 data2 Hj2 Hop2 Ht2 Hparse2.
    set (o2 := object_of (dispatch_listeners (Some X) data o' w')) in *.
    set (w2 := world_of (dispatch_listeners (Some X) data o' w')) in *.
    assert (Hparsers : _discord_parsers o2 = _discord_parsers o).
    { subst o2. rewrite <- Hstep.
      apply (received_message_parsers (Text msg) o1 o1 w1). reflexivity. }
    destruct (received_message_dispatch msg2 payload2 X data2 o2 w2 Hj2 Hop2 Ht2 Hready
                Hresumed) as (o3 & w3 & Hstep2 & Hls2 & Hfs2).
    { unfold parser_leaves in *. now rewrite Hparsers. }
    rewrite Hstep2, dispatch_listeners_frame by (now rewrite Hls2).
    now rewrite Hfs2.
  - intros Hpred.
    destruct (dispatch_listeners_keeps X data (_dispatch_listeners o)
                (mkListener pred X tr f) o' w' Hls' eq_refl Hpend Hfresh Hnd Hst' Htr
                Hpred) as (Hres & Hfut & kept & Hkept & _).
    split; [exact Hres|]. split; [exact Hfut|].
    exists kept, (mkListener pred X tr f). auto.
Qed.

End WaitFor.

(** A waiter for "X" with an always-true predicate, registered after
    another waiter for "X" whose predicate never holds. *)
Lemma event_waiter_resolution_witness :
  let o0 := @DiscordWebSocket.init Example.env Example.open_socket in
  let before := DiscordWebSocket.wait_for "X" (fun _ => Return false) None o0 Example.world in
  let o := object_of before in
  let w := world_of before in
  let f := fresh (dom (futures w)) in
  let registered := DiscordWebSocket.wait_for "X" (fun _ => Return true) None o w in
  let first := DiscordWebSocket.received_message (Text "dispatch 5")
                 (object_of registered) (world_of registered) in
  waiting (DiscordWebSocket._dispatch_listeners o) w /\
  @from_json Example.env "dispatch 5"
  = Return (Payload.mk 0 Example.empty_dict (Some 5%Z) (Some "X")) /\
  result_of first = Return tt /\
  futures (world_of first) !! f = Some (Resolved Example.empty_dict) /\
  (f ∉ map future (DiscordWebSocket._dispatch_listeners (object_of first))).
Proof.
  intros o0 before o w f registered first.
  assert (Hwait : waiting (DiscordWebSocket._dispatch_listeners o) w).
  { split.
    - apply (bool_decide_unpack _). vm_compute. exact I.
    - constructor; [left; vm_compute; reflexivity | constructor]. }
  assert (Hj : @from_json Example.env "dispatch 5"
               = Return (Payload.mk 0 Example.empty_dict (Some 5%Z) (Some "X")))
    by reflexivity.
  split; [exact Hwait|]. split; [exact Hj|].
  destruct (@event_waiter_resolution Example.env "X" (fun _ => Return true) None
              "dispatch 5" _ Example.empty_dict Example.empty_dict o w
              Hwait Hj eq_refl eq_refl ltac:(discriminate) ltac:(discriminate))
    as (_ & _ & Htrue & _).
  - reflexivity.
  - constructor; [intros tr Htr; discriminate Htr | constructor].
  - reflexivity.
  - destruct (Htrue eq_refl) as (Hres & Hfut & Hgone & _).
    split; [exact Hres|]. split; [exact Hfut | exact Hgone].
Defined.

(** * Further properties *)

(** ** GatewayRatelimiter: slots and waits *)

Section RatelimiterSlots.
Import GatewayRatelimiter.

(** The three ways a call of [get_delay] can go. *)
Lemma get_delay_cases (r : obj) (w : World) :
  (0 < max r)%Z -> (0 <= remaining r <= max r)%Z ->
  (* the window is over: the counter is reset and a slot taken *)
  (window_over (now w) r = true /\
   get_delay r w
   = (Return 0%Q,
      mk (max r) (max r - 1) (now w) (per r), w)) \/
  (* a slot is left in the window *)
  (window_over (now w) r = false /\ (0 < remaining r)%Z /\
   get_delay r w
   = (Return 0%Q,
      mk (max r) (remaining r - 1)
         (if (remaining r =? max r)%Z || (remaining r - 1 =? 0)%Z
          then now w else window r)
         (per r), w)) \/
  (* no slot is left *)
  (window_over (now w) r = false /\ remaining r = 0%Z /\
   get_delay r w = (Return (per r - (now w - window r))%Q, r, w)).
Proof.
  intros Hmax Hrem. destruct r as [mx rem win p]. cbn [max remaining window per] in *.
  unfold get_delay, bind, time_time, get, modify, ret.
  cbn -[Z.eqb Z.sub window_over Qminus].
  destruct (window_over (now w) (mk mx rem win p)) eqn:Hover;
    cbn -[Z.eqb Z.sub window_over Qminus].
  - left. split; [reflexivity|].
    rewrite Z.eqb_refl. cbn -[Z.eqb Z.sub window_over Qminus].
    destruct (Z.eqb_spec mx 0); [lia|]. cbn -[Z.eqb Z.sub window_over Qminus].
    destruct (mx - 1 =? 0)%Z; reflexivity.
  - right. destruct (Z.eqb_spec rem 0) as [->|Hnz].
    + right. split; [reflexivity|]. split; [reflexivity|].
      destruct (Z.eqb_spec 0 mx); [lia|]. cbn -[Z.eqb Z.sub window_over Qminus].
      reflexivity.
    + left. split; [reflexivity|]. split; [lia|].
      destruct (rem =? mx)%Z; cbn -[Z.eqb Z.sub window_over Qminus].
      * destruct (Z.eqb_spec rem 0); [lia|]. cbn -[Z.eqb Z.sub window_over Qminus].
        destruct (rem - 1 =? 0)%Z; reflexivity.
      * destruct (Z.eqb_spec rem 0); [lia|]. cbn -[Z.eqb Z.sub window_over Qminus].
        destruct (rem - 1 =? 0)%Z; reflexivity.
Qed.

Lemma block_of_get_delay_cases (r r' : obj) (w : World) (delta : Q) :
  get_delay r w = (Return delta, r', w) ->
  object_of (block r w) = r' /\ result_of (block r w) = Return tt /\
  ((delta == 0)%Q /\ world_of (block r w) = w \/
   ~ (delta == 0)%Q /\
   world_of (block r w)
   = mkWorld (now w + delta) (perf w + delta) (futures w) (delta :: sleeps w)
             (dispatched w)).
Proof.
  intros Hd. rewrite (block_of_get_delay r r' w delta Hd).
  destruct (Qeq_bool delta 0) eqn:E.
  - apply Qeq_bool_iff in E. auto.
  - apply Qeq_bool_neq in E. auto.
Qed.

(** X1.  [remaining] stays between 0 and [max]: a call of [block] never
    drives the counter negative, and never changes [max] or [per]. *)
Theorem ratelimiter_remaining_in_range (r : obj) (w : World) :
  (0 <= remaining r <= max r)%Z ->
  (0 <= remaining (object_of (block r w)) <= max r)%Z /\
  max (object_of (block r w)) = max r /\
  per (object_of (block r w)) = per r.
Proof.
  intros Hrem. destruct r as [mx rem win p]. cbn [max remaining window per] in *.
  unfold block, get_delay, bind, time_time, get, modify, ret, asyncio_sleep, modify_world.
  cbn -[Z.eqb Z.sub window_over Qminus Qeq_bool].
  repeat match goal with
         | |- context [if (?a =? ?b)%Z then _ else _] =>
             destruct (Z.eqb_spec a b); cbn -[Z.eqb Z.sub window_over Qminus Qeq_bool]
         | |- context [if ?b then _ else _] =>
             destruct b; cbn -[Z.eqb Z.sub window_over Qminus Qeq_bool]
         end; repeat split; lia.
Qed.

Lemma ratelimiter_remaining_in_range_witness :
  (0 <= remaining (init 2 1) <= max (init 2 1))%Z /\
  (0 <= remaining (object_of (block (init 2 1) (mkWorld 100 100 ∅ [] [])))
   <= max (init 2 1))%Z.
Proof.
  assert (H0 : (0 <= remaining (init 2 1) <= max (init 2 1))%Z) by (cbn; lia).
  split; [exact H0|].
  exact (proj1 (ratelimiter_remaining_in_range (init 2 1) (mkWorld 100 100 ∅ [] []) H0)).
Defined.

(** X2.  With a positive capacity and a window that did not start in the
    future, [block] either returns at once or sleeps once, and then for
    [per] minus the time since the window started, which is not zero and
    at most [per].  It sleeps only when it found no slot left, and a call
    that sleeps leaves the limiter as it was; a call that finds a slot
    never sleeps.  (The wait is not said to be positive, nor the window
    to be still open: the source decides that on a sum it has rounded, and
    at the very end of a window the difference can come out below zero.) *)
Theorem ratelimiter_wait_bounded (r : obj) (w : World) :
  (0 < max r)%Z -> (0 <= remaining r <= max r)%Z -> (window r <= now w)%Q ->
  result_of (block r w) = Return tt /\
  (world_of (block r w) = w \/
   exists d,
     sleeps (world_of (block r w)) = d :: sleeps w /\
     d = (per r - (now w - window r))%Q /\
     ~ (d == 0)%Q /\ (d <= per r)%Q /\
     remaining r = 0%Z /\
     object_of (block r w) = r) /\
  ((0 < remaining r)%Z -> world_of (block r w) = w).
Proof.
  intros Hmax Hrem Hwin.
  destruct (get_delay_cases r w Hmax Hrem) as [[_ Hd]|[(_ & _ & Hd)|(Hover & Hz & Hd)]].
  - destruct (block_of_get_delay_cases _ _ _ _ Hd) as (_ & Hr & [[_ Hw]|[Hn _]]).
    + auto.
    + exfalso. apply Hn. reflexivity.
  - destruct (block_of_get_delay_cases _ _ _ _ Hd) as (_ & Hr & [[_ Hw]|[Hn _]]).
    + auto.
    + exfalso. apply Hn. reflexivity.
  - destruct (block_of_get_delay_cases _ _ _ _ Hd) as (Ho & Hr & [[_ Hw]|[Hn Hw]]).
    + auto.
    + split; [exact Hr|]. split; [|lia]. right. exists (per r - (now w - window r))%Q.
      rewrite Hw. cbn [sleeps].
      repeat split; try assumption; try reflexivity; lra.
Qed.

Lemma ratelimiter_wait_bounded_witness :
  let r := mk 2 0 100 1 in
  let w := mkWorld 100 100 ∅ [] [] in
  (0 < max r)%Z /\ (0 <= remaining r <= max r)%Z /\ (window r <= now w)%Q /\
  result_of (block r w) = Return tt /\
  sleeps (world_of (block r w)) = [1%Q].
Proof.
  intros r w.
  assert (H1 : (0 < max r)%Z) by (cbn; lia).
  assert (H2 : (0 <= remaining r <= max r)%Z) by (cbn; lia).
  assert (H3 : (window r <= now w)%Q) by (unfold Qle; cbn; lia).
  split; [exact H1|]. split; [exact H2|]. split; [exact H3|].
  split; [exact (proj1 (ratelimiter_wait_bounded r w H1 H2 H3)) | reflexivity].
Defined.

(** A call that finds a slot returns at once and leaves at least the
    other slots. *)
Lemma block_with_slot (r : obj) (w : World) :
  (0 < remaining r <= max r)%Z ->
  exists r', block r w = (Return tt, r', w) /\ max r' = max r /\
             (remaining r - 1 <= remaining r' <= max r)%Z.
Proof.
  intros Hrem.
  destruct (get_delay_cases r w ltac:(lia) ltac:(lia))
    as [[_ Hd]|[(_ & _ & Hd)|(_ & Hz & _)]]; [| |lia].
  - eexists. rewrite (block_of_get_delay _ _ _ _ Hd).
    split; [reflexivity|]. cbn [max remaining]. lia.
  - eexists. rewrite (block_of_get_delay _ _ _ _ Hd).
    split; [reflexivity|]. cbn [max remaining]. lia.
Qed.

(** X3.  A burst that fits the slots left: as many calls of [block] as
    there are slots, at any times, all return without sleeping. *)
Theorem ratelimiter_burst_never_waits (ws : list World) (r : obj) :
  (Z.of_nat (length ws) <= remaining r <= max r)%Z ->
  Forall2 (fun w res => result_of res = Return tt /\ world_of res = w)
          ws (block_each ws r).
Proof.
  revert r. induction ws as [|w ws IH]; intros r Hrem.
  - constructor.
  - cbn [length] in Hrem. cbn [block_each].
    destruct (block_with_slot r w ltac:(lia)) as (r' & Hb & Hmax & Hr').
    rewrite Hb. cbn [object_of fst snd]. constructor.
    + split; reflexivity.
    + apply IH. lia.
Qed.

Lemma ratelimiter_burst_never_waits_witness :
  let w := mkWorld 100 100 ∅ [] [] in
  (Z.of_nat (length [w; w]) <= remaining (init 2 1) <= max (init 2 1))%Z /\
  Forall2 (fun w res => result_of res = Return tt /\ world_of res = w)
          [w; w] (block_each [w; w] (init 2 1)).
Proof.
  intros w.
  assert (H0 : (Z.of_nat (length [w; w]) <= remaining (init 2 1) <= max (init 2 1))%Z)
    by (cbn; lia).
  split; [exact H0|]. exact (ratelimiter_burst_never_waits [w; w] (init 2 1) H0).
Defined.



End RatelimiterSlots.

(** ** DiscordWebSocket: closing, RECONNECT, INVALIDATE_SESSION, HELLO *)

Section GatewayOpcodes.
Context `{Env}.
Import DiscordWebSocket.

(** X5.  After our own [close(code)] the heartbeat task is gone, the socket
    is closed with that code, and the closure is classified by that code,
    whatever close code the peer reports. *)
Theorem close_fixes_classification (code : Z) (o : obj) (w : World) :
  code <> 0%Z ->
  let r := close code o w in
  result_of r = Return tt /\
  world_of r = w /\
  _heartbeat_task (object_of r) = None /\
  _close_code (object_of r) = Some code /\
  Socket.closed (socket (object_of r)) = true /\
  Socket.closed_with (socket (object_of r)) = Some code :: Socket.closed_with (socket o) /\
  forall w', _can_handle_close (object_of r) w'
             = (Return (not_in_fatal (Some code)), object_of r, w').
Proof.
  intros Hcode r. subst r.
  unfold close, cancel_heartbeat_task, bind, modify, zoom, Socket.close. cbn.
  repeat split. intros w'.
  unfold _can_handle_close, bind, get, ret. cbn.
  destruct (Z.eqb_spec code 0); [contradiction | reflexivity].
Qed.

Lemma log_receive_keeps (msg : string) (o : obj) (w : World) :
  exists w', log_receive msg o w = (Return tt, o, w') /\
             futures w' = futures w /\ sleeps w' = sleeps w /\
             perf w' = perf w /\ now w' = now w.
Proof.
  unfold log_receive, bind, get, dispatch_call, modify_world, ret.
  destruct (debug_events o); eexists; repeat split.
Qed.


(** X7.  INVALIDATE_SESSION: with data [True] the session is kept, the
    socket is closed with code 4000 and the reconnect is a resume; with any
    other data the sequence and the session id are cleared, the socket is
    closed with code 1000 and [ReconnectWebSocket] is raised with
    [resume=False].  In both cases the heartbeat task is dropped, nothing
    is written to the socket and the resume URL is kept. *)
Theorem invalidate_session_clears (msg : string) (payload : Payload.obj)
    (o : obj) (w : World) :
  from_json msg = Return payload ->
  Payload.op payload = 9%Z ->
  let r := received_message (Text msg) o w in
  resume_url (object_of r) = resume_url o /\
  _heartbeat_task (object_of r) = None /\
  Socket.closed (socket (object_of r)) = true /\
  Socket.sent (socket (object_of r)) = Socket.sent (socket o) /\
  (Payload.d payload = JBool true ->
   result_of r = Raise (ReconnectWebSocket (shard_id o) true) /\
   session_id (object_of r) = session_id o /\
   sequence (object_of r)
   = match Payload.s payload with Some n => Some n | None => sequence o end /\
   _close_code (object_of r) = Some 4000%Z /\
   Socket.closed_with (socket (object_of r))
   = Some 4000%Z :: Socket.closed_with (socket o)) /\
  (Payload.d payload <> JBool true ->
   result_of r = Raise (ReconnectWebSocket (shard_id o) false) /\
   session_id (object_of r) = JNull /\
   sequence (object_of r) = None /\
   _close_code (object_of r) = Some 1000%Z /\
   Socket.closed_with (socket (object_of r))
   = Some 1000%Z :: Socket.closed_with (socket o)).
Proof.
  intros Hj Hop r. subst r.
  unfold received_message, received_message_text.
  destruct (log_receive_keeps msg o w) as (w1 & Hlog & Hf1 & _).
  rewrite (bind_run _ _ _ _ _ _ _ Hlog).
  erewrite bind_run by (rewrite lift_run, Hj; reflexivity).
  rewrite Hop.
  destruct (truthy _); destruct (Payload.s payload) as [n|];
    rewrite ?bool_decide_is_Some, ?bool_decide_is_Some_None;
    cbn; destruct (_heartbeat_ack_received o); cbn;
    destruct (Payload.d payload) as [|[|]| | | |]; cbn;
    repeat split; try reflexivity; try discriminate; try congruence;
    intros Hd; try discriminate Hd; try (exfalso; apply Hd; reflexivity);
    repeat split; reflexivity.
Qed.

End GatewayOpcodes.

Lemma close_fixes_classification_witness :
  let o := @DiscordWebSocket.init Example.env
             (Socket.mk false (Some 1000%Z) [] [] None) in
  4000%Z <> 0%Z /\
  DiscordWebSocket._can_handle_close
    (object_of (DiscordWebSocket.close 4000 o Example.world)) Example.world
  = (Return true, object_of (DiscordWebSocket.close 4000 o Example.world), Example.world).
Proof.
  intros o.
  assert (Hc : 4000%Z <> 0%Z) by discriminate.
  split; [exact Hc|].
  destruct (@close_fixes_classification Example.env 4000%Z o Example.world Hc)
    as (_ & _ & _ & _ & _ & _ & Hcan).
  exact (Hcan Example.world).
Defined.



Lemma invalidate_session_clears_witness :
  let r := @DiscordWebSocket.received_message Sample.env (Text "invalid session")
             Sample.ws Example.world in
  @from_json Sample.env "invalid session"
  = Return (Payload.mk 9 (JBool false) (Some 3%Z) None) /\
  result_of r = Raise (ReconnectWebSocket None false) /\
  DiscordWebSocket.sequence (object_of r) = None /\
  Socket.closed (DiscordWebSocket.socket (object_of r)) = true /\
  Socket.closed_with (DiscordWebSocket.socket (object_of r))
  = Some 1000%Z :: Socket.closed_with (DiscordWebSocket.socket Sample.ws).
Proof.
  intros r.
  assert (Hj : @from_json Sample.env "invalid session"
               = Return (Payload.mk 9 (JBool false) (Some 3%Z) None)) by reflexivity.
  split; [exact Hj|].
  destruct (@invalidate_session_clears Sample.env "invalid session" _ Sample.ws
              Example.world Hj eq_refl) as (_ & _ & Hclosed & _ & _ & Hfalse).
  destruct (Hfalse ltac:(discriminate)) as (Hr & _ & Hs & _ & Hwith).
  split; [exact Hr|]. split; [exact Hs|]. split; [exact Hclosed | exact Hwith].
Defined.

(** ** Heartbeats: HELLO, acknowledgement, latency *)

Section Heartbeats.
Context `{Env}.

(** A heartbeat on a socket that takes the write. *)
Lemma dws_heartbeat_run (o : DiscordWebSocket.obj) (w : World) :
  Socket.fault (DiscordWebSocket.socket o) = None ->
  DiscordWebSocket.heartbeat o w
  = (Return tt,
     DiscordWebSocket.set_heartbeat_sent_time (perf w)
       (DiscordWebSocket.set_socket
          (Socket.mk (Socket.closed (DiscordWebSocket.socket o))
                     (Socket.close_code (DiscordWebSocket.socket o))
                     (to_json (JDict [("op", JInt 1);
                                      ("d", json_of_int (DiscordWebSocket.sequence o))])
                        :: Socket.sent (DiscordWebSocket.socket o))
                     (Socket.closed_with (DiscordWebSocket.socket o))
                     (Socket.fault (DiscordWebSocket.socket o))) o), w).
Proof.
  intros Hfault.
  unfold DiscordWebSocket.heartbeat, DiscordWebSocket.send_heartbeat, catch, zoom,
    Socket.send_str, bind, get, modify, perf_counter. cbn.
  rewrite Hfault. cbn. rewrite ?Hfault. reflexivity.
Qed.

(** X8.  HELLO on the main gateway, for an interval that is an [int] in
    the range of a double: the interval is the payload's milliseconds
    divided by 1000, one heartbeat frame carrying the stored sequence is
    written at once, straight to the socket, and the heartbeat task is
    started.  For an [int] beyond that range the division raises
    [OverflowError], and without [heartbeat_interval] in the data the
    subscript raises: in both cases nothing was stored, written or started.
    In every case the rate limiter is not touched and nothing sleeps. *)
Theorem hello_sends_heartbeat (msg : string) (payload : Payload.obj)
    (o : DiscordWebSocket.obj) (w : World) :
  from_json msg = Return payload ->
  Payload.op payload = 10%Z ->
  Socket.fault (DiscordWebSocket.socket o) = None ->
  let r := DiscordWebSocket.received_message (Text msg) o w in
  let seq := match Payload.s payload with
             | Some n => Some n
             | None => DiscordWebSocket.sequence o
             end in
  DiscordWebSocket._rate_limiter (object_of r) = DiscordWebSocket._rate_limiter o /\
  sleeps (world_of r) = sleeps w /\
  (forall ms,
     subscript (Payload.d payload) "heartbeat_interval" = Return (JInt ms) ->
     fits_double ms = true ->
     result_of r = Return tt /\
     DiscordWebSocket.heartbeat_interval (object_of r) = (inject_Z ms / 1000)%Q /\
     Socket.sent (DiscordWebSocket.socket (object_of r))
     = to_json (JDict [("op", JInt 1); ("d", json_of_int seq)])
       :: Socket.sent (DiscordWebSocket.socket o) /\
     DiscordWebSocket._heartbeat_sent_time (object_of r) = perf w /\
     DiscordWebSocket._heartbeat_task (object_of r) = Some heartbeat_loop_task) /\
  (forall ms,
     subscript (Payload.d payload) "heartbeat_interval" = Return (JInt ms) ->
     fits_double ms = false ->
     result_of r = Raise OverflowError /\
     DiscordWebSocket.socket (object_of r) = DiscordWebSocket.socket o /\
     DiscordWebSocket._heartbeat_task (object_of r) = DiscordWebSocket._heartbeat_task o /\
     DiscordWebSocket.heartbeat_interval (object_of r)
     = DiscordWebSocket.heartbeat_interval o) /\
  (forall e,
     subscript (Payload.d payload) "heartbeat_interval" = Raise e ->
     result_of r = Raise e /\
     DiscordWebSocket.socket (object_of r) = DiscordWebSocket.socket o /\
     DiscordWebSocket._heartbeat_task (object_of r) = DiscordWebSocket._heartbeat_task o /\
     DiscordWebSocket.heartbeat_interval (object_of r)
     = DiscordWebSocket.heartbeat_interval o).
Proof.
  intros Hj Hop Hfault r seq. subst r seq.
  unfold DiscordWebSocket.received_message, DiscordWebSocket.received_message_text.
  destruct (log_receive_keeps msg o w) as (w1 & Hlog & Hf1 & Hs1 & Hp1 & _).
  rewrite (bind_run _ _ _ _ _ _ _ Hlog).
  erewrite bind_run by (rewrite lift_run, Hj; reflexivity).
  rewrite Hop.
  destruct (subscript (Payload.d payload) "heartbeat_interval") as [v|e] eqn:Hsub.
  - destruct (truthy _); destruct (Payload.s payload) as [n|];
      rewrite ?bool_decide_is_Some, ?bool_decide_is_Some_None;
      cbn -[subscript Qdiv inject_Z DiscordWebSocket.heartbeat];
      destruct (DiscordWebSocket._heartbeat_ack_received o);
      cbn -[subscript Qdiv inject_Z DiscordWebSocket.heartbeat];
      destruct v as [|b|z| | |];
      cbn -[Qdiv inject_Z DiscordWebSocket.heartbeat float_of_int];
      unfold float_of_int;
      try match goal with
          | |- context [fits_double ?z] => destruct (fits_double z) eqn:Hfit
          end;
      cbn -[Qdiv inject_Z DiscordWebSocket.heartbeat];
      try (erewrite bind_run by (apply dws_heartbeat_run; exact Hfault));
      cbn -[Qdiv inject_Z];
      (split; [reflexivity|]); (split; [assumption|]);
      (split; [intros ms [= <-] Hfit' | split; [intros ms [= <-] Hfit' | intros e' [=]]]);
      try congruence;
      repeat split; try reflexivity; try assumption.
  - destruct (truthy _); destruct (Payload.s payload) as [n|];
      rewrite ?bool_decide_is_Some, ?bool_decide_is_Some_None;
      cbn -[subscript Qdiv inject_Z];
      destruct (DiscordWebSocket._heartbeat_ack_received o);
      cbn -[subscript Qdiv inject_Z];
      (split; [reflexivity|]); (split; [assumption|]);
      (split; [intros ms [=] | split; [intros ms [=] | intros e' [= <-]]]);
      repeat split; reflexivity.
Qed.

(** The acknowledgement of a pending heartbeat. *)
Lemma dws_ack_resolves (msg : string) (payload : Payload.obj) (ack : nat)
    (o : DiscordWebSocket.obj) (w : World) :
  from_json msg = Return payload ->
  Payload.op payload = 11%Z ->
  DiscordWebSocket._heartbeat_ack_received o = Some ack ->
  futures w !! ack = Some Pending ->
  let r := DiscordWebSocket.received_message (Text msg) o w in
  result_of r = Return tt /\
  futures (world_of r) = <[ack := Resolved JNull]> (futures w) /\
  DiscordWebSocket.latency (object_of r)
  = (perf w - DiscordWebSocket._heartbeat_sent_time o)%Q /\
  DiscordWebSocket.socket (object_of r) = DiscordWebSocket.socket o.
Proof.
  intros Hj Hop Hack Hpend r. subst r.
  unfold DiscordWebSocket.received_message, DiscordWebSocket.received_message_text.
  destruct (log_receive_keeps msg o w) as (w1 & Hlog & Hf1 & Hs1 & Hp1 & _).
  rewrite (bind_run _ _ _ _ _ _ _ Hlog).
  erewrite bind_run by (rewrite lift_run, Hj; reflexivity).
  rewrite Hop.
  destruct (truthy _); destruct (Payload.s payload) as [n|];
    rewrite ?bool_decide_is_Some, ?bool_decide_is_Some_None;
    cbn -[Qminus set_result]; rewrite Hack; cbn -[Qminus set_result];
    (erewrite bind_run
       by (rewrite set_result_run; cbn; rewrite Hf1, Hpend; reflexivity));
    cbn -[Qminus]; rewrite ?Hf1, ?Hp1; auto.
Qed.

(** X9.  A heartbeat and its acknowledgement: one turn of the heartbeat
    loop writes the heartbeat frame, with the stored sequence, to the
    socket and waits on a future that is new and pending; when the
    HEARTBEAT_ACK arrives [dt] later that future is resolved, [latency] is
    [dt], and the acknowledgement itself writes nothing. *)
Theorem heartbeat_round_trip (msg : string) (payload : Payload.obj) (dt : Q)
    (o : DiscordWebSocket.obj) (w : World) :
  Socket.fault (DiscordWebSocket.socket o) = None ->
  from_json msg = Return payload ->
  Payload.op payload = 11%Z ->
  let ack := fresh (dom (futures w)) in
  let sent := DiscordWebSocket._heartbeat_loop_turn o w in
  let later := elapse dt (object_of sent) (world_of sent) in
  let acked := DiscordWebSocket.received_message (Text msg)
                 (object_of later) (world_of later) in
  result_of sent = Return tt /\
  Socket.sent (DiscordWebSocket.socket (object_of sent))
  = to_json (JDict [("op", JInt 1); ("d", json_of_int (DiscordWebSocket.sequence o))])
    :: Socket.sent (DiscordWebSocket.socket o) /\
  DiscordWebSocket._heartbeat_sent_time (object_of sent) = perf w /\
  futures w !! ack = None /\
  DiscordWebSocket._heartbeat_ack_received (object_of sent) = Some ack /\
  futures (world_of sent) !! ack = Some Pending /\
  result_of acked = Return tt /\
  futures (world_of acked) !! ack = Some (Resolved JNull) /\
  (DiscordWebSocket.latency (object_of acked) == dt)%Q /\
  Socket.sent (DiscordWebSocket.socket (object_of acked))
  = Socket.sent (DiscordWebSocket.socket (object_of sent)).
Proof.
  intros Hfault Hj Hop ack sent later acked.
  assert (Hsent : sent
                  = (Return tt,
                     DiscordWebSocket.set_heartbeat_ack_received (Some ack)
                       (object_of (DiscordWebSocket.heartbeat o w)),
                     set_futures (<[ack := Pending]> (futures w)) w)).
  { subst sent. unfold DiscordWebSocket._heartbeat_loop_turn.
    rewrite (dws_heartbeat_run o w Hfault).
    erewrite bind_run by (apply (dws_heartbeat_run o w Hfault)). reflexivity. }
  assert (Hnew : futures w !! ack = None).
  { apply not_elem_of_dom. subst ack. apply is_fresh. }
  subst later acked. rewrite Hsent. cbn [result_of object_of world_of fst snd].
  split; [reflexivity|].
  split; [rewrite (dws_heartbeat_run o w Hfault); reflexivity|].
  split; [rewrite (dws_heartbeat_run o w Hfault); reflexivity|].
  split; [exact Hnew|]. split; [reflexivity|].
  split; [cbn; apply lookup_insert_eq|].
  match goal with
  | |- context [DiscordWebSocket.received_message (Text msg) ?o2 ?w2] =>
      destruct (dws_ack_resolves msg payload ack o2 w2 Hj Hop eq_refl)
        as (Hr & Hf & Hl & Hsock)
  end.
  { cbn. apply lookup_insert_eq. }
  split; [exact Hr|]. split; [rewrite Hf; apply lookup_insert_eq|]. split.
  - rewrite Hl. rewrite (dws_heartbeat_run o w Hfault). cbn. ring.
  - rewrite Hsock. reflexivity.
Qed.

(** X10.  The future is not renewed by the acknowledgement: a second
    HEARTBEAT_ACK for the same heartbeat (the future is done, or was
    cancelled) raises [InvalidStateError] out of the receive path, in the
    gateway classes and in the voice one, and records no latency. *)
Theorem second_ack_raises (ack : nat) (state : Future) (w : World) :
  futures w !! ack = Some state ->
  state <> Pending ->
  (forall msg payload o,
     from_json msg = Return payload ->
     Payload.op payload = 11%Z ->
     DiscordWebSocket._heartbeat_ack_received o = Some ack ->
     let r := DiscordWebSocket.received_message (Text msg) o w in
     result_of r = Raise InvalidStateError /\
     futures (world_of r) = futures w /\
     DiscordWebSocket.latency (object_of r) = DiscordWebSocket.latency o) /\
  (forall payload sh,
     Payload.op payload = 11%Z ->
     Shard._heartbeat_ack_received sh = Some ack ->
     let r := Shard._process_payload payload sh w in
     result_of r = Raise InvalidStateError /\
     world_of r = w /\
     Shard.latency (object_of r) = Shard.latency sh) /\
  (forall datagram payload v,
     Payload.op payload = 6%Z ->
     DiscordVoiceWebSocket._heartbeat_ack_received v = Some ack ->
     DiscordVoiceWebSocket.received_message datagram payload v w
     = (Raise InvalidStateError, v, w)).
Proof.
  intros Hstate Hdone.
  assert (Hset : forall O (o : O) w', futures w' = futures w ->
            @set_result O ack JNull o w' = (Raise InvalidStateError, o, w')).
  { intros O o w' Hw'. rewrite set_result_run, Hw', Hstate.
    destruct state; [contradiction | reflexivity..]. }
  split; [|split].
  - intros msg payload o Hj Hop Hack r. subst r.
    unfold DiscordWebSocket.received_message, DiscordWebSocket.received_message_text.
    destruct (log_receive_keeps msg o w) as (w1 & Hlog & Hf1 & _).
    rewrite (bind_run _ _ _ _ _ _ _ Hlog).
    erewrite bind_run by (rewrite lift_run, Hj; reflexivity).
    rewrite Hop.
    destruct (truthy _); destruct (Payload.s payload) as [n|];
      rewrite ?bool_decide_is_Some, ?bool_decide_is_Some_None;
      cbn -[set_result]; rewrite Hack; cbn -[set_result];
      erewrite bind_raise by (apply Hset; exact Hf1); cbn; auto.
  - intros payload sh Hop Hack r. subst r.
    unfold Shard._process_payload. rewrite Hop.
    destruct (Payload.s payload) as [n|];
      rewrite ?bool_decide_is_Some, ?bool_decide_is_Some_None;
      cbn -[set_result]; rewrite Hack; cbn -[set_result];
      erewrite bind_raise by (erewrite bind_raise by (apply Hset; reflexivity);
                              reflexivity);
      cbn; auto.
  - intros datagram payload v Hop Hack.
    unfold DiscordVoiceWebSocket.received_message. rewrite Hop.
    erewrite bind_run by reflexivity.
    cbn -[set_result]. rewrite Hack.
    erewrite bind_raise by (erewrite bind_raise by (apply Hset; reflexivity);
                            reflexivity).
    reflexivity.
Qed.

End Heartbeats.

(** An interval of 40 seconds, and one of 10**400 milliseconds. *)
Lemma hello_sends_heartbeat_witness :
  let r := @DiscordWebSocket.received_message Sample.env (Text "hello") Sample.ws
             Example.world in
  let r' := @DiscordWebSocket.received_message Sample.env (Text "hello, interval 10**400")
              Sample.ws Example.world in
  @from_json Sample.env "hello"
  = Return (Payload.mk 10 (JDict [("heartbeat_interval", JInt 40000)]) None None) /\
  fits_double 40000 = true /\
  result_of r = Return tt /\
  DiscordWebSocket.heartbeat_interval (object_of r) = (inject_Z 40000 / 1000)%Q /\
  length (Socket.sent (DiscordWebSocket.socket (object_of r))) = 1%nat /\
  fits_double (10 ^ 400) = false /\
  result_of r' = Raise OverflowError /\
  DiscordWebSocket.socket (object_of r') = DiscordWebSocket.socket Sample.ws.
Proof.
  intros r r'.
  assert (Hj : @from_json Sample.env "hello"
               = Return (Payload.mk 10 (JDict [("heartbeat_interval", JInt 40000)])
                           None None)) by reflexivity.
  assert (Hj' : @from_json Sample.env "hello, interval 10**400"
                = Return (Payload.mk 10 (JDict [("heartbeat_interval", JInt (10 ^ 400))])
                            None None)) by reflexivity.
  assert (Hfit : fits_double 40000 = true) by (vm_compute; reflexivity).
  assert (Hfit' : fits_double (10 ^ 400) = false) by (vm_compute; reflexivity).
  split; [exact Hj|]. split; [exact Hfit|].
  destruct (@hello_sends_heartbeat Sample.env "hello" _ Sample.ws Example.world
              Hj eq_refl eq_refl) as (_ & _ & Hok & _).
  destruct (Hok 40000%Z eq_refl Hfit) as (Hr & Hi & Hs & _).
  split; [exact Hr|]. split; [exact Hi|].
  split; [exact (f_equal (@length string) Hs)|].
  split; [exact Hfit'|].
  destruct (@hello_sends_heartbeat Sample.env "hello, interval 10**400" _ Sample.ws
              Example.world Hj' eq_refl eq_refl) as (_ & _ & _ & Hover & _).
  destruct (Hover (10 ^ 400)%Z eq_refl Hfit') as (Hr' & Hs' & _).
  split; [exact Hr' | exact Hs'].
Defined.

Lemma heartbeat_round_trip_witness :
  let sent := @DiscordWebSocket._heartbeat_loop_turn Sample.env Sample.ws Example.world in
  let later := elapse (1 # 4) (object_of sent) (world_of sent) in
  let acked := @DiscordWebSocket.received_message Sample.env (Text "heartbeat ack")
                 (object_of later) (world_of later) in
  @from_json Sample.env "heartbeat ack" = Return (Payload.mk 11 JNull None None) /\
  length (Socket.sent (DiscordWebSocket.socket (object_of sent))) = 1%nat /\
  result_of acked = Return tt /\
  (DiscordWebSocket.latency (object_of acked) == 1 # 4)%Q.
Proof.
  intros sent later acked.
  assert (Hj : @from_json Sample.env "heartbeat ack"
               = Return (Payload.mk 11 JNull None None)) by reflexivity.
  split; [exact Hj|].
  destruct (@heartbeat_round_trip Sample.env "heartbeat ack" _ (1 # 4) Sample.ws
              Example.world eq_refl Hj eq_refl)
    as (_ & Hs & _ & _ & _ & _ & Hr & _ & Hl & _).
  split; [exact (f_equal (@length string) Hs)|].
  split; [exact Hr | exact Hl].
Defined.

Lemma second_ack_raises_witness :
  let w := set_futures {[ 0%nat := Resolved JNull ]} Example.world in
  let o := @DiscordWebSocket.set_heartbeat_ack_received Sample.env (Some 0%nat) Sample.ws in
  let v := DiscordVoiceWebSocket.set_heartbeat_ack_received (Some 0%nat) Sample.voice in
  futures w !! 0%nat = Some (Resolved JNull) /\
  Resolved JNull <> Pending /\
  result_of (@DiscordWebSocket.received_message Sample.env (Text "heartbeat ack") o w)
  = Raise InvalidStateError /\
  @DiscordVoiceWebSocket.received_message Sample.env [] (Payload.mk 6 JNull None None) v w
  = (Raise InvalidStateError, v, w).
Proof.
  intros w o v.
  assert (Hf : futures w !! 0%nat = Some (Resolved JNull)) by reflexivity.
  assert (Hd : Resolved JNull <> Pending) by discriminate.
  split; [exact Hf|]. split; [exact Hd|].
  destruct (@second_ack_raises Sample.env 0%nat _ w Hf Hd) as (Hdws & _ & Hvoice).
  split.
  - destruct (Hdws "heartbeat ack" _ o eq_refl eq_refl eq_refl) as (Hr & _).
    exact Hr.
  - exact (Hvoice [] (Payload.mk 6 JNull None None) v eq_refl eq_refl).
Defined.
(** ** The loop that removes the dispatched listeners *)

Section DispatchLoop.
Context {O : Type}.

Lemma waiting_snoc (ls : list EventListener) (x : EventListener) (w : World) :
  waiting (ls ++ [x]) w ->
  waiting ls w /\ (future x ∉ map future ls) /\
  (futures w !! future x = Some Pending \/ futures w !! future x = Some Cancelled).
Proof.
  intros [Hnd Hst]. rewrite map_app in Hnd. cbn [map] in Hnd.
  apply NoDup_app in Hnd as (Hnd & Hfresh & _).
  apply Forall_app in Hst as [Hst Hx]. rewrite Forall_singleton in Hx.
  split; [split; assumption|]. split; [|exact Hx].
  intros Hin. apply (Hfresh _ Hin). left.
Qed.

Lemma future_of_elem (ls : list EventListener) (l : EventListener) :
  l ∈ ls -> future l ∈ map future ls.
Proof.
  intros Hl. apply list_elem_of_In, in_map, list_elem_of_In, Hl.
Qed.

Lemma set_futures_same (w : World) : set_futures (futures w) w = w.
Proof. now destruct w. Qed.

(** The scan as a whole: the indices it collects are those of the waiters
    that do not stay, and each future it visits is settled. *)
Lemma scan_is_filter (ev : option string) (data : json) (ls : list EventListener)
    (o : O) (w : World) :
  waiting ls w ->
  transforms_return ls data ->
  exists removed fs,
    scan_listeners ev data (enumerate ls) [] o w = (Return removed, o, set_futures fs w) /\
    removed `sublist_of` seq 0 (length ls) /\
    del_reversed removed ls = filter (fun l => stays ev data w l) ls /\
    (forall l st, l ∈ ls -> futures w !! future l = Some st ->
                  fs !! future l = Some (settled ev data l st)) /\
    (forall f, f ∉ map future ls -> fs !! f = futures w !! f).
Proof.
  induction ls as [|x ls IH] using rev_ind; intros Hw Htr.
  - exists [], (futures w). rewrite set_futures_same. cbn.
    repeat split; try reflexivity.
    intros l st Hl. now apply elem_of_nil in Hl.
  - apply waiting_snoc in Hw as (Hw & Hfresh & Hx).
    apply Forall_app in Htr as [Htr Hxtr]. rewrite Forall_singleton in Hxtr.
    destruct (IH Hw Htr) as (removed & fs & Hscan & Hsub & Hdel & Hset & Hfr).
    pose proof (Hfr _ Hfresh) as Hxw.
    rewrite enumerate_snoc, scan_listeners_app.
    erewrite bind_run by exact Hscan. cbn [scan_listeners].
    assert (Hseq : forall extra, extra `sublist_of` [length ls] ->
                     removed ++ extra `sublist_of` seq 0 (length (ls ++ [x]))).
    { intros extra Hextra. rewrite length_app. cbn [length].
      rewrite Nat.add_1_r, seq_S. cbn [Nat.add]. now apply sublist_app. }
    assert (Hother : forall l, l ∈ ls -> future l <> future x).
    { intros l Hl Heq. apply Hfresh. rewrite <- Heq. now apply future_of_elem. }
    assert (Hkeep : stays ev data w x = true ->
                    (forall st, futures w !! future x = Some st ->
                                settled ev data x st = st) ->
              exists removed' fs',
                (Return removed, o, set_futures fs w) = (Return removed', o, set_futures fs' w) /\
                removed' `sublist_of` seq 0 (length (ls ++ [x])) /\
                del_reversed removed' (ls ++ [x])
                = filter (fun l => stays ev data w l) (ls ++ [x]) /\
                (forall l st, l ∈ ls ++ [x] -> futures w !! future l = Some st ->
                              fs' !! future l = Some (settled ev data l st)) /\
                (forall f, f ∉ map future (ls ++ [x]) -> fs' !! f = futures w !! f)).
    { intros Hstay Hsame. exists removed, fs.
      split; [reflexivity|]. split.
      { rewrite <- (app_nil_r removed). apply Hseq, sublist_nil_l. }
      split.
      { rewrite (del_reversed_app removed ls [x] Hsub), Hdel, filter_app.
        rewrite (filter_cons_True _ x) by (now rewrite Hstay). reflexivity. }
      split.
      { intros l st Hl Hst. apply elem_of_app in Hl as [Hl|Hl].
        - now apply Hset.
        - apply list_elem_of_singleton in Hl as ->.
          rewrite (Hsame st Hst), Hxw. exact Hst. }
      intros f Hf. apply Hfr. intros Hin. apply Hf.
      rewrite map_app. apply elem_of_app. now left. }
    assert (Hdrop : forall (c : bool) s,
              stays ev data w x = false ->
              (forall st, futures w !! future x = Some st ->
                          settled ev data x st = s) ->
              (c = true -> futures w !! future x = Some s) ->
              exists removed' fs',
                (Return (removed ++ [length ls]), o,
                 set_futures (if c then fs else <[future x := s]> fs) w)
                = (Return removed', o, set_futures fs' w) /\
                removed' `sublist_of` seq 0 (length (ls ++ [x])) /\
                del_reversed removed' (ls ++ [x])
                = filter (fun l => stays ev data w l) (ls ++ [x]) /\
                (forall l st, l ∈ ls ++ [x] -> futures w !! future l = Some st ->
                              fs' !! future l = Some (settled ev data l st)) /\
                (forall f, f ∉ map future (ls ++ [x]) -> fs' !! f = futures w !! f)).
    { intros c s Hstay Hs Hcanc. eexists _, _.
      split; [reflexivity|]. split; [apply Hseq; reflexivity|]. split.
      { rewrite del_reversed_snoc, Hdel, filter_app.
        rewrite (filter_cons_False _ x) by (now rewrite Hstay).
        now rewrite filter_nil, app_nil_r. }
      split.
      { intros l st Hl Hst. apply elem_of_app in Hl as [Hl|Hl].
        - destruct c; [now apply Hset|].
          rewrite lookup_insert_ne by (apply not_eq_sym, Hother, Hl). now apply Hset.
        - apply list_elem_of_singleton in Hl as ->. rewrite (Hs st Hst).
          destruct c.
          + rewrite Hxw. now apply Hcanc.
          + apply lookup_insert_eq. }
      intros f Hf. rewrite map_app in Hf. cbn [map] in Hf.
      destruct c.
      - apply Hfr. intros Hin. apply Hf, elem_of_app. now left.
      - rewrite lookup_insert_ne.
        + apply Hfr. intros Hin. apply Hf, elem_of_app. now left.
        + intros <-. apply Hf, elem_of_app. right. left. }
    unfold stays, settled in Hkeep, Hdrop.
    destruct (bool_decide (Some (event x) = ev)) eqn:Hev; cbn [negb orb] in *.
    2:{ apply Hkeep; [reflexivity | reflexivity]. }
    erewrite (bind_run (cancelled (future x))) by reflexivity.
    cbn [futures set_futures]. rewrite Hxw.
    destruct Hx as [Hp|Hc]; rewrite ?Hp, ?Hc in *.
    + destruct (predicate x data) as [[|]|exc] eqn:Hpred.
      * destruct (result x) as [tr|] eqn:Hres.
        -- destruct (Hxtr tr eq_refl) as (v & Hv). rewrite Hv in Hdrop.
           erewrite bind_run by (rewrite lift_run, Hv; reflexivity).
           erewrite bind_run
             by (rewrite set_result_run; cbn [futures set_futures];
                 rewrite Hxw; reflexivity).
           cbn [scan_listeners ret].
           destruct (Hdrop false (Resolved v)) as (removed' & fs' & Heq & Hrest);
             [reflexivity | now intros st [= <-] | discriminate |].
           exists removed', fs'. split; [|exact Hrest].
           rewrite <- Heq. now destruct w.
        -- erewrite bind_run by reflexivity.
           erewrite bind_run
             by (rewrite set_result_run; cbn [futures set_futures];
                 rewrite Hxw; reflexivity).
           cbn [scan_listeners ret].
           destruct (Hdrop false (Resolved data)) as (removed' & fs' & Heq & Hrest);
             [reflexivity | now intros st [= <-] | discriminate |].
           exists removed', fs'. split; [|exact Hrest].
           rewrite <- Heq. now destruct w.
      * apply Hkeep; [reflexivity | now intros st [= <-]].
      * erewrite bind_run
          by (rewrite set_exception_run; cbn [futures set_futures];
              rewrite Hxw; reflexivity).
        cbn [scan_listeners ret].
        destruct (Hdrop false (Rejected exc)) as (removed' & fs' & Heq & Hrest);
          [reflexivity | now intros st [= <-] | discriminate |].
        exists removed', fs'. split; [|exact Hrest].
        rewrite <- Heq. now destruct w.
    + cbn [scan_listeners ret].
      destruct (Hdrop true Cancelled) as (removed' & fs' & Heq & Hrest);
        [reflexivity | now intros st [= <-] | reflexivity |].
      exists removed', fs'. split; [|exact Hrest]. exact Heq.
Qed.

(** The waiters that stay are in order after the dispatch as well. *)
Lemma waiting_filter (ev : option string) (data : json) (ls : list EventListener)
    (w : World) (fs : gmap nat Future) :
  waiting ls w ->
  (forall l st, l ∈ ls -> futures w !! future l = Some st ->
                fs !! future l = Some (settled ev data l st)) ->
  waiting (filter (fun l => stays ev data w l) ls) (set_futures fs w).
Proof.
  intros [Hnd Hst] Hset. split.
  - clear Hst Hset. induction ls as [|x ls IH]; [constructor|].
    cbn [map] in Hnd. apply NoDup_cons in Hnd as [Hx Hnd].
    rewrite filter_cons. destruct (decide _); [|now apply IH].
    cbn [map]. apply NoDup_cons. split; [|now apply IH].
    intros Hin. apply Hx.
    apply list_elem_of_In, in_map_iff in Hin as (l & Hl & Hin).
    apply list_elem_of_In, list_elem_of_filter in Hin as [_ Hin].
    rewrite <- Hl. now apply future_of_elem.
  - apply Forall_forall. intros l Hl.
    apply list_elem_of_filter in Hl as [Hstay Hl].
    rewrite Forall_forall in Hst. specialize (Hst l Hl).
    cbn [futures set_futures].
    unfold stays in Hstay. unfold settled in Hset.
    destruct Hst as [Hp|Hc].
    + rewrite (Hset l Pending Hl Hp). rewrite Hp in Hstay.
      destruct (bool_decide (Some (event l) = ev)); [|now left].
      cbn [negb orb] in Hstay.
      destruct (predicate l data) as [[|]|]; try contradiction. now left.
    + rewrite (Hset l Cancelled Hl Hc).
      destruct (bool_decide (Some (event l) = ev)); now right.
Qed.

End DispatchLoop.

Section Dispatch.
Context `{Env}.

(** X11.  The loop "remove the dispatched listeners" of
    [DiscordWebSocket.received_message] and of [Shard.dispatch_events], on
    waiters that are in order and with transforms that return: it filters
    the list (a waiter for another event stays; one for this event stays
    when its future is not cancelled and its predicate returns false),
    settles the future of every waiter it removes (the exception of the
    predicate, or the data or its transform), changes nothing else, and
    leaves the waiters in order. *)
Theorem dispatch_is_filter (ev : option string) (data : json)
    (ls : list EventListener) (w : World) :
  waiting ls w ->
  transforms_return ls data ->
  let kept := filter (fun l => stays ev data w l) ls in
  (forall o, DiscordWebSocket._dispatch_listeners o = ls ->
     exists fs,
       DiscordWebSocket.dispatch_listeners ev data o w
       = (Return tt, DiscordWebSocket.set_dispatch_listeners kept o, set_futures fs w) /\
       (forall l st, l ∈ ls -> futures w !! future l = Some st ->
                     fs !! future l = Some (settled ev data l st)) /\
       (forall f, f ∉ map future ls -> fs !! f = futures w !! f) /\
       waiting kept (set_futures fs w)) /\
  (forall sh, Shard.dispatch_listeners sh = ls ->
     exists fs,
       Shard.remove_dispatched ev data sh w
       = (Return tt, Shard.set_dispatch_listeners kept sh, set_futures fs w) /\
       (forall l st, l ∈ ls -> futures w !! future l = Some st ->
                     fs !! future l = Some (settled ev data l st)) /\
       (forall f, f ∉ map future ls -> fs !! f = futures w !! f) /\
       waiting kept (set_futures fs w)).
Proof.
  intros Hw Htr kept. subst kept. split.
  - intros o Hl.
    destruct (scan_is_filter ev data ls o w Hw Htr)
      as (removed & fs & Hscan & _ & Hdel & Hset & Hfr).
    exists fs. split; [|split; [exact Hset | split; [exact Hfr|]]].
    + unfold DiscordWebSocket.dispatch_listeners.
      erewrite bind_run by reflexivity. rewrite Hl.
      erewrite bind_run by exact Hscan.
      unfold modify. now rewrite Hl, Hdel.
    + now apply waiting_filter.
  - intros sh Hl.
    destruct (scan_is_filter ev data ls sh w Hw Htr)
      as (removed & fs & Hscan & _ & Hdel & Hset & Hfr).
    exists fs. split; [|split; [exact Hset | split; [exact Hfr|]]].
    + unfold Shard.remove_dispatched.
      erewrite bind_run by reflexivity. rewrite Hl.
      erewrite bind_run by exact Hscan.
      unfold modify. now rewrite Hl, Hdel.
    + now apply waiting_filter.
Qed.

(** X12.  When the loop is left by an exception (a transform that raises,
    or a future that was settled behind the gateway's back), no waiter is
    removed: those the loop had already settled are still registered. *)
Theorem failed_dispatch_removes_nothing (ev : option string) (data : json) (e : exn)
    (w : World) :
  (forall o,
     result_of (DiscordWebSocket.dispatch_listeners ev data o w) = Raise e ->
     object_of (DiscordWebSocket.dispatch_listeners ev data o w) = o) /\
  (forall sh,
     result_of (Shard.remove_dispatched ev data sh w) = Raise e ->
     object_of (Shard.remove_dispatched ev data sh w) = sh).
Proof.
  split.
  - intros o. unfold DiscordWebSocket.dispatch_listeners.
    erewrite bind_run by reflexivity.
    destruct (scan_listeners_frame ev data
                (enumerate (DiscordWebSocket._dispatch_listeners o)) [] o w) as (Ho & _).
    unfold bind.
    destruct (scan_listeners ev data _ [] o w) as [[[res|e'] o'] w'];
      cbn in *; [discriminate | now intros _].
  - intros sh. unfold Shard.remove_dispatched.
    erewrite bind_run by reflexivity.
    destruct (scan_listeners_frame ev data
                (enumerate (Shard.dispatch_listeners sh)) [] sh w) as (Ho & _).
    unfold bind.
    destruct (scan_listeners ev data _ [] sh w) as [[[res|e'] o'] w'];
      cbn in *; [discriminate | now intros _].
Qed.

End Dispatch.

(** Three waiters: for "X" with a predicate that holds, for "Y", and for "X"
    with a predicate that does not hold; "X" is dispatched. *)
Lemma dispatch_is_filter_witness :
  let l0 := mkListener (fun _ => Return true) "X" None 0 in
  let l1 := mkListener (fun _ => Return true) "Y" None 1 in
  let l2 := mkListener (fun _ => Return false) "X" None 2 in
  let ls := [l0; l1; l2] in
  let w := set_futures (<[0%nat := Pending]> (<[1%nat := Pending]> {[ 2%nat := Pending ]}))
             Example.world in
  let o := @DiscordWebSocket.set_dispatch_listeners Sample.env ls Sample.ws in
  let r := @DiscordWebSocket.dispatch_listeners Sample.env (Some "X") (JInt 7) o w in
  waiting ls w /\
  transforms_return ls (JInt 7) /\
  result_of r = Return tt /\
  DiscordWebSocket._dispatch_listeners (object_of r) = [l1; l2] /\
  futures (world_of r) !! 0%nat = Some (Resolved (JInt 7)).
Proof.
  intros l0 l1 l2 ls w o r.
  assert (Hwait : waiting ls w).
  { split.
    - apply (bool_decide_unpack _). vm_compute. exact I.
    - repeat constructor. }
  assert (Htr : transforms_return ls (JInt 7)).
  { repeat constructor; intros tr Htr; discriminate Htr. }
  split; [exact Hwait|]. split; [exact Htr|].
  destruct (@dispatch_is_filter Sample.env (Some "X") (JInt 7) ls w Hwait Htr)
    as (Hdws & _).
  destruct (Hdws o eq_refl) as (fs & Hrun & Hset & _).
  subst r. rewrite Hrun.
  split; [reflexivity|]. split; [reflexivity|].
  apply (Hset l0 Pending).
  - left.
  - reflexivity.
Defined.

(** A waiter whose predicate holds, before one whose transform raises: the
    dispatch raises, the first future is resolved, and both waiters are
    still registered. *)
Lemma failed_dispatch_removes_nothing_witness :
  let l0 := mkListener (fun _ => Return true) "X" None 0 in
  let l1 := mkListener (fun _ => Return true) "X" (Some (fun _ => Raise KeyError)) 1 in
  let w := set_futures (<[0%nat := Pending]> {[ 1%nat := Pending ]}) Example.world in
  let o := @DiscordWebSocket.set_dispatch_listeners Sample.env [l0; l1] Sample.ws in
  let r := @DiscordWebSocket.dispatch_listeners Sample.env (Some "X") (JInt 7) o w in
  result_of r = Raise KeyError /\
  object_of r = o /\
  futures (world_of r) !! 0%nat = Some (Resolved (JInt 7)).
Proof.
  intros l0 l1 w o r.
  assert (Hr : result_of r = Raise KeyError) by reflexivity.
  split; [exact Hr|]. split.
  - destruct (@failed_dispatch_removes_nothing Sample.env (Some "X") (JInt 7) KeyError w)
      as (Hdws & _).
    exact (Hdws o Hr).
  - reflexivity.
Defined.
(** ** DiscordWebSocket: READY and unknown opcodes *)

Section Ready.
Context `{Env}.
Import DiscordWebSocket.

Lemma bind_maintains_from {A B} (P : obj -> Prop) (m : M obj A) (k : A -> M obj B)
    (o o' : obj) (w w' : World) (r : outcome A) :
  m o w = (r, o', w') -> P o' -> (forall a, maintains P (k a)) ->
  P (object_of (bind m k o w)).
Proof.
  intros Hm Ho' Hk. unfold bind. rewrite Hm.
  destruct r as [a|e]; [now apply Hk | exact Ho'].
Qed.

(** What follows the READY and RESUMED branches changes the waiters only. *)
Lemma dispatch_tail_maintains (P : obj -> Prop) (ev : option string) (data : json) :
  (forall ls o, P o -> P (set_dispatch_listeners ls o)) ->
  maintains P (parsed <- run_parser ev data ;; dispatch_listeners ev parsed).
Proof.
  intros HP. unfold run_parser, dispatch_listeners. maintain. now apply HP.
Qed.

(** X13.  READY on the main gateway: the session id and the resume URL of
    the data are stored, with the trace, and the stored sequence number
    becomes the [s] of the message, also when that is null.  Without a
    session id in the data the method raises [KeyError] with the trace and
    the sequence number already overwritten, and no waiter is looked at. *)
Theorem ready_captures_session (msg : string) (payload : Payload.obj)
    (kv : list (string * json)) (o : obj) (w : World) :
  from_json msg = Return payload ->
  Payload.op payload = 0%Z ->
  Payload.t payload = Some "READY" ->
  Payload.d payload = JDict kv ->
  let r := received_message (Text msg) o w in
  let trace := default (JList []) (assoc_get "_trace" kv) in
  (forall sid url,
     assoc_get "session_id" kv = Some sid ->
     assoc_get "resume_gateway_url" kv = Some url ->
     session_id (object_of r) = sid /\
     resume_url (object_of r) = url /\
     sequence (object_of r) = Payload.s payload /\
     _trace (object_of r) = trace) /\
  (assoc_get "session_id" kv = None ->
     result_of r = Raise KeyError /\
     object_of r = set_sequence (Payload.s payload) (set_trace trace o) /\
     futures (world_of r) = futures w).
Proof.
  intros Hj Hop Ht Hd r trace. subst r trace.
  unfold received_message, received_message_text.
  destruct (log_receive_keeps msg o w) as (w1 & Hlog & Hf1 & _).
  rewrite (bind_run _ _ _ _ _ _ _ Hlog).
  erewrite bind_run by (rewrite lift_run, Hj; reflexivity).
  rewrite Hop, Ht, Hd.
  erewrite bind_run by reflexivity.
  set (o1 := match Payload.s payload with
             | Some n => set_sequence (Some n) o
             | None => o
             end).
  erewrite (bind_run _ _ _ o1)
    by (destruct (Payload.s payload);
        rewrite ?bool_decide_is_Some, ?bool_decide_is_Some_None; reflexivity).
  cbn [Z.eqb DISPATCH negb].
  rewrite bool_decide_eq_true_2 by reflexivity.
  split.
  - intros sid url Hsid Hurl.
    set (P := fun o' => session_id o' = sid /\ resume_url o' = url /\
                        sequence o' = Payload.s payload /\
                        _trace o' = default (JList []) (assoc_get "_trace" kv)).
    change (P (object_of (bind (on_ready payload (JDict kv))
                            (fun data => parsed <- run_parser (Some "READY") data ;;
                                         dispatch_listeners (Some "READY") parsed)
                            o1 (mkWorld (now w1) (perf w1) (futures w1) (sleeps w1)
                                  (("socket_event_type", JStr "READY") :: dispatched w1))))).
    match goal with
    | |- P (object_of (bind ?m _ ?o' ?w')) =>
        assert (Hready : exists res,
                  m o' w'
                  = (res,
                     set_resume_url url
                       (set_session_id sid
                          (set_sequence (Payload.s payload)
                             (set_trace (default (JList []) (assoc_get "_trace" kv)) o1))),
                     w'))
    end.
    { unfold on_ready, subscript, dict_get, dict_set. rewrite Hsid, Hurl.
      unfold bind, lift, modify, get. cbn -[join_check assoc_set].
      destruct (join_check _); eexists; reflexivity. }
    destruct Hready as (res & Hready).
    eapply bind_maintains_from.
    + exact Hready.
    + subst P o1. cbn. destruct (Payload.s payload); repeat split.
    + intros data. apply dispatch_tail_maintains. intros ls o' Ho'. exact Ho'.
  - intros Hsid.
    erewrite bind_raise.
    2:{ unfold on_ready, subscript, dict_get. rewrite Hsid.
        unfold bind, lift, modify, get. cbn. reflexivity. }
    cbn [result_of object_of world_of fst snd futures].
    split; [reflexivity|]. split; [|exact Hf1].
    subst o1. destruct (Payload.s payload); reflexivity.
Qed.

(** X14.  An opcode that the method does not know is ignored: it returns,
    having stored the sequence number of the message if it carries one, and
    has written nothing, settled no future and slept for nothing. *)
Theorem unknown_opcode_is_ignored (msg : string) (payload : Payload.obj)
    (o : obj) (w : World) :
  from_json msg = Return payload ->
  Payload.op payload ∉ [0; 1; 7; 9; 10; 11]%Z ->
  let r := received_message (Text msg) o w in
  result_of r = Return tt /\
  object_of r = match Payload.s payload with
                | Some n => set_sequence (Some n) o
                | None => o
                end /\
  futures (world_of r) = futures w /\
  sleeps (world_of r) = sleeps w.
Proof.
  intros Hj Hop r. subst r.
  unfold received_message, received_message_text.
  destruct (log_receive_keeps msg o w) as (w1 & Hlog & Hf1 & Hs1 & _).
  rewrite (bind_run _ _ _ _ _ _ _ Hlog).
  erewrite bind_run by (rewrite lift_run, Hj; reflexivity).
  assert (Hne : forall c, c ∈ [0; 1; 7; 9; 10; 11]%Z -> (Payload.op payload =? c)%Z = false).
  { intros c Hc. apply Z.eqb_neq. intros Heq. apply Hop. now rewrite Heq. }
  unfold DISPATCH, RECONNECT, HEARTBEAT_ACK, HEARTBEAT, HELLO, INVALIDATE_SESSION.
  rewrite !Hne by (apply (bool_decide_unpack _); reflexivity).
  destruct (truthy _); destruct (Payload.s payload);
    rewrite ?bool_decide_is_Some, ?bool_decide_is_Some_None; cbn;
    destruct (_heartbeat_ack_received o); cbn; auto.
Qed.

End Ready.

Lemma ready_captures_session_witness :
  let r := @DiscordWebSocket.received_message Sample.env (Text "ready") Sample.ws
             Example.world in
  @from_json Sample.env "ready"
  = Return (Payload.mk 0 Sample.ready_data (Some 1%Z) (Some "READY")) /\
  DiscordWebSocket.session_id (object_of r) = JStr "abc" /\
  DiscordWebSocket.resume_url (object_of r) = JStr "wss://resume" /\
  DiscordWebSocket.sequence (object_of r) = Some 1%Z.
Proof.
  intros r.
  assert (Hj : @from_json Sample.env "ready"
               = Return (Payload.mk 0 Sample.ready_data (Some 1%Z) (Some "READY")))
    by reflexivity.
  split; [exact Hj|].
  destruct (@ready_captures_session Sample.env "ready" _ _ Sample.ws Example.world
              Hj eq_refl eq_refl eq_refl) as (Hok & _).
  destruct (Hok (JStr "abc") (JStr "wss://resume") eq_refl eq_refl)
    as (Hsid & Hurl & Hseq & _).
  split; [exact Hsid|]. split; [exact Hurl | exact Hseq].
Defined.

Lemma unknown_opcode_is_ignored_witness :
  let r := @DiscordWebSocket.received_message Sample.env (Text "opcode 12") Sample.ws
             Example.world in
  @from_json Sample.env "opcode 12" = Return (Payload.mk 12 JNull (Some 4%Z) None) /\
  (12%Z ∉ [0; 1; 7; 9; 10; 11]%Z) /\
  result_of r = Return tt /\
  DiscordWebSocket.sequence (object_of r) = Some 4%Z.
Proof.
  intros r.
  assert (Hj : @from_json Sample.env "opcode 12"
               = Return (Payload.mk 12 JNull (Some 4%Z) None)) by reflexivity.
  assert (Hop : 12%Z ∉ [0; 1; 7; 9; 10; 11]%Z).
  { apply (bool_decide_unpack _). vm_compute. exact I. }
  split; [exact Hj|]. split; [exact Hop|].
  destruct (@unknown_opcode_is_ignored Sample.env "opcode 12" _ Sample.ws Example.world
              Hj Hop) as (Hr & Ho & _).
  split; [exact Hr|]. subst r. rewrite Ho. reflexivity.
Defined.
(** ** Shard: sending, HELLO and disconnecting *)

Section ShardSending.
Context `{Env}.
Import Shard.

(** X15.  A shard whose socket is not open: [send], [heartbeat],
    [identify] and [resume] raise [AttributeError] before anything else
    happens (no slot of the rate limiter is taken, nothing sleeps, and the
    time of the last heartbeat is not moved), and [disconnect] does
    nothing. *)
Theorem shard_without_socket (sh : obj) (w : World) :
  _socket sh = None ->
  (forall data, send data sh w = (Raise AttributeError, sh, w)) /\
  heartbeat sh w = (Raise AttributeError, sh, w) /\
  identify sh w = (Raise AttributeError, sh, w) /\
  resume sh w = (Raise AttributeError, sh, w) /\
  (forall keep_session, disconnect keep_session sh w = (Return tt, sh, w)).
Proof.
  intros Hs.
  assert (Hsend : forall data, send data sh w = (Raise AttributeError, sh, w)).
  { intros data. unfold send. erewrite bind_run by reflexivity.
    now rewrite Hs, bool_decide_eq_true_2 by reflexivity. }
  split; [exact Hsend|].
  split; [unfold heartbeat; erewrite bind_run by reflexivity;
          erewrite bind_raise by apply Hsend; reflexivity|].
  split; [unfold identify; erewrite bind_run by reflexivity; apply Hsend|].
  split; [unfold resume; erewrite bind_run by reflexivity; apply Hsend|].
  intros keep_session. unfold disconnect. erewrite bind_run by reflexivity.
  now rewrite Hs, bool_decide_eq_true_2 by reflexivity.
Qed.

(** A frame sent while the limiter has a slot. *)
Lemma shard_send_with_slot (data : string) (sh : obj) (sk : Socket.obj) (w : World) :
  _socket sh = Some sk ->
  Socket.fault sk = None ->
  (0 < GatewayRatelimiter.remaining (_rate_limiter sh)
   <= GatewayRatelimiter.max (_rate_limiter sh))%Z ->
  exists rl w',
    send data sh w
    = (Return tt,
       set_socket (Some (Socket.mk (Socket.closed sk) (Socket.close_code sk)
                                   (data :: Socket.sent sk) (Socket.closed_with sk)
                                   (Socket.fault sk)))
         (set_rate_limiter rl sh), w') /\
    GatewayRatelimiter.max rl = GatewayRatelimiter.max (_rate_limiter sh) /\
    (GatewayRatelimiter.remaining (_rate_limiter sh) - 1
     <= GatewayRatelimiter.remaining rl
     <= GatewayRatelimiter.max (_rate_limiter sh))%Z /\
    sleeps w' = sleeps w /\ perf w' = perf w /\ now w' = now w /\
    futures w' = futures w.
Proof.
  intros Hs Hfault Hrem.
  destruct (block_with_slot (_rate_limiter sh) w Hrem) as (rl & Hb & Hmax & Hr).
  exists rl.
  unfold send. erewrite bind_run by reflexivity.
  rewrite Hs, bool_decide_eq_false_2 by discriminate.
  erewrite bind_run by (unfold zoom; rewrite Hb; reflexivity).
  destruct (debug sh) eqn:Hdebug.
  - eexists. split; [|split; [exact Hmax | split; [exact Hr|]]].
    + erewrite bind_run by reflexivity.
      unfold on_socket. erewrite bind_run by reflexivity.
      cbn [set_rate_limiter _socket]. rewrite Hs.
      unfold zoom, Socket.send_str, bind, get, modify. rewrite Hfault. cbn.
      rewrite ?Hfault. reflexivity.
    + repeat split.
  - eexists. split; [|split; [exact Hmax | split; [exact Hr|]]].
    + erewrite bind_run by reflexivity.
      unfold on_socket. erewrite bind_run by reflexivity.
      cbn [set_rate_limiter _socket]. rewrite Hs.
      unfold zoom, Socket.send_str, bind, get, modify. rewrite Hfault. cbn.
      rewrite ?Hfault. reflexivity.
    + repeat split.
Qed.

Lemma shard_heartbeat_with_slot (sh : obj) (sk : Socket.obj) (w : World) :
  _socket sh = Some sk ->
  Socket.fault sk = None ->
  (0 < GatewayRatelimiter.remaining (_rate_limiter sh)
   <= GatewayRatelimiter.max (_rate_limiter sh))%Z ->
  exists rl w',
    heartbeat sh w
    = (Return tt,
       set_heartbeat_sent_time (perf w)
         (set_socket
            (Some (Socket.mk (Socket.closed sk) (Socket.close_code sk)
                     (to_json (JDict [("op", JInt 1); ("d", json_of_int (sequence sh))])
                        :: Socket.sent sk)
                     (Socket.closed_with sk) (Socket.fault sk)))
            (set_rate_limiter rl sh)), w') /\
    GatewayRatelimiter.max rl = GatewayRatelimiter.max (_rate_limiter sh) /\
    (GatewayRatelimiter.remaining (_rate_limiter sh) - 1
     <= GatewayRatelimiter.remaining rl
     <= GatewayRatelimiter.max (_rate_limiter sh))%Z /\
    sleeps w' = sleeps w /\ futures w' = futures w.
Proof.
  intros Hs Hfault Hrem.
  destruct (shard_send_with_slot
              (to_json (JDict [("op", JInt 1); ("d", json_of_int (sequence sh))]))
              sh sk w Hs Hfault Hrem)
    as (rl & w' & Hsend & Hmax & Hr & Hsl & Hp & _ & Hf).
  exists rl, w'. split; [|auto].
  unfold heartbeat. erewrite bind_run by reflexivity.
  erewrite bind_run by exact Hsend.
  erewrite bind_run by reflexivity. unfold modify. now rewrite Hp.
Qed.

(** X16.  HELLO on a shard whose socket is open and whose limiter has two
    slots left, for an interval that is an [int] in the range of a double:
    the interval is stored in seconds, a heartbeat is written at once and
    the heartbeat task started, and then the shard resumes when it holds a
    session id and identifies when it does not.  Both frames pass the
    limiter, which uses at most two slots for them; nothing sleeps.  For an
    [int] beyond the range of a double [float] raises [OverflowError]: the
    sequence number of the payload is stored and nothing else happens. *)
Theorem shard_hello_opens_session (payload : Payload.obj) (ms : Z)
    (sh : obj) (sk : Socket.obj) (w : World) :
  Payload.op payload = 10%Z ->
  subscript (Payload.d payload) "heartbeat_interval" = Return (JInt ms) ->
  _socket sh = Some sk ->
  Socket.fault sk = None ->
  (2 <= GatewayRatelimiter.remaining (_rate_limiter sh)
   <= GatewayRatelimiter.max (_rate_limiter sh))%Z ->
  let r := _process_payload payload sh w in
  let seq := match Payload.s payload with
             | Some n => Some n
             | None => sequence sh
             end in
  (fits_double ms = true ->
   exists sk' body,
    result_of r = Return tt /\
    _socket (object_of r) = Some sk' /\
    Socket.sent sk'
    = to_json (JDict [("op", JInt (if is_null (session_id sh) then 2 else 6));
                      ("d", JDict body)])
      :: to_json (JDict [("op", JInt 1); ("d", json_of_int seq)])
      :: Socket.sent sk /\
    assoc_get "token" body = Some (JStr (_token sh)) /\
    (is_null (session_id sh) = false ->
     body = [("seq", json_of_int seq); ("session_id", session_id sh);
             ("token", JStr (_token sh))]) /\
    (is_null (session_id sh) = true ->
     assoc_get "session_id" body = None /\
     assoc_get "intents" body = Some (JInt (intents sh)) /\
     assoc_get "shard" body = Some (JList [JInt (shard_id sh); JInt (shard_count sh)])) /\
    heartbeat_interval (object_of r) = (inject_Z ms / 1000)%Q /\
    _heartbeat_task (object_of r) = Some heartbeat_loop_task /\
    _heartbeat_sent_time (object_of r) = perf w /\
    (GatewayRatelimiter.remaining (_rate_limiter sh) - 2
     <= GatewayRatelimiter.remaining (_rate_limiter (object_of r))
     <= GatewayRatelimiter.max (_rate_limiter sh))%Z /\
    sleeps (world_of r) = sleeps w) /\
  (fits_double ms = false ->
   r = (Raise OverflowError,
        match Payload.s payload with
        | Some n => set_sequence (Some n) sh
        | None => sh
        end, w)).
Proof.
  intros Hop Hsub Hs Hfault Hrem r seq. subst r.
  set (o1 := match Payload.s payload with
             | Some n => set_sequence (Some n) sh
             | None => sh
             end).
  assert (Hs1 : _socket o1 = Some sk) by (subst o1; now destruct (Payload.s payload)).
  assert (Hrl1 : _rate_limiter o1 = _rate_limiter sh)
    by (subst o1; now destruct (Payload.s payload)).
  assert (Hseq1 : sequence o1 = seq) by (subst o1 seq; now destruct (Payload.s payload)).
  assert (Hstart :
            _process_payload payload sh w
            = bind (when (Payload.op payload =? HELLO)%Z then
                      (interval <- lift (subscript (Payload.d payload)
                                           "heartbeat_interval") ;;
                       interval <- lift (to_float interval) ;;
                       modify (set_heartbeat_interval (interval / 1000)%Q) ;;
                       heartbeat ;;
                       modify (set_heartbeat_task (Some heartbeat_loop_task)) ;;
                       o <- get ;;
                       if negb (is_null (session_id o)) then resume else identify))
                   (fun _ => when (Payload.op payload =? INVALID_SESSION)%Z
                             then disconnect (truthy (Payload.d payload))) o1 w).
  { unfold _process_payload. rewrite Hop.
    erewrite (bind_run _ _ _ o1)
      by (subst o1; destruct (Payload.s payload);
          rewrite ?bool_decide_is_Some, ?bool_decide_is_Some_None; reflexivity).
    erewrite bind_run by reflexivity.
    erewrite bind_run by reflexivity.
    erewrite bind_run by reflexivity.
    erewrite bind_run by reflexivity.
    erewrite bind_run by reflexivity.
    reflexivity. }
  rewrite Hstart, Hop. clear Hstart.
  cbn [HELLO INVALID_SESSION Z.eqb Pos.eqb].
  split; intros Hfit;
    [|erewrite bind_raise; [reflexivity|];
      erewrite bind_run by (rewrite lift_run, Hsub; reflexivity);
      erewrite bind_raise; [reflexivity|];
      rewrite lift_run; cbn [to_float]; unfold float_of_int; now rewrite Hfit].
  set (o2 := set_heartbeat_interval (inject_Z ms / 1000)%Q o1).
  destruct (shard_heartbeat_with_slot o2 sk w Hs1 Hfault) as
    (rl & w2 & Hbeat & Hmax & Hr & Hsl2 & Hf2).
  { subst o2. cbn [_rate_limiter set_heartbeat_interval]. rewrite Hrl1. lia. }
  cbn [_rate_limiter set_heartbeat_interval o2] in Hmax, Hr. rewrite Hrl1 in Hmax, Hr.
  cbn [sequence set_heartbeat_interval o2] in Hbeat. rewrite Hseq1 in Hbeat.
  match type of Hbeat with
  | _ = (_, ?o, _) => set (o3 := set_heartbeat_task (Some heartbeat_loop_task) o) in *
  end.
  set (body :=
         if is_null (session_id sh) then
           [("token", JStr (_token sh));
            ("properties", JDict [("os", JStr sys_platform);
                                  ("browser", JStr "nextcord");
                                  ("device", JStr "nextcord")]);
            ("compress", JBool true);
            ("large_threshold", JInt 250);
            ("intents", JInt (intents sh));
            ("shard", JList [JInt (shard_id sh); JInt (shard_count sh)])]
           ++ (if negb (is_null (activity sh)) || negb (is_null (status sh))
               then [("presence", JDict [("status", status sh); ("game", activity sh);
                                         ("since", JInt 0); ("afk", JBool false)])]
               else [])
         else
           [("seq", json_of_int seq); ("session_id", session_id sh);
            ("token", JStr (_token sh))]).
  set (frame2 := to_json (JDict [("op", JInt (if is_null (session_id sh) then 2 else 6));
                                 ("d", JDict body)])).
  assert (Hs3 : exists sk3, _socket o3 = Some sk3 /\ Socket.fault sk3 = None /\
                            Socket.sent sk3
                            = to_json (JDict [("op", JInt 1); ("d", json_of_int seq)])
                              :: Socket.sent sk).
  { eexists. split; [reflexivity|]. split; [exact Hfault | reflexivity]. }
  destruct Hs3 as (sk3 & Hs3 & Hfault3 & Hsent3).
  destruct (shard_send_with_slot frame2 o3 sk3 w2 Hs3 Hfault3) as
    (rl' & w3 & Hsend & Hmax' & Hr' & Hsl3 & Hp3 & _ & Hf3).
  { subst o3. cbn [_rate_limiter set_heartbeat_task set_heartbeat_sent_time set_socket
                   set_rate_limiter]. lia. }
  cbn [_rate_limiter set_heartbeat_task set_heartbeat_sent_time set_socket
       set_rate_limiter o3] in Hmax', Hr'.
  assert (Hfields : session_id o3 = session_id sh /\ _token o3 = _token sh /\
                    sequence o3 = seq /\ intents o3 = intents sh /\
                    shard_id o3 = shard_id sh /\ shard_count o3 = shard_count sh /\
                    activity o3 = activity sh /\ status o3 = status sh).
  { subst o3 o2 o1 seq. destruct (Payload.s payload); repeat split. }
  destruct Hfields as (Hsid & Htok & Hseq3 & Hint & Hshid & Hshc & Hact & Hsta).
  assert (Hbody : (interval <- lift (subscript (Payload.d payload) "heartbeat_interval") ;;
                   interval <- lift (to_float interval) ;;
                   modify (set_heartbeat_interval (interval / 1000)%Q) ;;
                   heartbeat ;;
                   modify (set_heartbeat_task (Some heartbeat_loop_task)) ;;
                   o <- get ;;
                   if negb (is_null (session_id o)) then resume else identify) o1 w
                  = send frame2 o3 w2).
  { erewrite bind_run by (rewrite lift_run, Hsub; reflexivity).
    erewrite bind_run
      by (rewrite lift_run; cbn [to_float]; unfold float_of_int; now rewrite Hfit).
    erewrite bind_run by reflexivity.
    erewrite bind_run by exact Hbeat.
    erewrite bind_run by reflexivity.
    erewrite bind_run by reflexivity.
    fold o3. rewrite Hsid. subst frame2 body.
    destruct (is_null (session_id sh)); cbn [negb].
    - unfold identify. erewrite bind_run by reflexivity.
      now rewrite Htok, Hint, Hshid, Hshc, Hact, Hsta.
    - unfold resume. erewrite bind_run by reflexivity.
      now rewrite Htok, Hseq3, Hsid. }
  rewrite Hsend in Hbody.
  erewrite bind_run by exact Hbody.
  cbn [result_of object_of world_of fst snd ret HELLO INVALID_SESSION Z.eqb Pos.eqb].
  eexists _, body. split; [reflexivity|]. split; [reflexivity|].
  split; [cbn [Socket.sent]; rewrite Hsent3; reflexivity|].
  subst body.
  split; [destruct (is_null (session_id sh)); reflexivity|].
  split; [intros ->; reflexivity|].
  split; [intros ->; destruct (negb _ || negb _); repeat split|].
  split; [reflexivity|]. split; [reflexivity|]. split; [reflexivity|].
  split; [cbn [_rate_limiter set_socket set_rate_limiter]; lia|].
  now rewrite Hsl3, Hsl2.
Qed.

(** X17.  [disconnect] on an open shard, called from outside the shard's
    tasks: the socket, both tasks and the acknowledgement future are
    dropped, and a pending acknowledgement is cancelled; the session id,
    the resume URL and the sequence number are kept with
    [keep_session=True] and cleared without it.  From then on [send] raises
    [AttributeError] and a second [disconnect] does nothing. *)
Theorem shard_disconnect (keep_session : bool) (sh : obj) (sk : Socket.obj) (w : World) :
  _socket sh = Some sk ->
  let r := disconnect keep_session sh w in
  result_of r = Return tt /\
  _socket (object_of r) = None /\
  _connection_task (object_of r) = None /\
  _heartbeat_task (object_of r) = None /\
  _heartbeat_ack_received (object_of r) = None /\
  (session_id (object_of r), resume_url (object_of r), sequence (object_of r))
  = (if keep_session then (session_id sh, resume_url sh, sequence sh)
     else (JNull, JNull, None)) /\
  (forall ack, _heartbeat_ack_received sh = Some ack ->
               futures w !! ack = Some Pending ->
               futures (world_of r) !! ack = Some Cancelled) /\
  (forall data w', send data (object_of r) w' = (Raise AttributeError, object_of r, w')) /\
  (forall again w', disconnect again (object_of r) w' = (Return tt, object_of r, w')).
Proof.
  intros Hs r.
  assert (Hrun : exists w',
            r = (Return tt,
                 set_socket None
                   ((if keep_session then fun o => o
                     else fun o => set_sequence None (set_session_id JNull
                                                        (set_resume_url JNull o)))
                      (set_heartbeat_ack_received None
                         (set_heartbeat_task None (set_connection_task None sh)))), w') /\
            (forall ack, _heartbeat_ack_received sh = Some ack ->
                         futures w !! ack = Some Pending ->
                         futures w' !! ack = Some Cancelled)).
  { subst r. unfold disconnect. erewrite bind_run by reflexivity.
    rewrite Hs, bool_decide_eq_false_2 by discriminate.
    erewrite bind_run by reflexivity. erewrite bind_run by reflexivity.
    destruct (_heartbeat_ack_received sh) as [ack|] eqn:Hack.
    - unfold cancel, on_socket, Socket.close, zoom, bind, get, get_world, modify,
        modify_world, ret.
      destruct (futures w !! ack) as [[| | |]|] eqn:Hf; destruct keep_session;
        cbn; rewrite Hs; cbn; (eexists; split; [reflexivity|]);
        intros ack' [= <-] Hp; cbn; rewrite ?lookup_insert_eq; congruence.
    - unfold on_socket, Socket.close, zoom, bind, get, modify, ret.
      destruct sh; cbn in Hs, Hack; subst.
      destruct keep_session; cbn; (exists w; split; [reflexivity|]); intros ack' [=]. }
  destruct Hrun as (w' & Hrun & Hcancel). rewrite Hrun.
  cbn [result_of object_of world_of fst snd].
  split; [reflexivity|]. split; [reflexivity|].
  split; [destruct keep_session; reflexivity|].
  split; [destruct keep_session; reflexivity|].
  split; [destruct keep_session; reflexivity|].
  split; [destruct keep_session; reflexivity|].
  split; [exact Hcancel|].
  split.
  - intros data w''. unfold send. erewrite bind_run by reflexivity.
    now rewrite bool_decide_eq_true_2 by reflexivity.
  - intros again w''. unfold disconnect. erewrite bind_run by reflexivity.
    now rewrite bool_decide_eq_true_2 by reflexivity.
Qed.

End ShardSending.

Lemma shard_without_socket_witness :
  let sh := @Shard.init Sample.env "token" 0 0 1 false in
  Shard._socket sh = None /\
  @Shard.heartbeat Sample.env sh Example.world = (Raise AttributeError, sh, Example.world).
Proof.
  intros sh.
  assert (Hs : Shard._socket sh = None) by reflexivity.
  split; [exact Hs|].
  destruct (@shard_without_socket Sample.env sh Example.world Hs) as (_ & Hbeat & _).
  exact Hbeat.
Defined.

(** A shard holding the session id "abc" resumes; with an interval of
    10**400 milliseconds it raises and is left as it was. *)
Lemma shard_hello_opens_session_witness :
  let hello := Payload.mk 10 (JDict [("heartbeat_interval", JInt 41250)]) None None in
  let huge := Payload.mk 10 (JDict [("heartbeat_interval", JInt (10 ^ 400))]) None None in
  let resumed := @Shard.set_session_id Sample.env (JStr "abc") Sample.shard in
  exists sk' body,
    subscript (Payload.d hello) "heartbeat_interval" = Return (JInt 41250) /\
    fits_double 41250 = true /\
    (2 <= GatewayRatelimiter.remaining (Shard._rate_limiter resumed)
     <= GatewayRatelimiter.max (Shard._rate_limiter resumed))%Z /\
    Shard._socket (object_of (@Shard._process_payload Sample.env hello resumed Example.world))
    = Some sk' /\
    length (Socket.sent sk') = 2%nat /\
    body = [("seq", JNull); ("session_id", JStr "abc"); ("token", JStr "token")] /\
    fits_double (10 ^ 400) = false /\
    @Shard._process_payload Sample.env huge resumed Example.world
    = (Raise OverflowError, resumed, Example.world).
Proof.
  intros hello huge resumed.
  assert (Hsub : subscript (Payload.d hello) "heartbeat_interval" = Return (JInt 41250))
    by reflexivity.
  assert (Hsub' : subscript (Payload.d huge) "heartbeat_interval"
                  = Return (JInt (10 ^ 400))) by reflexivity.
  assert (Hfit : fits_double 41250 = true) by (vm_compute; reflexivity).
  assert (Hfit' : fits_double (10 ^ 400) = false) by (vm_compute; reflexivity).
  assert (Hrem : (2 <= GatewayRatelimiter.remaining (Shard._rate_limiter resumed)
                  <= GatewayRatelimiter.max (Shard._rate_limiter resumed))%Z)
    by (cbn; lia).
  destruct (proj1 (@shard_hello_opens_session Sample.env hello 41250 resumed
                     Example.open_socket Example.world eq_refl Hsub eq_refl eq_refl Hrem)
              Hfit)
    as (sk' & body & _ & Hsk & Hsent & _ & Hbody & _).
  exists sk', body.
  split; [exact Hsub|]. split; [exact Hfit|]. split; [exact Hrem|]. split; [exact Hsk|].
  split; [exact (f_equal (@length string) Hsent)|]. split; [exact (Hbody eq_refl)|].
  split; [exact Hfit'|].
  exact (proj2 (@shard_hello_opens_session Sample.env huge (10 ^ 400) resumed
                  Example.open_socket Example.world eq_refl Hsub' eq_refl eq_refl Hrem)
           Hfit').
Defined.

Lemma shard_disconnect_witness :
  let r := @Shard.disconnect Sample.env true
             (@Shard.set_session_id Sample.env (JStr "abc") Sample.shard) Example.world in
  Shard._socket (@Shard.set_session_id Sample.env (JStr "abc") Sample.shard)
  = Some Example.open_socket /\
  Shard._socket (object_of r) = None /\
  Shard.session_id (object_of r) = JStr "abc".
Proof.
  intros r.
  assert (Hs : Shard._socket (@Shard.set_session_id Sample.env (JStr "abc") Sample.shard)
               = Some Example.open_socket) by reflexivity.
  split; [exact Hs|].
  destruct (@shard_disconnect Sample.env true _ _ Example.world Hs)
    as (_ & Hsock & _ & _ & _ & Hsession & _).
  split; [exact Hsock|].
  exact (f_equal (fun p => fst (fst p)) Hsession).
Defined.
(** ** Voice: HELLO, SESSION_DESCRIPTION, closures and the latest sample *)

Section VoiceOpcodes.
Context `{Env}.
Import DiscordVoiceWebSocket.

(** X18.  HELLO on the voice gateway, for an interval that is an [int] in
    the range of a double, stores the interval in seconds and starts the
    heartbeat task, and that is all: unlike the main gateway it writes no
    heartbeat at once.  The hook is then called with the message, and its
    outcome is the outcome of the method.  For an [int] beyond the range of
    a double the division raises [OverflowError]: nothing is stored, no
    task is started and the hook is not called. *)
Theorem voice_hello_sends_nothing (datagram : list byte) (msg : Payload.obj) (ms : Z)
    (o : obj) (w : World) :
  Payload.op msg = 8%Z ->
  subscript (Payload.d msg) "heartbeat_interval" = Return (JInt ms) ->
  (fits_double ms = true ->
   received_message datagram msg o w
   = (_hook o msg,
      set_heartbeat_task (Some heartbeat_loop_task)
        (set_heartbeat_interval (inject_Z ms / 1000)%Q o), w)) /\
  (fits_double ms = false ->
   received_message datagram msg o w = (Raise OverflowError, o, w)).
Proof.
  intros Hop Hsub. unfold received_message. rewrite Hop.
  unfold bind, get, lift, modify. cbn -[subscript Qdiv inject_Z float_of_int].
  rewrite Hsub. unfold float_of_int.
  split; intros ->; reflexivity.
Qed.

(** X19.  SESSION_DESCRIPTION: the mode is stored on the voice client, the
    secret key on the client and on the websocket, and one SPEAKING frame
    with state 0 and the client's [ssrc] is written.  Without a secret key
    in the data the method raises [KeyError] with the mode already stored,
    and neither writes the frame nor calls the hook. *)
Theorem session_description_stores_key (datagram : list byte) (msg : Payload.obj)
    (mode : json) (o : obj) (w : World) :
  Payload.op msg = 4%Z ->
  subscript (Payload.d msg) "mode" = Return mode ->
  Socket.fault (ws o) = None ->
  let r := received_message datagram msg o w in
  VoiceClient.mode (_connection (object_of r)) = mode /\
  world_of r = w /\
  (forall key,
     subscript (Payload.d msg) "secret_key" = Return key ->
     result_of r = _hook o msg /\
     secret_key (object_of r) = key /\
     VoiceClient.secret_key (_connection (object_of r)) = key /\
     Socket.sent (ws (object_of r))
     = to_json (JDict [("op", JInt 5);
                       ("d", JDict [("speaking", JInt 0); ("delay", JInt 0);
                                    ("ssrc", VoiceClient.ssrc (_connection o))])])
       :: Socket.sent (ws o)) /\
  (forall e,
     subscript (Payload.d msg) "secret_key" = Raise e ->
     result_of r = Raise e /\
     secret_key (object_of r) = secret_key o /\
     ws (object_of r) = ws o).
Proof.
  intros Hop Hmode Hfault r. subst r.
  unfold received_message. rewrite Hop.
  unfold load_secret_key, on_connection, speak, send_as_json, zoom, Socket.send_str,
    bind, get, lift, modify.
  cbn -[subscript]. rewrite Hmode. cbn -[subscript].
  destruct (subscript (Payload.d msg) "secret_key") as [key|e];
    cbn; rewrite ?Hfault; cbn.
  - split; [reflexivity|]. split; [reflexivity|].
    split; [|intros e [=]].
    intros key' [= <-]. rewrite ?Hfault. repeat split.
  - split; [reflexivity|]. split; [reflexivity|].
    split; [intros key [=]|].
    intros e' [= <-]. repeat split.
Qed.

(** X20.  What [poll_event] makes of a message that is not a frame.  A
    CLOSED, CLOSE or CLOSING message raises [ConnectionClosed] with the
    code of our own [close], and after [close(code)] that is [code]; an
    ERROR message raises it without a code, even then.  Neither puts a
    reconnection forward or changes the object.  BINARY, PING, PONG and
    CONTINUATION messages are dropped. *)
Theorem voice_poll_event_closure (datagram : list byte) (type : WSMsgType) (data : frame)
    (o : obj) (w : World) :
  type <> TEXT ->
  let r := poll_event datagram (Received type data) o w in
  object_of r = o /\ world_of r = w /\
  (type = ERROR -> result_of r = Raise (ConnectionClosed None None)) /\
  (closure type = true -> type <> ERROR ->
   result_of r = Raise (ConnectionClosed None (_close_code o))) /\
  (closure type = false -> result_of r = Return tt) /\
  (forall code,
     let closed := close code o w in
     let r' := poll_event datagram (Received type data)
                 (object_of closed) (world_of closed) in
     result_of closed = Return tt /\
     _heartbeat_task (object_of closed) = None /\
     Socket.closed (ws (object_of closed)) = true /\
     (closure type = true -> type <> ERROR ->
      result_of r' = Raise (ConnectionClosed None (Some code)))).
Proof.
  intros Htext r. subst r.
  destruct type; try contradiction; cbn; repeat split; try discriminate;
    try (intros _ Hne; contradiction).
Qed.

(** A step that records a sample leaves it at the end of the list. *)
Lemma voice_do_last (step : voice_step) (o : obj) (w : World) :
  last (_latencies (object_of (voice_do step o w)))
  = last (_latencies o ++ recorded step o w) /\
  ((length (_latencies o) <= 21)%nat ->
   (length (_latencies (object_of (voice_do step o w))) <= 21)%nat).
Proof.
  destruct step as [|dt|datagram msg].
  - cbn [voice_do recorded]. rewrite heartbeat_loop_turn_latencies, app_nil_r. auto.
  - cbn. rewrite app_nil_r. auto.
  - cbn [voice_do]. rewrite received_message_latencies.
    destruct (recorded (VoiceMessage datagram msg) o w) as [|sample others] eqn:Hrec.
    + rewrite app_nil_r. auto.
    + assert (others = []) as ->.
      { unfold recorded in Hrec.
        repeat match type of Hrec with
               | context [match ?x with _ => _ end] => destruct x
               | context [if ?x then _ else _] => destruct x
               end; congruence. }
      rewrite !last_snoc. split; [reflexivity|]. intros _.
      destruct (Nat.ltb_spec 20 (length (_latencies o))).
      * cbn. lia.
      * rewrite length_app. cbn [length]. lia.
Qed.

(** X21.  The list of samples never holds more than 21 entries, and
    emptying it never loses the latest one: after any run, [latency] is
    the most recent sample recorded since the websocket was made, [inf]
    when there is none. *)
Theorem voice_latency_is_latest_sample (steps : list voice_step) (o : obj) (w : World) :
  (length (_latencies o) <= 21)%nat ->
  let final := (voice_run steps o w).1 in
  (length (_latencies final) <= 21)%nat /\
  latency final = match last (_latencies o ++ history steps o w) with
                  | Some sample => Finite sample
                  | None => Inf
                  end.
Proof.
  intros Hlen final. subst final. unfold latency.
  enough (Hgoal : (length (_latencies (voice_run steps o w).1) <= 21)%nat /\
                  last (_latencies (voice_run steps o w).1)
                  = last (_latencies o ++ history steps o w))
    by (destruct Hgoal as [Hl Hlast]; now rewrite Hlast).
  revert o w Hlen. induction steps as [|step rest IH]; intros o w Hlen.
  - cbn. now rewrite app_nil_r.
  - cbn [voice_run history].
    destruct (voice_do_last step o w) as [Hlast Hbound].
    destruct (IH _ (world_of (voice_do step o w)) (Hbound Hlen)) as [Hl Hrest].
    split; [exact Hl|]. rewrite Hrest, app_assoc.
    rewrite (last_app (_latencies (object_of (voice_do step o w)))).
    rewrite (last_app (_latencies o ++ recorded step o w)).
    now rewrite Hlast.
Qed.

End VoiceOpcodes.

(** An interval of 13.75 seconds, and one of 10**400 milliseconds. *)
Lemma voice_hello_sends_nothing_witness :
  let hello := Payload.mk 8 (JDict [("heartbeat_interval", JInt 13750)]) None None in
  let huge := Payload.mk 8 (JDict [("heartbeat_interval", JInt (10 ^ 400))]) None None in
  subscript (Payload.d hello) "heartbeat_interval" = Return (JInt 13750) /\
  fits_double 13750 = true /\
  @DiscordVoiceWebSocket.received_message Sample.env [] hello Sample.voice Example.world
  = (Return tt,
     DiscordVoiceWebSocket.set_heartbeat_task (Some heartbeat_loop_task)
       (DiscordVoiceWebSocket.set_heartbeat_interval (inject_Z 13750 / 1000)%Q Sample.voice),
     Example.world) /\
  fits_double (10 ^ 400) = false /\
  @DiscordVoiceWebSocket.received_message Sample.env [] huge Sample.voice Example.world
  = (Raise OverflowError, Sample.voice, Example.world).
Proof.
  intros hello huge.
  assert (Hsub : subscript (Payload.d hello) "heartbeat_interval" = Return (JInt 13750))
    by reflexivity.
  assert (Hsub' : subscript (Payload.d huge) "heartbeat_interval"
                  = Return (JInt (10 ^ 400))) by reflexivity.
  assert (Hfit : fits_double 13750 = true) by (vm_compute; reflexivity).
  assert (Hfit' : fits_double (10 ^ 400) = false) by (vm_compute; reflexivity).
  split; [exact Hsub|]. split; [exact Hfit|].
  split; [exact (proj1 (@voice_hello_sends_nothing Sample.env [] hello 13750 Sample.voice
                          Example.world eq_refl Hsub) Hfit)|].
  split; [exact Hfit'|].
  exact (proj2 (@voice_hello_sends_nothing Sample.env [] huge (10 ^ 400) Sample.voice
                  Example.world eq_refl Hsub') Hfit').
Defined.

Lemma session_description_stores_key_witness :
  let key := JList [JInt 1; JInt 2; JInt 3] in
  let msg := Payload.mk 4 (JDict [("mode", JStr "xsalsa20_poly1305"); ("secret_key", key)])
               None None in
  let r := @DiscordVoiceWebSocket.received_message Sample.env [] msg Sample.voice
             Example.world in
  subscript (Payload.d msg) "mode" = Return (JStr "xsalsa20_poly1305") /\
  Socket.fault (DiscordVoiceWebSocket.ws Sample.voice) = None /\
  VoiceClient.mode (DiscordVoiceWebSocket._connection (object_of r))
  = JStr "xsalsa20_poly1305" /\
  DiscordVoiceWebSocket.secret_key (object_of r) = key.
Proof.
  intros key msg r.
  assert (Hmode : subscript (Payload.d msg) "mode" = Return (JStr "xsalsa20_poly1305"))
    by reflexivity.
  assert (Hfault : Socket.fault (DiscordVoiceWebSocket.ws Sample.voice) = None)
    by reflexivity.
  split; [exact Hmode|]. split; [exact Hfault|].
  destruct (@session_description_stores_key Sample.env [] msg _ Sample.voice Example.world
              eq_refl Hmode Hfault) as (Hm & _ & Hkey & _).
  split; [exact Hm|].
  destruct (Hkey key eq_refl) as (_ & Hk & _). exact Hk.
Defined.

Lemma voice_poll_event_closure_witness :
  let closed := DiscordVoiceWebSocket.close 4014 Sample.voice Example.world in
  CLOSE <> TEXT /\
  result_of (@DiscordVoiceWebSocket.poll_event Sample.env [] (Received CLOSE (Text ""))
               (object_of closed) (world_of closed))
  = Raise (ConnectionClosed None (Some 4014%Z)).
Proof.
  intros closed.
  assert (Hne : CLOSE <> TEXT) by discriminate.
  split; [exact Hne|].
  destruct (@voice_poll_event_closure Sample.env [] CLOSE (Text "") Sample.voice
              Example.world Hne) as (_ & _ & _ & _ & _ & Hclose).
  destruct (Hclose 4014%Z) as (_ & _ & _ & Hcode).
  exact (Hcode eq_refl ltac:(discriminate)).
Defined.

(** Two heartbeats acknowledged after 1 and 2 seconds. *)
Lemma voice_latency_is_latest_sample_witness :
  let final := (@voice_run Sample.env (@heartbeat_rounds 2) Sample.voice Example.world).1 in
  (length (DiscordVoiceWebSocket._latencies Sample.voice) <= 21)%nat /\
  (length (DiscordVoiceWebSocket._latencies final) <= 21)%nat /\
  DiscordVoiceWebSocket.latency final
  = match last (@history Sample.env (@heartbeat_rounds 2) Sample.voice Example.world) with
    | Some sample => Finite sample
    | None => Inf
    end.
Proof.
  intros final.
  assert (Hlen : (length (DiscordVoiceWebSocket._latencies Sample.voice) <= 21)%nat)
    by (cbn; lia).
  split; [exact Hlen|].
  exact (@voice_latency_is_latest_sample Sample.env (@heartbeat_rounds 2) Sample.voice
           Example.world Hlen).
Defined.
(** ** Voice: the IP discovery when it fails *)

Section DiscoveryFailures.
Context `{Env}.
Import DiscordVoiceWebSocket.





End DiscoveryFailures.

(** ** Plugins: loading and unloading *)

Section PluginCalls.
Context (respond : list call -> call -> outcome unit).

Lemma external_run {X} (c : call) (h : hosted X) (w : World) :
  external respond c h w = (respond (calls h) c, mkHosted (self h) (c :: calls h), w).
Proof. reflexivity. Qed.

(** A loop whose turns return, each having made the calls [T x]. *)
Lemma for_each_emits {X A} (T : A -> list call) (body : A -> M (hosted X) unit)
    (l : list A) :
  (forall x h w, body x h w = (Return tt, mkHosted (self h) (reverse (T x) ++ calls h), w)) ->
  forall h w,
    for_each l body h w
    = (Return tt, mkHosted (self h) (reverse (flat_map T l) ++ calls h), w).
Proof.
  intros Hbody. induction l as [|x l IH]; intros h w.
  - now destruct h.
  - cbn [for_each flat_map].
    erewrite bind_run by apply Hbody.
    rewrite IH. cbn [self calls]. now rewrite reverse_app, app_assoc.
Qed.

Lemma for_each_external {X A} (f : A -> call) (l : list A) (h : hosted X) (w : World) :
  obliging respond ->
  for_each l (fun x => external respond (f x)) h w
  = (Return tt, mkHosted (self h) (reverse (map f l) ++ calls h), w).
Proof.
  intros Hob.
  replace (map f l) with (flat_map (fun x => [f x]) l)
    by (induction l as [|x l IH]; cbn; congruence).
  apply for_each_emits. intros x h' w'. now rewrite external_run, Hob.
Qed.

(** The calls of [nextcord.Plugin.load] and [unload] for the application
    commands, on a host where every call returns. *)
Lemma app_commands_loop (bot : nat) (checks : list Func) (cmds : list nat)
    (h : hosted Plugin.obj) (w : World) :
  obliging respond ->
  for_each cmds (fun cmd =>
    for_each checks (fun check => external respond (AddCheck cmd check)) ;;
    external respond (AddApplicationCommand bot cmd)) h w
  = (Return tt,
     mkHosted (self h) (reverse (app_command_calls bot checks cmds) ++ calls h), w) /\
  for_each cmds (fun cmd =>
    for_each checks (fun check => external respond (RemoveCheck cmd check)) ;;
    external respond (RemoveApplicationCommand bot cmd)) h w
  = (Return tt,
     mkHosted (self h) (reverse (map undo (app_command_calls bot checks cmds)) ++ calls h),
     w).
Proof.
  intros Hob. unfold app_command_calls. split.
  - apply for_each_emits. intros cmd h' w'.
    erewrite bind_run by (apply for_each_external; exact Hob).
    rewrite external_run, Hob. cbn [self calls].
    cbv beta. now rewrite reverse_snoc.
  - rewrite flat_map_concat_map, concat_map, map_map, <- flat_map_concat_map.
    apply for_each_emits. intros cmd h' w'.
    erewrite bind_run by (apply for_each_external; exact Hob).
    rewrite external_run, Hob. cbn [self calls].
    cbv beta. rewrite map_app, map_map. cbn [map undo]. now rewrite reverse_snoc.
Qed.

Lemma commands_loop (bot : nat) (checks : list Func) (cmds : list Command)
    (h : hosted CommandsPlugin.obj) (w : World) :
  obliging respond ->
  for_each cmds (fun cmd =>
    for_each checks (fun check => external respond (AddCheck (command_id cmd) check)) ;;
    external respond (AddCommand bot cmd)) h w
  = (Return tt, mkHosted (self h) (reverse (command_calls bot checks cmds) ++ calls h), w) /\
  for_each cmds (fun cmd =>
    for_each checks (fun check => external respond (RemoveCheck (command_id cmd) check)) ;;
    external respond (RemoveCommand bot (command_name cmd))) h w
  = (Return tt,
     mkHosted (self h) (reverse (map undo (command_calls bot checks cmds)) ++ calls h), w).
Proof.
  intros Hob. unfold command_calls. split.
  - apply for_each_emits. intros cmd h' w'.
    erewrite bind_run by (apply for_each_external; exact Hob).
    rewrite external_run, Hob. cbn [self calls].
    cbv beta. now rewrite reverse_snoc.
  - rewrite flat_map_concat_map, concat_map, map_map, <- flat_map_concat_map.
    apply for_each_emits. intros cmd h' w'.
    erewrite bind_run by (apply for_each_external; exact Hob).
    rewrite external_run, Hob. cbn [self calls].
    cbv beta. rewrite map_app, map_map. cbn [map undo]. now rewrite reverse_snoc.
Qed.

Lemma listeners_loop (bot : nat) (d : list (string * list Func))
    (h : hosted CommandsPlugin.obj) (w : World) :
  obliging respond ->
  for_each d (fun entry =>
    for_each entry.2 (fun func => external respond (AddListener bot func entry.1))) h w
  = (Return tt, mkHosted (self h) (reverse (listener_calls bot d) ++ calls h), w) /\
  for_each d (fun entry =>
    for_each entry.2 (fun func => external respond (RemoveListener bot func entry.1))) h w
  = (Return tt, mkHosted (self h) (reverse (map undo (listener_calls bot d)) ++ calls h), w).
Proof.
  intros Hob. unfold listener_calls. split.
  - apply for_each_emits. intros entry h' w'. now apply for_each_external.
  - rewrite flat_map_concat_map, concat_map, map_map, <- flat_map_concat_map.
    apply for_each_emits. intros entry h' w'.
    rewrite for_each_external by exact Hob. now rewrite map_map.
Qed.

Lemma run_hooks_run {X} (hooks : list Func) (h : hosted X) (w : World) :
  obliging respond ->
  Plugin._run_hooks respond hooks h w
  = (Return tt, mkHosted (self h) (reverse (map CreateTask hooks) ++ calls h), w).
Proof. intros Hob. now apply for_each_external. Qed.

(** [nextcord.Plugin.load] and [unload] on a host where every call returns. *)
Lemma plugin_load_run (bot : nat) (h : hosted Plugin.obj) (w : World) :
  obliging respond ->
  Plugin._bot (self h) = None ->
  Plugin.load respond bot h w
  = (Return tt,
     mkHosted (Plugin.set_bot (Some bot) (self h))
       (reverse (app_command_calls bot (Plugin._app_command_checks (self h))
                   (Plugin._app_commands (self h))
                 ++ map CreateTask (Plugin._load_hooks (self h)))
        ++ calls h), w).
Proof.
  intros Hob Hbot. unfold Plugin.load.
  erewrite bind_run by reflexivity.
  rewrite Hbot, bool_decide_eq_false_2 by (intros [x Hx]; discriminate).
  erewrite bind_run by reflexivity.
  erewrite bind_run by reflexivity.
  cbn [self calls Plugin._app_commands Plugin._app_command_checks Plugin._load_hooks
       Plugin.set_bot].
  erewrite bind_run by (apply app_commands_loop; exact Hob).
  rewrite run_hooks_run by exact Hob.
  cbn [self calls]. now rewrite reverse_app, app_assoc.
Qed.

Lemma plugin_unload_run (bot : nat) (h : hosted Plugin.obj) (w : World) :
  obliging respond ->
  Plugin._bot (self h) = Some bot ->
  Plugin.unload respond h w
  = (Return tt,
     mkHosted (Plugin.set_bot None (self h))
       (reverse (map undo (app_command_calls bot (Plugin._app_command_checks (self h))
                             (Plugin._app_commands (self h)))
                 ++ map CreateTask (Plugin._unload_hooks (self h)))
        ++ calls h), w).
Proof.
  intros Hob Hbot. unfold Plugin.unload.
  erewrite bind_run by reflexivity.
  rewrite Hbot.
  erewrite bind_run by (apply app_commands_loop; exact Hob).
  erewrite bind_run by (apply run_hooks_run; exact Hob).
  cbn [self calls]. now rewrite reverse_app, app_assoc.
Qed.

(** [ext.commands.Plugin.load] on a host where every call returns. *)
Lemma commands_plugin_load_run (bot : nat) (h : hosted CommandsPlugin.obj) (w : World) :
  obliging respond ->
  Plugin._bot (CommandsPlugin.base (self h)) = None ->
  let b := CommandsPlugin.base (self h) in
  CommandsPlugin.load respond bot h w
  = (Return tt,
     mkHosted (CommandsPlugin.set_base (Plugin.set_bot (Some bot) b) (self h))
       (reverse (app_command_calls bot (Plugin._app_command_checks b)
                   (Plugin._app_commands b)
                 ++ map CreateTask (Plugin._load_hooks b)
                 ++ command_calls bot (CommandsPlugin._command_checks (self h))
                      (CommandsPlugin._commands (self h))
                 ++ listener_calls bot (CommandsPlugin._listeners (self h)))
        ++ calls h), w).
Proof.
  intros Hob Hbot b. subst b. unfold CommandsPlugin.load.
  erewrite bind_run.
  2:{ unfold CommandsPlugin.super, zoom.
      rewrite (plugin_load_run bot (mkHosted (CommandsPlugin.base (self h)) (calls h))
                 w Hob Hbot). reflexivity. }
  erewrite bind_run by reflexivity.
  erewrite bind_run by (apply commands_loop; exact Hob).
  rewrite (proj1 (listeners_loop bot _ _ w Hob)).
  cbn [self calls CommandsPlugin._commands CommandsPlugin._command_checks
       CommandsPlugin._listeners CommandsPlugin.set_base].
  f_equal. f_equal.
  rewrite !reverse_app. now rewrite <- !app_assoc.
Qed.

(** X23.  The guards of loading.  [load] on a plugin that is loaded and
    [unload] on one that is not raise [AttributeError] before any call is
    made and change nothing, in [nextcord.Plugin] and in the plugin of
    [ext.commands] (which registers none of its commands or listeners
    then); [client] and [bot] raise [AttributeError] exactly on a plugin that
    is not loaded. *)
Theorem plugin_load_guards (w : World) :
  (forall h bot attached,
     Plugin._bot (self h) = Some attached ->
     Plugin.load respond bot h w = (Raise AttributeError, h, w) /\
     Plugin.client (self h) w = (Return attached, self h, w)) /\
  (forall h,
     Plugin._bot (self h) = None ->
     Plugin.unload respond h w = (Raise AttributeError, h, w) /\
     Plugin.client (self h) w = (Raise AttributeError, self h, w)) /\
  (forall h bot attached,
     Plugin._bot (CommandsPlugin.base (self h)) = Some attached ->
     CommandsPlugin.load respond bot h w = (Raise AttributeError, h, w) /\
     CommandsPlugin.bot (self h) w = (Return attached, self h, w)) /\
  (forall h,
     Plugin._bot (CommandsPlugin.base (self h)) = None ->
     CommandsPlugin.unload respond h w = (Raise AttributeError, h, w) /\
     CommandsPlugin.bot (self h) w = (Raise AttributeError, self h, w)).
Proof.
  repeat split.
  - unfold Plugin.load. erewrite bind_run by reflexivity.
    now rewrite H, bool_decide_is_Some.
  - unfold Plugin.client. erewrite bind_run by reflexivity. now rewrite H.
  - unfold Plugin.unload. erewrite bind_run by reflexivity. now rewrite H.
  - unfold Plugin.client. erewrite bind_run by reflexivity. now rewrite H.
  - unfold CommandsPlugin.load. erewrite bind_raise; [reflexivity|].
    unfold CommandsPlugin.super, zoom, Plugin.load.
    erewrite bind_run by reflexivity. cbn [self calls].
    rewrite H, bool_decide_is_Some. cbn.
    destruct h as [[b cs ks ls] cl]. reflexivity.
  - unfold CommandsPlugin.bot, zoom, Plugin.client.
    erewrite bind_run by reflexivity. rewrite H. cbn.
    destruct h as [[b cs ks ls] cl]. reflexivity.
  - unfold CommandsPlugin.unload. erewrite bind_run by reflexivity. now rewrite H.
  - unfold CommandsPlugin.bot, zoom, Plugin.client.
    erewrite bind_run by reflexivity. rewrite H. cbn.
    destruct h as [[b cs ks ls] cl]. reflexivity.
Qed.

(** X24.  Loading and unloading mirror each other.  On a host where every
    call returns, [load] attaches the client and registers the application
    commands (each after its checks), starts the load hooks, and, in
    [ext.commands], then registers the commands and the listeners;
    [unload] takes back exactly what [load] registered, call for call and
    in the same order (a command of [ext.commands] by its name), with the
    unload hooks in the place of the load hooks, and leaves the plugin as it
    was before it was loaded. *)
Theorem plugin_load_unload_mirror (bot : nat) (w : World) :
  obliging respond ->
  (forall h,
     Plugin._bot (self h) = None ->
     let registered :=
       app_command_calls bot (Plugin._app_command_checks (self h))
         (Plugin._app_commands (self h)) in
     let loaded := Plugin.load respond bot h w in
     let unloaded := Plugin.unload respond (object_of loaded) (world_of loaded) in
     result_of loaded = Return tt /\
     Plugin._bot (self (object_of loaded)) = Some bot /\
     calls (object_of loaded)
     = reverse (registered ++ map CreateTask (Plugin._load_hooks (self h))) ++ calls h /\
     result_of unloaded = Return tt /\
     self (object_of unloaded) = self h /\
     calls (object_of unloaded)
     = reverse (map undo registered ++ map CreateTask (Plugin._unload_hooks (self h)))
       ++ calls (object_of loaded)) /\
  (forall h,
     Plugin._bot (CommandsPlugin.base (self h)) = None ->
     let b := CommandsPlugin.base (self h) in
     let first :=
       app_command_calls bot (Plugin._app_command_checks b) (Plugin._app_commands b) in
     let second :=
       command_calls bot (CommandsPlugin._command_checks (self h))
         (CommandsPlugin._commands (self h))
       ++ listener_calls bot (CommandsPlugin._listeners (self h)) in
     let loaded := CommandsPlugin.load respond bot h w in
     let unloaded := CommandsPlugin.unload respond (object_of loaded) (world_of loaded) in
     result_of loaded = Return tt /\
     Plugin._bot (CommandsPlugin.base (self (object_of loaded))) = Some bot /\
     calls (object_of loaded)
     = reverse (first ++ map CreateTask (Plugin._load_hooks b) ++ second) ++ calls h /\
     result_of unloaded = Return tt /\
     self (object_of unloaded) = self h /\
     calls (object_of unloaded)
     = reverse (map undo first ++ map CreateTask (Plugin._unload_hooks b) ++ map undo second)
       ++ calls (object_of loaded)).
Proof.
  intros Hob. split.
  - intros h Hbot registered loaded unloaded. subst registered loaded unloaded.
    rewrite (plugin_load_run bot h w Hob Hbot).
    cbn [result_of object_of world_of fst snd].
    erewrite (plugin_unload_run bot _ w Hob) by reflexivity.
    cbn [result_of object_of world_of fst snd self calls Plugin._app_commands
         Plugin._app_command_checks Plugin._unload_hooks Plugin.set_bot].
    repeat split.
    destruct h as [[cmds checks b lh uh n d e] cl]. cbn in Hbot. now subst b.
  - intros h Hbot b first second loaded unloaded.
    assert (Hload : loaded
                    = (Return tt,
                       mkHosted (CommandsPlugin.set_base (Plugin.set_bot (Some bot) b) (self h))
                         (reverse (first ++ map CreateTask (Plugin._load_hooks b) ++ second)
                          ++ calls h), w)).
    { subst loaded. unfold CommandsPlugin.load.
      erewrite bind_run.
      2:{ unfold CommandsPlugin.super, zoom.
          rewrite (plugin_load_run bot (mkHosted (CommandsPlugin.base (self h)) (calls h))
                     w Hob Hbot). reflexivity. }
      erewrite bind_run by reflexivity.
      erewrite bind_run by (apply commands_loop; exact Hob).
      rewrite (proj1 (listeners_loop bot _ _ w Hob)).
      cbn [self calls CommandsPlugin._commands CommandsPlugin._command_checks
           CommandsPlugin._listeners CommandsPlugin.set_base].
      subst first second b. f_equal. f_equal.
      rewrite !reverse_app. now rewrite <- !app_assoc. }
    rewrite Hload. cbn [result_of object_of world_of fst snd self calls].
    subst unloaded. rewrite Hload. cbn [object_of world_of fst snd].
    assert (Hunload :
              CommandsPlugin.unload respond
                (mkHosted (CommandsPlugin.set_base (Plugin.set_bot (Some bot) b) (self h))
                   (reverse (first ++ map CreateTask (Plugin._load_hooks b) ++ second)
                    ++ calls h)) w
              = (Return tt,
                 mkHosted (self h)
                   (reverse (map undo first ++ map CreateTask (Plugin._unload_hooks b)
                             ++ map undo second)
                    ++ reverse (first ++ map CreateTask (Plugin._load_hooks b) ++ second)
                    ++ calls h), w)).
    { unfold CommandsPlugin.unload.
      erewrite bind_run by reflexivity.
      cbn [self CommandsPlugin.base CommandsPlugin.set_base Plugin._bot Plugin.set_bot].
      erewrite bind_run.
      2:{ unfold CommandsPlugin.super, zoom.
          erewrite (plugin_unload_run bot _ w Hob) by reflexivity. reflexivity. }
      erewrite bind_run by (apply commands_loop; exact Hob).
      rewrite (proj2 (listeners_loop bot _ _ w Hob)).
      cbn [self calls CommandsPlugin._commands CommandsPlugin._command_checks
           CommandsPlugin._listeners CommandsPlugin.set_base CommandsPlugin.base
           Plugin._app_commands Plugin._app_command_checks Plugin._unload_hooks
           Plugin.set_bot].
      subst first second b. f_equal. f_equal. f_equal.
      - destruct h as [[[cmds checks bt lh uh n d e] cs ks ls] cl].
        cbn in Hbot. now subst bt.
      - rewrite !map_app, !reverse_app. now rewrite <- !app_assoc. }
    rewrite Hunload. cbn [result_of object_of fst snd self calls].
    repeat split.
Qed.

(** *** When a call raises *)

Lemma bind_keeps {O A B} (P : O -> Prop) (m : M O A) (k : A -> M O B)
    (o o' : O) (w w' : World) (r : outcome A) :
  m o w = (r, o', w') -> P o' -> (forall a, maintains P (k a)) ->
  P (object_of (bind m k o w)).
Proof.
  intros Hm Ho' Hk. unfold bind. rewrite Hm.
  destruct r as [a|e]; [now apply Hk | exact Ho'].
Qed.

(** What raises before its last step, which cannot raise, has not made it. *)
Lemma raise_before_last {O A B} (P : O -> Prop) (m : M O A) (k : A -> M O B)
    (o : O) (w : World) (e : exn) :
  maintains P m ->
  (forall a o' w', exists b, result_of (k a o' w') = Return b) ->
  P o ->
  result_of (bind m k o w) = Raise e ->
  P (object_of (bind m k o w)).
Proof.
  intros Hm Hk Ho. unfold bind. specialize (Hm o w Ho).
  destruct (m o w) as [[[a|e'] o'] w']; cbn in *.
  - destruct (Hk a o' w') as (b & Hb). congruence.
  - intros _. exact Hm.
Qed.

Lemma maintains_for_each {O A} (P : O -> Prop) (l : list A) (body : A -> M O unit) :
  (forall x, maintains P (body x)) -> maintains P (for_each l body).
Proof.
  intros Hbody. induction l as [|x l IH]; cbn [for_each].
  - apply maintains_ret.
  - apply maintains_bind; [apply Hbody | intros; apply IH].
Qed.

Lemma maintains_external {X} (P : hosted X -> Prop) (c : call) :
  (forall h, P h -> P (mkHosted (self h) (c :: calls h))) ->
  maintains P (external respond c).
Proof.
  intros HP. unfold external. maintain. now apply HP.
Qed.

Lemma blames_bind {X A B} (m : M (hosted X) A) (k : A -> M (hosted X) B) :
  blames respond m -> (forall a, blames respond (k a)) -> blames respond (bind m k).
Proof.
  intros Hm Hk h w e. unfold bind. pose proof (Hm h w) as Hm'.
  destruct (m h w) as [[[a|e'] h'] w']; cbn in *.
  - apply Hk.
  - intros [= ->]. now apply Hm'.
Qed.

Lemma blames_external {X} (c : call) : blames respond (@external respond X c).
Proof.
  intros h w e. rewrite external_run. cbn. intros He. eauto.
Qed.

Lemma blames_for_each {X A} (l : list A) (body : A -> M (hosted X) unit) :
  (forall x, blames respond (body x)) -> blames respond (for_each l body).
Proof.
  intros Hbody. induction l as [|x l IH]; cbn [for_each].
  - intros h w e. discriminate.
  - apply blames_bind; [apply Hbody | intros; apply IH].
Qed.

Lemma blames_return {X A} (m : M (hosted X) A) :
  (forall h w, exists a, result_of (m h w) = Return a) -> blames respond m.
Proof.
  intros Hm h w e He. destruct (Hm h w) as (a & Ha). congruence.
Qed.

(** The loops of [load] and [unload]. *)
Lemma blames_registration {X A} (cmds : list A) (checks : list Func)
    (f : A -> Func -> call) (g : A -> call) :
  blames respond
    (@for_each (hosted X) A cmds (fun cmd =>
       for_each checks (fun check => external respond (f cmd check)) ;;
       external respond (g cmd))).
Proof.
  apply blames_for_each. intros cmd. apply blames_bind.
  - apply blames_for_each. intros check. apply blames_external.
  - intros _. apply blames_external.
Qed.

Lemma maintains_registration {X A} (P : hosted X -> Prop) (cmds : list A)
    (checks : list Func) (f : A -> Func -> call) (g : A -> call) :
  (forall h c, P h -> P (mkHosted (self h) (c :: calls h))) ->
  maintains P
    (for_each cmds (fun cmd =>
       for_each checks (fun check => external respond (f cmd check)) ;;
       external respond (g cmd))).
Proof.
  intros HP. apply maintains_for_each. intros cmd. apply maintains_bind.
  - apply maintains_for_each. intros check. apply maintains_external. auto.
  - intros _. apply maintains_external. auto.
Qed.

(** [load] attaches the client first, whatever happens next. *)
Lemma plugin_load_attaches (bot : nat) (h : hosted Plugin.obj) (w : World) :
  Plugin._bot (self h) = None ->
  Plugin._bot (self (object_of (Plugin.load respond bot h w))) = Some bot.
Proof.
  intros Hbot. unfold Plugin.load.
  erewrite bind_run by reflexivity.
  rewrite Hbot, bool_decide_eq_false_2 by (intros [x Hx]; discriminate).
  eapply (bind_keeps (fun h' => Plugin._bot (self h') = Some bot));
    [reflexivity | reflexivity |].
  intros _. apply maintains_bind; [apply maintains_get|]. intros h'.
  apply maintains_bind.
  - apply maintains_registration. auto.
  - intros _. apply maintains_for_each. intros hook.
    apply maintains_external. auto.
Qed.

(** X25.  When a call raises.  [load] attaches the client before it
    registers anything: when a call raises during [load], the plugin stays
    attached and [load] cannot be tried again (it raises [AttributeError]),
    in [nextcord.Plugin] and in [ext.commands]; in [nextcord.Plugin] the
    exception of [load] and of [unload] is that of the call made last.
    [unload] of [nextcord.Plugin] detaches the client last: when a call
    raises the plugin is still attached.  [unload]
    of [ext.commands] runs the [unload] of [nextcord.Plugin] first: when
    that has returned and a later call raises, the plugin is detached, and
    what was not yet taken back cannot be taken back by another [unload]. *)
Theorem plugin_failure_states (bot : nat) (e : exn) (w : World) :
  (forall h,
     Plugin._bot (self h) = None ->
     let r := Plugin.load respond bot h w in
     result_of r = Raise e ->
     Plugin._bot (self (object_of r)) = Some bot /\
     (exists c history,
        calls (object_of r) = c :: history /\ respond history c = Raise e) /\
     (forall bot' w',
        Plugin.load respond bot' (object_of r) w' = (Raise AttributeError, object_of r, w'))) /\
  (forall h,
     Plugin._bot (self h) = Some bot ->
     let r := Plugin.unload respond h w in
     result_of r = Raise e ->
     Plugin._bot (self (object_of r)) = Some bot /\
     (exists c history,
        calls (object_of r) = c :: history /\ respond history c = Raise e)) /\
  (forall h,
     Plugin._bot (CommandsPlugin.base (self h)) = None ->
     let r := CommandsPlugin.load respond bot h w in
     result_of r = Raise e ->
     Plugin._bot (CommandsPlugin.base (self (object_of r))) = Some bot /\
     (forall bot' w',
        result_of (CommandsPlugin.load respond bot' (object_of r) w')
        = Raise AttributeError)) /\
  (forall h,
     Plugin._bot (CommandsPlugin.base (self h)) = Some bot ->
     let r := CommandsPlugin.unload respond h w in
     result_of (CommandsPlugin.super (Plugin.unload respond) h w) = Return tt ->
     result_of r = Raise e ->
     Plugin._bot (CommandsPlugin.base (self (object_of r))) = None /\
     (forall w',
        CommandsPlugin.unload respond (object_of r) w'
        = (Raise AttributeError, object_of r, w'))).
Proof.
  split; [|split; [|split]].
  - intros h Hbot r Hr.
    assert (Hattached : Plugin._bot (self (object_of r)) = Some bot)
      by (apply plugin_load_attaches; exact Hbot).
    split; [exact Hattached|]. split.
    + revert Hr. subst r. unfold Plugin.load.
      erewrite bind_run by reflexivity.
      rewrite Hbot, bool_decide_eq_false_2 by (intros [x Hx]; discriminate).
      revert e.
      match goal with
      | |- forall e, result_of (?m ?h ?w) = _ -> _ =>
          enough (Hb : blames respond m) by (intros e; apply Hb)
      end.
      apply blames_bind.
      { apply blames_return. intros h' w'. eexists. reflexivity. }
      intros _. apply blames_bind.
      { apply blames_return. intros h' w'. eexists. reflexivity. }
      intros h'. apply blames_bind; [apply blames_registration|].
      intros _. apply blames_for_each. intros hook. apply blames_external.
    + intros bot' w'. unfold Plugin.load. erewrite bind_run by reflexivity.
      now rewrite Hattached, bool_decide_is_Some.
  - intros h Hbot r Hr. split.
    + revert Hr. subst r. unfold Plugin.unload.
      erewrite bind_run by reflexivity. rewrite Hbot.
      rewrite <- bind_assoc.
      apply (raise_before_last (fun h' => Plugin._bot (self h') = Some bot)).
      * apply maintains_bind; [apply maintains_registration; auto|].
        intros _. apply maintains_for_each. intros hook.
        apply maintains_external. auto.
      * intros a h' w'. eexists. reflexivity.
      * exact Hbot.
    + revert Hr. subst r. unfold Plugin.unload.
      erewrite bind_run by reflexivity. rewrite Hbot.
      revert e.
      match goal with
      | |- forall e, result_of (?m ?h ?w) = _ -> _ =>
          enough (Hb : blames respond m) by (intros e; apply Hb)
      end.
      apply blames_bind; [apply blames_registration|].
      intros _. apply blames_bind.
      { apply blames_for_each. intros hook. apply blames_external. }
      intros _. apply blames_return. intros h' w'. eexists. reflexivity.
  - intros h Hbot r Hr.
    assert (Hattached : Plugin._bot (CommandsPlugin.base (self (object_of r))) = Some bot).
    { subst r. unfold CommandsPlugin.load.
      pose proof (plugin_load_attaches bot
                    (mkHosted (CommandsPlugin.base (self h)) (calls h)) w Hbot) as Hbase.
      destruct (CommandsPlugin.super (Plugin.load respond bot) h w) as [[r0 h0] w0] eqn:Hsup.
      eapply (bind_keeps
                (fun h' => Plugin._bot (CommandsPlugin.base (self h')) = Some bot));
        [exact Hsup | |].
      - unfold CommandsPlugin.super, zoom in Hsup.
        destruct (Plugin.load respond bot _ w) as [[r1 b1] w1].
        injection Hsup as _ <- _. exact Hbase.
      - intros _. apply maintains_bind; [apply maintains_get|]. intros h'.
        apply maintains_bind.
        + apply maintains_registration. auto.
        + intros _. apply maintains_for_each. intros entry.
          apply maintains_for_each. intros func. apply maintains_external. auto. }
    split; [exact Hattached|].
    intros bot' w'. unfold CommandsPlugin.load.
    erewrite bind_raise; [reflexivity|].
    unfold CommandsPlugin.super, zoom, Plugin.load.
    erewrite bind_run by reflexivity. cbn [self calls].
    rewrite Hattached, bool_decide_is_Some. reflexivity.
  - intros h Hbot r Hsuper Hr.
    assert (Hdetached : Plugin._bot (CommandsPlugin.base (self (object_of r))) = None).
    { subst r. unfold CommandsPlugin.unload.
      erewrite bind_run by reflexivity. rewrite Hbot.
      destruct (CommandsPlugin.super (Plugin.unload respond) h w) as [[r0 h0] w0] eqn:Hsup.
      eapply (bind_keeps
                (fun h' => Plugin._bot (CommandsPlugin.base (self h')) = None));
        [exact Hsup | |].
      - cbn in Hsuper. subst r0.
        unfold CommandsPlugin.super, zoom, Plugin.unload in Hsup.
        erewrite bind_run in Hsup by reflexivity. cbn [self] in Hsup.
        rewrite Hbot in Hsup. unfold bind in Hsup.
        destruct (for_each _ _ _ w) as [[[u|e1] h1] w1]; [|discriminate].
        unfold Plugin._run_hooks in Hsup.
        destruct (for_each _ _ h1 w1) as [[[u'|e2] h2] w2]; [|discriminate].
        injection Hsup as <- _. reflexivity.
      - intros _. apply maintains_bind.
        + apply maintains_registration. auto.
        + intros _. apply maintains_for_each. intros entry.
          apply maintains_for_each. intros func. apply maintains_external. auto. }
    split; [exact Hdetached|].
    intros w'. unfold CommandsPlugin.unload. erewrite bind_run by reflexivity.
    now rewrite Hdetached.
Qed.

End PluginCalls.

(** *** The registry of listeners *)

Section ListenerRegistry.

Lemma listeners_for_add (ev ev' : string) (func : Func) (d : list (string * list Func)) :
  listeners_for ev' (listeners_add ev func d)
  = listeners_for ev' d ++ (if decide (ev = ev') then [func] else []).
Proof.
  induction d as [|[k funcs] rest IH]; cbn [listeners_add listeners_for].
  - destruct (decide (ev' = ev)), (decide (ev = ev')); cbn; congruence.
  - destruct (decide (ev = k)) as [->|Hk]; cbn [listeners_for].
    + destruct (decide (ev' = k)) as [->|Hk'].
      * now rewrite decide_True.
      * rewrite decide_False by congruence. now rewrite app_nil_r.
    + destruct (decide (ev' = k)) as [->|Hk'].
      * rewrite decide_False by exact Hk. now rewrite app_nil_r.
      * apply IH.
Qed.

Lemma keys_listeners_add (ev : string) (func : Func) (d : list (string * list Func)) :
  map fst (listeners_add ev func d)
  = if decide (ev ∈ map fst d) then map fst d else map fst d ++ [ev].
Proof.
  induction d as [|[k funcs] rest IH]; cbn [listeners_add map fst].
  - rewrite decide_False by (apply not_elem_of_nil). reflexivity.
  - destruct (decide (ev = k)) as [->|Hk]; cbn [map fst].
    + rewrite decide_True by left. reflexivity.
    + rewrite IH. destruct (decide (ev ∈ map fst rest)) as [Hin|Hin].
      * rewrite decide_True by (now right). reflexivity.
      * rewrite decide_False; [reflexivity|].
        intros Hin'. apply elem_of_cons in Hin' as [?|?]; contradiction.
Qed.

Lemma listener_calls_add (bot : nat) (ev : string) (func : Func)
    (d : list (string * list Func)) :
  listener_calls bot (listeners_add ev func d)
  ≡ₚ listener_calls bot d ++ [AddListener bot func ev].
Proof.
  unfold listener_calls.
  induction d as [|[k funcs] rest IH]; cbn [listeners_add flat_map].
  - reflexivity.
  - destruct (decide (ev = k)) as [->|Hk]; cbn [flat_map fst snd].
    + rewrite map_app. cbn [map]. rewrite <- !app_assoc.
      apply Permutation_app_head. apply Permutation_app_comm.
    + rewrite IH. now rewrite app_assoc.
Qed.

Lemma register_listeners_run (regs : list (option string * Func)) :
  Forall (fun reg => is_coroutine reg.2 = true) regs ->
  forall o w,
    NoDup (map fst (CommandsPlugin._listeners o)) ->
    exists d,
      register_listeners regs o w = (Return tt, CommandsPlugin.set_listeners d o, w) /\
      NoDup (map fst d) /\
      (forall ev,
         listeners_for ev d
         = listeners_for ev (CommandsPlugin._listeners o)
           ++ map snd (filter (fun reg => event_of reg = ev) regs)) /\
      (forall bot,
         listener_calls bot d
         ≡ₚ listener_calls bot (CommandsPlugin._listeners o)
            ++ map (fun reg => AddListener bot reg.2 (event_of reg)) regs).
Proof.
  induction 1 as [|[name func] regs Hfunc Hco IH]; intros o w Hnd.
  - exists (CommandsPlugin._listeners o).
    split; [now destruct o|]. split; [exact Hnd|].
    split; intros; cbn; now rewrite app_nil_r.
  - cbn [snd] in Hfunc. cbn [register_listeners].
    unfold CommandsPlugin.listener. rewrite Hfunc. cbn [negb].
    erewrite bind_run by (erewrite bind_run by reflexivity; reflexivity).
    change (match name with
            | Some text => if decide (text = "") then func_name func else text
            | None => func_name func
            end) with (event_of (name, func)).
    set (d1 := listeners_add (event_of (name, func)) func (CommandsPlugin._listeners o)).
    assert (Hnd1 : NoDup (map fst d1)).
    { subst d1. rewrite keys_listeners_add.
      destruct (decide _) as [Hin|Hin]; [exact Hnd|].
      apply NoDup_app. split; [exact Hnd|]. split; [|apply NoDup_singleton].
      intros x Hx Hx'. apply list_elem_of_singleton in Hx'. now subst x. }
    destruct (IH (CommandsPlugin.set_listeners d1 o) w Hnd1)
      as (d & Hrun & Hnd' & Hfor & Hcalls).
    exists d. split; [rewrite Hrun; reflexivity|]. split; [exact Hnd'|]. split.
    + intros ev. rewrite Hfor.
      cbn [CommandsPlugin._listeners CommandsPlugin.set_listeners]. subst d1.
      rewrite listeners_for_add, <- app_assoc. f_equal.
      rewrite filter_cons. destruct (decide (event_of (name, func) = ev)); reflexivity.
    + intros bot. rewrite Hcalls.
      cbn [CommandsPlugin._listeners CommandsPlugin.set_listeners map]. subst d1.
      rewrite listener_calls_add. now rewrite <- app_assoc.
Qed.

(** X26.  The registry of listeners of [ext.commands].  Registering
    coroutine functions one after the other never fails and keeps, for each
    event, the functions registered for it in the order of their
    registration (the event being the name given, or the name of the
    function when none or an empty one is given); no event gets two
    entries; and [load] will add each registered function exactly once,
    under its event.  A function that is not a coroutine function is
    refused with [TypeError], and nothing is registered. *)
Theorem listener_registry (regs : list (option string * Func))
    (o : CommandsPlugin.obj) (w : World) :
  Forall (fun reg => is_coroutine reg.2 = true) regs ->
  NoDup (map fst (CommandsPlugin._listeners o)) ->
  let r := register_listeners regs o w in
  result_of r = Return tt /\
  world_of r = w /\
  object_of r
  = CommandsPlugin.set_listeners (CommandsPlugin._listeners (object_of r)) o /\
  NoDup (map fst (CommandsPlugin._listeners (object_of r))) /\
  (forall ev,
     listeners_for ev (CommandsPlugin._listeners (object_of r))
     = listeners_for ev (CommandsPlugin._listeners o)
       ++ map snd (filter (fun reg => event_of reg = ev) regs)) /\
  (forall bot,
     listener_calls bot (CommandsPlugin._listeners (object_of r))
     ≡ₚ listener_calls bot (CommandsPlugin._listeners o)
        ++ map (fun reg => AddListener bot reg.2 (event_of reg)) regs) /\
  (forall name func,
     is_coroutine func = false ->
     CommandsPlugin.listener name func o w = (Raise TypeError, o, w)).
Proof.
  intros Hco Hnd r. subst r.
  destruct (register_listeners_run regs Hco o w Hnd) as (d & Hrun & Hnd' & Hfor & Hcalls).
  rewrite Hrun. cbn [result_of object_of world_of fst snd CommandsPlugin._listeners
                     CommandsPlugin.set_listeners].
  repeat split; try assumption.
  intros name func Hfunc. unfold CommandsPlugin.listener. now rewrite Hfunc.
Qed.

End ListenerRegistry.

(** A plugin of [ext.commands] with an application command, a command, a
    check of each kind and a listener, on a host that accepts every call. *)
Lemma plugin_load_unload_mirror_witness :
  let accept := fun (_ : list call) (_ : call) => Return tt in
  let check := mkFunc "is_owner" true in
  let on_message := mkFunc "on_message" true in
  let ping := mkCommand 5 "ping" in
  let o := CommandsPlugin.mk (Plugin.mk [3%nat] [check] None [] [] None None [])
             [ping] [check] [("on_message", [on_message])] in
  let loaded := CommandsPlugin.load accept 1 (mkHosted o []) Example.world in
  let unloaded := CommandsPlugin.unload accept (object_of loaded) (world_of loaded) in
  obliging accept /\
  reverse (calls (object_of loaded))
  = [AddCheck 3 check; AddApplicationCommand 1 3; AddCheck 5 check; AddCommand 1 ping;
     AddListener 1 on_message "on_message"] /\
  self (object_of unloaded) = o /\
  calls (object_of unloaded)
  = reverse (map undo (reverse (calls (object_of loaded)))) ++ calls (object_of loaded).
Proof.
  intros accept check on_message ping o loaded unloaded.
  assert (Hob : obliging accept) by (intros history c; reflexivity).
  split; [exact Hob|].
  destruct (plugin_load_unload_mirror accept 1 Example.world Hob) as (_ & Hext).
  destruct (Hext (mkHosted o []) eq_refl) as (_ & _ & Hcalls & _ & Hself & Hundo).
  fold loaded in Hcalls, Hself, Hundo. fold unloaded in Hself, Hundo.
  split; [rewrite Hcalls; reflexivity|].
  split; [exact Hself|].
  rewrite Hundo, Hcalls. reflexivity.
Defined.

Lemma plugin_load_guards_witness :
  let accept := fun (_ : list call) (_ : call) => Return tt in
  let h := mkHosted (Plugin.init (Some "tools") None) [] in
  Plugin.unload accept h Example.world = (Raise AttributeError, h, Example.world) /\
  Plugin.load accept 2 (object_of (Plugin.load accept 1 h Example.world)) Example.world
  = (Raise AttributeError, object_of (Plugin.load accept 1 h Example.world), Example.world).
Proof.
  intros accept h.
  destruct (plugin_load_guards accept Example.world) as (Hload & Hunload & _).
  split.
  - exact (proj1 (Hunload h eq_refl)).
  - exact (proj1 (Hload (object_of (Plugin.load accept 1 h Example.world)) 2%nat 1%nat
                    eq_refl)).
Defined.

(** The host refuses the second of two application commands: the first
    stays registered, the plugin attached, and [load] cannot be repeated. *)
Lemma plugin_failure_states_witness :
  let h := mkHosted (Plugin.mk [3%nat; 7%nat] [] None [] [] None None []) [] in
  let r := Plugin.load (refusing 7) 1 h Example.world in
  result_of r = Raise ValueError /\
  calls (object_of r) = [AddApplicationCommand 1 7; AddApplicationCommand 1 3] /\
  Plugin._bot (self (object_of r)) = Some 1%nat /\
  Plugin.load (refusing 7) 1 (object_of r) Example.world
  = (Raise AttributeError, object_of r, Example.world).
Proof.
  intros h r.
  assert (Hr : result_of r = Raise ValueError) by reflexivity.
  split; [exact Hr|]. split; [reflexivity|].
  destruct (plugin_failure_states (refusing 7) 1 ValueError Example.world) as (Hload & _).
  destruct (Hload h eq_refl Hr) as (Hbot & _ & Hagain).
  split; [exact Hbot | exact (Hagain 1%nat Example.world)].
Defined.

(** Two listeners for [on_message], one registered under its own name and
    one under a given name, and one for [on_ready] between them. *)
Lemma listener_registry_witness :
  let first := mkFunc "on_message" true in
  let ready := mkFunc "on_ready" true in
  let second := mkFunc "log_message" true in
  let regs := [(None, first); (Some "", ready); (Some "on_message", second)] in
  let r := register_listeners regs (CommandsPlugin.init None None) Example.world in
  Forall (fun reg => is_coroutine reg.2 = true) regs /\
  NoDup (map fst (CommandsPlugin._listeners (CommandsPlugin.init None None))) /\
  result_of r = Return tt /\
  listeners_for "on_message" (CommandsPlugin._listeners (object_of r)) = [first; second] /\
  listeners_for "on_ready" (CommandsPlugin._listeners (object_of r)) = [ready].
Proof.
  intros first ready second regs r.
  assert (Hco : Forall (fun reg => is_coroutine reg.2 = true) regs)
    by (repeat constructor).
  assert (Hnd : NoDup (map fst (CommandsPlugin._listeners (CommandsPlugin.init None None))))
    by constructor.
  split; [exact Hco|]. split; [exact Hnd|].
  destruct (listener_registry regs (CommandsPlugin.init None None) Example.world Hco Hnd)
    as (Hr & _ & _ & _ & Hfor & _).
  split; [exact Hr|]. split.
  - exact (Hfor "on_message").
  - exact (Hfor "on_ready").
Defined.
(** ** Shard: READY;  DiscordWebSocket: a command that finds no slot *)

Section ShardReady.
Context `{Env}.
Import Shard.

(** A DISPATCH payload comes to [dispatch_events], after the sequence
    number has been stored. *)
Lemma shard_dispatch_payload (payload : Payload.obj) (sh : obj) (w : World) :
  Payload.op payload = 0%Z ->
  let o1 := match Payload.s payload with
            | Some n => set_sequence (Some n) sh
            | None => sh
            end in
  _process_payload payload sh w
  = bind (dispatch_events (Payload.d payload) (Payload.t payload)) (fun _ => ret tt) o1 w.
Proof.
  intros Hop o1. unfold _process_payload. rewrite Hop.
  erewrite (bind_run _ _ _ o1)
    by (subst o1; destruct (Payload.s payload);
        rewrite ?bool_decide_is_Some, ?bool_decide_is_Some_None; reflexivity).
  apply (bind_ext (dispatch_events (Payload.d payload) (Payload.t payload))).
  intros u o' w'. reflexivity.
Qed.

Lemma shard_dispatch_tail_maintains (P : obj -> Prop) (ev : option string) (data : json) :
  (forall ls o, P o -> P (set_dispatch_listeners ls o)) ->
  maintains P
    (o <- get ;;
     parsed <- match ev with
               | Some name =>
                   match discord_parsers o !! name with
                   | Some func => lift (func data)
                   | None => ret data
                   end
               | None => ret data
               end ;;
     remove_dispatched ev parsed).
Proof.
  intros HP. unfold remove_dispatched. maintain. now apply HP.
Qed.

(** X27.  READY on a shard: the session id and the resume URL of the data
    are stored, whatever the parser and the waiters of the event do
    afterwards; the sequence number is the one of the payload if it carries
    one and is left alone if not.  Without a resume URL in the data the
    method raises [KeyError] with the session id already stored; without a
    session id it raises [KeyError] and stores neither. *)
Theorem shard_ready_captures_session (payload : Payload.obj)
    (kv : list (string * json)) (sh : obj) (w : World) :
  Payload.op payload = 0%Z ->
  Payload.t payload = Some "READY" ->
  Payload.d payload = JDict kv ->
  let r := _process_payload payload sh w in
  let o1 := match Payload.s payload with
            | Some n => set_sequence (Some n) sh
            | None => sh
            end in
  sequence (object_of r) = sequence o1 /\
  (forall sid url,
     assoc_get "session_id" kv = Some sid ->
     assoc_get "resume_gateway_url" kv = Some url ->
     session_id (object_of r) = sid /\ resume_url (object_of r) = url) /\
  (forall sid,
     assoc_get "session_id" kv = Some sid ->
     assoc_get "resume_gateway_url" kv = None ->
     r = (Raise KeyError, set_session_id sid o1, w)) /\
  (assoc_get "session_id" kv = None -> r = (Raise KeyError, o1, w)).
Proof.
  intros Hop Ht Hd r o1. subst r.
  rewrite (shard_dispatch_payload payload sh w Hop). fold o1.
  rewrite Ht, Hd. unfold dispatch_events.
  rewrite bool_decide_eq_true_2 by reflexivity.
  assert (Hobj : forall (m : M obj unit) o w',
            object_of (bind m (fun _ => ret tt) o w') = object_of (m o w')).
  { intros m o w'. unfold bind. destruct (m o w') as [[[u|e] o'] w'']; reflexivity. }
  split; [|split; [|split]].
  - rewrite Hobj.
    match goal with
    | |- sequence (object_of (?m o1 w)) = _ =>
        enough (Hm : maintains (fun o => sequence o = sequence o1) m)
          by (apply Hm; reflexivity)
    end.
    unfold remove_dispatched. maintain; cbn; assumption.
  - intros sid url Hsid Hurl. rewrite Hobj.
    apply (bind_keeps (fun o => session_id o = sid /\ resume_url o = url) _ _ o1
             (set_resume_url url (set_session_id sid o1)) w w
             (Return (JDict (assoc_set "__shard_id__" (JInt (shard_id o1)) kv)))).
    + unfold subscript. rewrite Hsid, Hurl. reflexivity.
    + split; reflexivity.
    + intros data.
      apply (shard_dispatch_tail_maintains
               (fun o => session_id o = sid /\ resume_url o = url) (Some "READY") data).
      intros ls o Ho. exact Ho.
  - intros sid Hsid Hurl.
    erewrite bind_raise; [reflexivity|].
    erewrite bind_raise; [reflexivity|].
    unfold subscript. rewrite Hsid, Hurl. reflexivity.
  - intros Hsid.
    erewrite bind_raise; [reflexivity|].
    erewrite bind_raise; [reflexivity|].
    unfold subscript. rewrite Hsid. reflexivity.
Qed.

End ShardReady.
Lemma shard_ready_captures_session_witness :
  let ready := Payload.mk 0 Sample.ready_data (Some 1%Z) (Some "READY") in
  let r := @Shard._process_payload Sample.env ready Sample.shard Example.world in
  Payload.d ready
  = JDict [("session_id", JStr "abc"); ("resume_gateway_url", JStr "wss://resume")] /\
  Shard.session_id (object_of r) = JStr "abc" /\
  Shard.resume_url (object_of r) = JStr "wss://resume" /\
  Shard.sequence (object_of r) = Some 1%Z.
Proof.
  intros ready r.
  assert (Hd : Payload.d ready
               = JDict [("session_id", JStr "abc");
                        ("resume_gateway_url", JStr "wss://resume")]) by reflexivity.
  split; [exact Hd|].
  destruct (@shard_ready_captures_session Sample.env ready _ Sample.shard Example.world
              eq_refl eq_refl Hd) as (Hseq & Hok & _).
  destruct (Hok (JStr "abc") (JStr "wss://resume") eq_refl eq_refl) as (Hsid & Hurl).
  split; [exact Hsid|]. split; [exact Hurl | exact Hseq].
Defined.

Section CommandsAndSlots.
Context `{Env}.
Import DiscordWebSocket.

(** X28.  A command sent through [send_as_json] when the rate limiter has
    no slot left in its window: the method sleeps once, for the rest of the
    window, and then writes the frame.  The wait is not followed by taking
    a slot: the limiter is as it was, so the frame sent after the wait is
    not counted. *)
Theorem command_waits_for_slot (data : json) (o : obj) (w : World) :
  Socket.fault (socket o) = None ->
  (0 < GatewayRatelimiter.max (_rate_limiter o))%Z ->
  GatewayRatelimiter.remaining (_rate_limiter o) = 0%Z ->
  (GatewayRatelimiter.window (_rate_limiter o) <= now w)%Q ->
  (now w < GatewayRatelimiter.window (_rate_limiter o)
           + GatewayRatelimiter.per (_rate_limiter o))%Q ->
  let r := send_as_json data o w in
  let wait := (GatewayRatelimiter.per (_rate_limiter o)
               - (now w - GatewayRatelimiter.window (_rate_limiter o)))%Q in
  result_of r = Return tt /\
  sleeps (world_of r) = wait :: sleeps w /\
  (0 < wait)%Q /\ (wait <= GatewayRatelimiter.per (_rate_limiter o))%Q /\
  now (world_of r) = (now w + wait)%Q /\
  Socket.sent (socket (object_of r)) = to_json data :: Socket.sent (socket o) /\
  _rate_limiter (object_of r) = _rate_limiter o.
Proof.
  intros Hfault Hmax Hrem Hwin Hnow r wait.
  assert (Hpos : (0 < wait)%Q) by (subst wait; lra).
  assert (Hle : (wait <= GatewayRatelimiter.per (_rate_limiter o))%Q)
    by (subst wait; lra).
  destruct (get_delay_cases (_rate_limiter o) w Hmax ltac:(lia))
    as [[Hover _]|[(_ & Hslot & _)|(_ & _ & Hd)]].
  { exfalso. unfold GatewayRatelimiter.window_over in Hover.
    rewrite Qle_bool_true in Hover by lra. discriminate. }
  { lia. }
  fold wait in Hd.
  destruct (block_of_get_delay_cases _ _ _ _ Hd) as (Hobj & Hres & [[Hz _]|[_ Hworld]]).
  { exfalso. lra. }
  assert (Hblock : GatewayRatelimiter.block (_rate_limiter o) w
                   = (Return tt, _rate_limiter o,
                      mkWorld (now w + wait) (perf w + wait) (futures w)
                        (wait :: sleeps w) (dispatched w))).
  { destruct (GatewayRatelimiter.block (_rate_limiter o) w) as [[res rl] w'].
    cbn in Hobj, Hres, Hworld. now subst. }
  subst r. unfold send_as_json, catch, self_send.
  erewrite bind_run by reflexivity.
  destruct (debug_events o).
  - unfold debug_send.
    erewrite bind_run by (unfold zoom; rewrite Hblock; reflexivity).
    erewrite bind_run by reflexivity.
    unfold zoom, Socket.send_str, bind, get, modify. cbn. rewrite Hfault. cbn.
    repeat split; assumption.
  - unfold send.
    erewrite bind_run by (unfold zoom; rewrite Hblock; reflexivity).
    unfold zoom, Socket.send_str, bind, get, modify. cbn. rewrite Hfault. cbn.
    repeat split; assumption.
Qed.

End CommandsAndSlots.

(** A limiter of 2 slots and a window of 60 seconds that began 10 seconds
    ago, with no slot left: the command waits 50 seconds. *)
Lemma command_waits_for_slot_witness :
  let o := @DiscordWebSocket.set_rate_limiter Sample.env (GatewayRatelimiter.mk 2 0 90 60)
             Sample.ws in
  let r := @DiscordWebSocket.send_as_json Sample.env (JDict [("op", JInt 4)]) o
             Example.world in
  (GatewayRatelimiter.window (DiscordWebSocket._rate_limiter o) <= now Example.world)%Q /\
  (now Example.world < GatewayRatelimiter.window (DiscordWebSocket._rate_limiter o)
                       + GatewayRatelimiter.per (DiscordWebSocket._rate_limiter o))%Q /\
  result_of r = Return tt /\
  sleeps (world_of r) = [(60 - (100 - 90))%Q] /\
  DiscordWebSocket._rate_limiter (object_of r) = GatewayRatelimiter.mk 2 0 90 60.
Proof.
  intros o r.
  assert (Hwin : (GatewayRatelimiter.window (DiscordWebSocket._rate_limiter o)
                  <= now Example.world)%Q) by (unfold Qle; cbn; lia).
  assert (Hnow : (now Example.world
                  < GatewayRatelimiter.window (DiscordWebSocket._rate_limiter o)
                    + GatewayRatelimiter.per (DiscordWebSocket._rate_limiter o))%Q)
    by (unfold Qlt; cbn; lia).
  split; [exact Hwin|]. split; [exact Hnow|].
  destruct (@command_waits_for_slot Sample.env (JDict [("op", JInt 4)]) o Example.world
              eq_refl ltac:(cbn; lia) eq_refl Hwin Hnow)
    as (Hr & Hsleeps & _ & _ & _ & _ & Hrl).
  split; [exact Hr|]. split; [exact Hsleeps | exact Hrl].
Defined.
(** ** A message split over binary frames;  checks and registration *)

Section SplitMessages.
Context `{Env}.
Import DiscordWebSocket.

Lemma then_ret {O} (m : M O unit) (o : O) (w : World) :
  (m ;; ret tt) o w = m o w.
Proof.
  unfold bind, ret. destruct (m o w) as [[[[]|e] o'] w']; reflexivity.
Qed.

(** Frames that do not end with the marker only fill the buffer. *)
Lemma frames_fill_buffer (chunks : list (list byte)) (o : obj) (w : World) :
  Forall (fun chunk => incomplete chunk = true) chunks ->
  for_each (map Binary chunks) received_message o w
  = (Return tt,
     match chunks with
     | [] => o
     | _ => set_buffer (_buffer o ++ concat chunks) o
     end, w).
Proof.
  intros Hall. revert o.
  induction Hall as [|chunk chunks Hc Hall IH]; intros o; [reflexivity|].
  cbn [map for_each].
  erewrite bind_run.
  2:{ cbn [received_message].
      erewrite bind_run by (apply (received_message_bytes_incomplete chunk o w Hc)).
      reflexivity. }
  rewrite IH. destruct chunks as [|next rest].
  - cbn [concat]. now rewrite app_nil_r.
  - cbn [_buffer set_buffer concat]. now rewrite <- app_assoc.
Qed.

(** X29.  A compressed message split over binary frames is put together
    again when the cut respects the marker, and only then: the test for
    the marker is made on each frame, not on the buffer.  Frames none of
    which ends with the marker only fill the buffer, and nothing is
    decompressed or processed, even when the frames together end with the
    marker.  If the frame that follows them has at least four bytes and
    ends with the marker, the whole buffer is decompressed, the buffer is
    emptied, and the method goes on exactly as it does for the text frame
    of the decoded message. *)
Theorem split_message_is_one_text_frame (chunks : list (list byte)) (o : obj) (w : World) :
  Forall (fun chunk => incomplete chunk = true) chunks ->
  (chunks <> [] ->
   for_each (map Binary chunks) received_message o w
   = (Return tt, set_buffer (_buffer o ++ concat chunks) o, w)) /\
  (forall final raw z text,
     incomplete final = false ->
     decompress (_zlib o) (_buffer o ++ concat chunks ++ final) = (Return raw, z) ->
     decode_utf8 raw = Return text ->
     for_each (map Binary (chunks ++ [final])) received_message o w
     = received_message (Text text) (set_buffer [] (set_zlib z o)) w).
Proof.
  intros Hall. split.
  - intros Hne. rewrite (frames_fill_buffer chunks o w Hall).
    destruct chunks; [contradiction | reflexivity].
  - intros final raw z text Hfin. revert o.
    induction Hall as [|chunk chunks Hc Hall IH]; intros o Hz Hd.
    + cbn [app concat map for_each] in *. rewrite then_ret.
      cbn [received_message].
      erewrite bind_run
        by (apply (received_message_bytes_complete final raw z text o w Hfin Hz Hd)).
      reflexivity.
    + cbn [app map for_each].
      erewrite bind_run.
      2:{ cbn [received_message].
          erewrite bind_run by (apply (received_message_bytes_incomplete chunk o w Hc)).
          reflexivity. }
      rewrite (IH (set_buffer (_buffer o ++ chunk) o)); [reflexivity | | exact Hd].
      rewrite <- Hz. cbn [concat _buffer _zlib set_buffer]. now rewrite <- !app_assoc.
Qed.

End SplitMessages.

(** "hello" compressed (the environment of the examples "compresses" by
    appending the marker) and cut in three, the last frame ending with the
    marker; and the same bytes cut inside the marker, which are never
    processed. *)
Lemma split_message_is_one_text_frame_witness :
  let chunks := [list_byte_of_string "he"; list_byte_of_string "ll"] in
  let final := list_byte_of_string "o" ++ ZLIB_SUFFIX in
  let inside := [list_byte_of_string "hello" ++ [x00; x00]; [xff; xff]] in
  Forall (fun chunk => incomplete chunk = true) chunks /\
  incomplete final = false /\
  @for_each (@DiscordWebSocket.obj Sample.env) _ (map Binary (chunks ++ [final]))
    (@DiscordWebSocket.received_message Sample.env) Sample.ws Example.world
  = @DiscordWebSocket.received_message Sample.env (Text "hello")
      (@DiscordWebSocket.set_buffer Sample.env []
         (@DiscordWebSocket.set_zlib Sample.env 1%nat Sample.ws)) Example.world /\
  Forall (fun chunk => incomplete chunk = true) inside /\
  concat inside = concat chunks ++ final /\
  @for_each (@DiscordWebSocket.obj Sample.env) _ (map Binary inside)
    (@DiscordWebSocket.received_message Sample.env) Sample.ws Example.world
  = (Return tt,
     @DiscordWebSocket.set_buffer Sample.env
       (@DiscordWebSocket._buffer Sample.env Sample.ws ++ concat inside) Sample.ws,
     Example.world).
Proof.
  intros chunks final inside.
  assert (Hall : Forall (fun chunk => incomplete chunk = true) chunks)
    by (repeat constructor).
  assert (Hfin : incomplete final = false) by reflexivity.
  assert (Hin : Forall (fun chunk => incomplete chunk = true) inside)
    by (repeat constructor).
  split; [exact Hall|]. split; [exact Hfin|]. split.
  - exact (proj2 (@split_message_is_one_text_frame Sample.env chunks Sample.ws
                    Example.world Hall)
             final (list_byte_of_string "hello") 1%nat "hello" Hfin eq_refl eq_refl).
  - split; [exact Hin|]. split; [reflexivity|].
    exact (proj1 (@split_message_is_one_text_frame Sample.env inside Sample.ws
                    Example.world Hin) ltac:(discriminate)).
Defined.

Section ChecksFirst.
Context (respond : list call -> call -> outcome unit).

Lemma flat_map_split {A B} (f : A -> list B) (l : list A) (x : A) :
  x ∈ l -> exists pre post, flat_map f l = pre ++ f x ++ post.
Proof.
  intros Hx. apply list_elem_of_split in Hx as (l1 & l2 & ->).
  exists (flat_map f l1), (flat_map f l2).
  now rewrite flat_map_app.
Qed.

Lemma map_split {A B} (f : A -> B) (l : list A) (x : A) :
  x ∈ l -> exists pre post, map f l = pre ++ f x :: post.
Proof.
  intros Hx. apply list_elem_of_split in Hx as (l1 & l2 & ->).
  exists (map f l1), (map f l2). now rewrite map_app.
Qed.

(** X30.  No command reaches the client without its checks.  On a host
    where every call returns, [load] passes every registered check to
    every registered command, whatever the order in which the decorators
    were applied, and it does so before it registers that command with the
    client: in the calls that [load] makes, in their order, the [add_check]
    of a check on a command precedes the [add_application_command] (or, in
    [ext.commands], the [add_command]) of that command. *)
Theorem checks_precede_registration (bot : nat) (w : World) :
  obliging respond ->
  (forall h cmd check,
     Plugin._bot (self h) = None ->
     cmd ∈ Plugin._app_commands (self h) ->
     check ∈ Plugin._app_command_checks (self h) ->
     exists pre mid post,
       reverse (calls (object_of (Plugin.load respond bot h w)))
       = reverse (calls h)
         ++ pre ++ AddCheck cmd check :: mid ++ AddApplicationCommand bot cmd :: post) /\
  (forall h cmd check,
     Plugin._bot (CommandsPlugin.base (self h)) = None ->
     cmd ∈ CommandsPlugin._commands (self h) ->
     check ∈ CommandsPlugin._command_checks (self h) ->
     exists pre mid post,
       reverse (calls (object_of (CommandsPlugin.load respond bot h w)))
       = reverse (calls h)
         ++ pre ++ AddCheck (command_id cmd) check :: mid ++ AddCommand bot cmd :: post).
Proof.
  intros Hob. split.
  - intros h cmd check Hbot Hcmd Hcheck.
    rewrite (plugin_load_run respond bot h w Hob Hbot).
    cbn [object_of fst snd calls].
    rewrite reverse_app, reverse_involutive.
    unfold app_command_calls.
    destruct (flat_map_split
                (fun c => map (AddCheck c) (Plugin._app_command_checks (self h))
                          ++ [AddApplicationCommand bot c])
                (Plugin._app_commands (self h)) cmd Hcmd) as (pre & post & ->).
    destruct (map_split (AddCheck cmd) _ check Hcheck) as (k1 & k2 & ->).
    exists (pre ++ k1), k2, (post ++ map CreateTask (Plugin._load_hooks (self h))).
    rewrite <- !app_assoc. cbn [app]. rewrite <- ?app_assoc. reflexivity.
  - intros h cmd check Hbot Hcmd Hcheck.
    rewrite (commands_plugin_load_run respond bot h w Hob Hbot).
    cbn [object_of fst snd calls].
    rewrite reverse_app, reverse_involutive.
    set (b := CommandsPlugin.base (self h)).
    set (first := app_command_calls bot (Plugin._app_command_checks b)
                    (Plugin._app_commands b)
                  ++ map CreateTask (Plugin._load_hooks b)).
    rewrite (app_assoc (app_command_calls bot (Plugin._app_command_checks b)
                          (Plugin._app_commands b))).
    fold first.
    unfold command_calls.
    destruct (flat_map_split
                (fun c => map (AddCheck (command_id c)) (CommandsPlugin._command_checks (self h))
                          ++ [AddCommand bot c])
                (CommandsPlugin._commands (self h)) cmd Hcmd) as (pre & post & ->).
    destruct (map_split (AddCheck (command_id cmd)) _ check Hcheck) as (k1 & k2 & ->).
    exists (first ++ pre ++ k1), k2,
      (post ++ listener_calls bot (CommandsPlugin._listeners (self h))).
    rewrite <- !app_assoc. cbn [app]. rewrite <- ?app_assoc. reflexivity.
Qed.

End ChecksFirst.

(** A check registered after the command it guards. *)
Lemma checks_precede_registration_witness :
  let accept := fun (_ : list call) (_ : call) => Return tt in
  let check := mkFunc "is_owner" true in
  let decorated :=
    object_of (Plugin.application_command_check check
                 (object_of (Plugin.slash_command (Return 3%nat) (Plugin.init None None)
                               Example.world))
                 Example.world) in
  obliging accept /\
  Plugin._app_commands decorated = [3%nat] /\
  Plugin._app_command_checks decorated = [check] /\
  exists pre mid post,
    reverse (calls (object_of (Plugin.load accept 1 (mkHosted decorated []) Example.world)))
    = pre ++ AddCheck 3 check :: mid ++ AddApplicationCommand 1 3 :: post.
Proof.
  intros accept check decorated.
  assert (Hob : obliging accept) by (intros history c; reflexivity).
  split; [exact Hob|]. split; [reflexivity|]. split; [reflexivity|].
  destruct (checks_precede_registration accept 1 Example.world Hob) as (Hbase & _).
  destruct (Hbase (mkHosted decorated []) 3%nat check eq_refl ltac:(left) ltac:(left))
    as (pre & mid & post & Hcalls).
  exists pre, mid, post. exact Hcalls.
Defined.
